(** * Geometry tutoring system: level progression, answer evaluation and
      question generation of [app.py]

    A shallow embedding of the request handlers of [src/app.py] and of the
    functions they call, with the properties of the specification proved
    (or refuted) over it.

    Modelling conventions.
    - In the handlers Python [float] values are exact rationals ([Q]);
      [math.pi] is the rational that the double [3.141592653589793]
      denotes, and non-finite floats (nan, inf) are not represented.
    - The evaluation of an answer (the error and its two comparisons) is
      also given on binary64 doubles, with the IEEE 754 operations of
      [PrimFloat]: that is where rounding and non-finite values decide the
      outcome.
    - Python [int] counters are [Z].
    - [session] is the server-side session dictionary; its keys are the
      fields of [Session], an absent key is [None].
    - [progress['shapes']] is a dictionary keyed by the shape name: a
      [gmap string ShapeProgress].  The three-key [levels] dictionary is
      indexed by the enumeration [Level].
    - Handlers run in a state-and-exception monad over [Session]: a raised
      exception keeps the mutations made before it, as the in-place updates
      of the Python dictionaries do.
    - [random.random()] is an oracle [Rng]; each call consumes one draw.
    - Display strings (problem text, formula, hint, steps, tutor messages)
      are not modelled; the tutor response is its category. *)

From Stdlib Require Import ZArith QArith Qround Qabs Bool Lia Floats.
From stdpp Require Import gmap strings list.

Local Open Scope Z_scope.

(** ** Levels and their configuration *)

Inductive Level := beginner | intermediate | expert.

#[global] Instance Level_eq_dec : EqDecision Level.
Proof. solve_decision. Defined.

Record LevelConfig := {
  questions_required : Z;
  pass_threshold : Q
}.

Definition LEVELS (level : Level) : LevelConfig :=
  match level with
  | beginner => {| questions_required := 5; pass_threshold := 6 # 10 |}
  | intermediate => {| questions_required := 5; pass_threshold := 7 # 10 |}
  | expert => {| questions_required := 5; pass_threshold := 8 # 10 |}
  end.

Definition LEVEL_ORDER : list Level := [beginner; intermediate; expert].

(** [LEVEL_ORDER.index(level)] *)
Fixpoint index_in (l : list Level) (x : Level) : option nat :=
  match l with
  | [] => None
  | y :: l' => if decide (y = x) then Some 0%nat else S <$> index_in l' x
  end.

Definition level_index (level : Level) : nat :=
  default 0%nat (index_in LEVEL_ORDER level).

(** ** The progress record *)

Record QuestionResult := {
  qr_correct : bool;
  qr_user_answer : Q;
  qr_correct_answer : Q
}.

Record LevelData := {
  unlocked : bool;
  attempts : Z;
  correct : Z;
  completed : bool;
  questions : list QuestionResult
}.

Record Levels := {
  lv_beginner : LevelData;
  lv_intermediate : LevelData;
  lv_expert : LevelData
}.

Definition get_level (ls : Levels) (level : Level) : LevelData :=
  match level with
  | beginner => lv_beginner ls
  | intermediate => lv_intermediate ls
  | expert => lv_expert ls
  end.

Definition set_level (ls : Levels) (level : Level) (d : LevelData) : Levels :=
  match level with
  | beginner => {| lv_beginner := d; lv_intermediate := lv_intermediate ls; lv_expert := lv_expert ls |}
  | intermediate => {| lv_beginner := lv_beginner ls; lv_intermediate := d; lv_expert := lv_expert ls |}
  | expert => {| lv_beginner := lv_beginner ls; lv_intermediate := lv_intermediate ls; lv_expert := d |}
  end.

Record ShapeProgress := {
  current_level : Level;
  levels : Levels;
  mastered : bool
}.

Record HistoryEntry := {
  h_shape : string;
  h_level : Level;
  h_correct : bool
}.

Record Progress := {
  total_attempts : Z;
  correct_answers : Z;
  wrong_answers : Z;
  shapes : gmap string ShapeProgress;
  history : list HistoryEntry
}.

Definition create_shape_progress : ShapeProgress :=
  {| current_level := beginner;
     levels :=
       {| lv_beginner := {| unlocked := true; attempts := 0; correct := 0; completed := false; questions := [] |};
          lv_intermediate := {| unlocked := false; attempts := 0; correct := 0; completed := false; questions := [] |};
          lv_expert := {| unlocked := false; attempts := 0; correct := 0; completed := false; questions := [] |} |};
     mastered := false |}.

Definition initial_progress : Progress :=
  {| total_attempts := 0;
     correct_answers := 0;
     wrong_answers := 0;
     shapes :=
       <["square" := create_shape_progress]>
       (<["rectangle" := create_shape_progress]>
       (<["triangle" := create_shape_progress]>
       (<["circle" := create_shape_progress]> ∅)));
     history := [] |}.

(** ** Random draws *)

Declare Scope monad_scope.
Delimit Scope monad_scope with monad.
Local Open Scope monad_scope.

(** The stream of values returned by successive calls of [random.random()]. *)
Definition Rng : Type := nat -> Q.

Definition R (A : Type) : Type := Rng -> A * Rng.

Definition rret {A} (a : A) : R A := fun g => (a, g).

Definition rbind {A B} (m : R A) (k : A -> R B) : R B :=
  fun g => let (a, g') := m g in k a g'.

Notation "x <~~ m ; k" := (rbind m (fun x => k))
  (at level 20, m at level 100, k at level 200, only parsing) : monad_scope.

Definition random : R Q := fun g => (g 0%nat, fun n => g (S n)).

(** [random.uniform(a, b)] is [a + (b - a) * random()] *)
Definition uniform (a b : Q) : R Q :=
  u <~~ random;
  rret (a + (b - a) * u)%Q.

(** [random.choice(seq)], modelled as the element at index
    [floor(random() * len(seq))] of one draw *)
Definition choice {A} (l : list A) : R (option A) :=
  u <~~ random;
  rret (l !! Z.to_nat (Qfloor (u * inject_Z (Z.of_nat (length l))))).

(** ** Numeric built-ins *)

(** Round to the nearest integer, ties to even. *)
Definition round_half_even (x : Q) : Z :=
  let f := Qfloor x in
  match (x - inject_Z f ?= 1 # 2)%Q with
  | Lt => f
  | Gt => f + 1
  | Eq => if Z.even f then f else f + 1
  end.

Definition pow10 (n : nat) : Q := inject_Z (10 ^ Z.of_nat n).

(** [round(x, ndigits)] *)
Definition py_round (x : Q) (ndigits : nat) : Q :=
  (inject_Z (round_half_even (x * pow10 ndigits)) / pow10 ndigits)%Q.

(** [int(x)]: truncation towards zero *)
Definition py_int (x : Q) : Q := inject_Z (Qnum x ÷ Zpos (Qden x)).

(** [math.pi], the double nearest to pi: 884279719003555 / 2^48 *)
Definition math_pi : Q := 884279719003555 # 281474976710656.

(** ** Question generation *)

Record Context := {
  setup : string;
  object : string;
  unit_name : string;
  question_text : string
}.

Definition contexts_square : list Context :=
  [ {| setup := "You are tiling a kitchen floor."; object := "floor"; unit_name := "meters";
       question_text := "How many square meters of tiles do you need?" |};
    {| setup := "A farmer is fencing a square garden."; object := "garden"; unit_name := "meters";
       question_text := "What is the area of the garden?" |};
    {| setup := "An artist is creating a square canvas."; object := "canvas"; unit_name := "cm";
       question_text := "What is the painting area?" |} ].

Definition contexts_rectangle : list Context :=
  [ {| setup := "You are painting a bedroom wall."; object := "wall"; unit_name := "meters";
       question_text := "How much area needs to be painted?" |};
    {| setup := "A school is building a rectangular playground."; object := "playground";
       unit_name := "meters"; question_text := "What is the total area?" |};
    {| setup := "You need carpet for a living room."; object := "room"; unit_name := "meters";
       question_text := "How many square meters of carpet do you need?" |} ].

Definition contexts_triangle : list Context :=
  [ {| setup := "A sail for a boat is triangular."; object := "sail"; unit_name := "meters";
       question_text := "What is the area of fabric needed?" |};
    {| setup := "You are designing a triangular garden bed."; object := "garden bed";
       unit_name := "meters"; question_text := "What is the planting area?" |};
    {| setup := "A road sign is triangular."; object := "sign"; unit_name := "cm";
       question_text := "What is the surface area of the sign?" |} ].

Definition contexts_circle : list Context :=
  [ {| setup := "You are ordering a pizza."; object := "pizza"; unit_name := "cm";
       question_text := "What is the area of the pizza?" |};
    {| setup := "A sprinkler waters a circular area."; object := "watered area";
       unit_name := "meters"; question_text := "What area does it cover?" |};
    {| setup := "You are building a circular pond."; object := "pond"; unit_name := "meters";
       question_text := "What is the surface area?" |} ].

(** [contexts.get(shape, contexts['square'])] *)
Definition contexts (shape : string) : list Context :=
  if (shape =? "square")%string then contexts_square
  else if (shape =? "rectangle")%string then contexts_rectangle
  else if (shape =? "triangle")%string then contexts_triangle
  else if (shape =? "circle")%string then contexts_circle
  else contexts_square.

Definition get_real_world_context (shape : string) : R (option Context) :=
  choice (contexts shape).

Record Question := {
  q_context : option Context;
  q_given : list (string * Q);
  q_correct_answer : Q;
  q_shape : string;
  q_level : Level;
  q_user_answer : option Q
}.

Record Ranges := { r_min : Q; r_max : Q }.

(** The draw of one parameter:
    [x = round(random.uniform(lo, hi), decimal_places)], then
    [x = int(x)] when [decimal_places == 0]. *)
Definition draw_param (lo hi : Q) (decimal_places : nat) : R Q :=
  x <~~ uniform lo hi;
  let x := py_round x decimal_places in
  rret (if (decimal_places =? 0)%nat then py_int x else x).

Definition generate_question (shape : string) (level : Level) : R (option Question) :=
  setting <~~
    match level with
    | beginner => rret ({| r_min := 2; r_max := 10 |}, 0%nat, None)
    | intermediate => rret ({| r_min := 3; r_max := 15 |}, 1%nat, None)
    | expert =>
        context <~~ get_real_world_context shape;
        rret ({| r_min := 5; r_max := 25 |}, 2%nat, context)
    end;
  let '(ranges, decimal_places, context) := setting in
  if (shape =? "square")%string then
    side <~~ draw_param (r_min ranges) (r_max ranges) decimal_places;
    rret (Some {| q_context := context;
                  q_given := [("side"%string, side)];
                  q_correct_answer := (side ^ 2)%Q;
                  q_shape := shape; q_level := level; q_user_answer := None |})
  else if (shape =? "rectangle")%string then
    length <~~ draw_param (r_min ranges) (r_max ranges) decimal_places;
    width <~~ draw_param (r_min ranges) (r_max ranges * (7 # 10))%Q decimal_places;
    let area := (length * width)%Q in
    rret (Some {| q_context := context;
                  q_given := [("length"%string, length); ("width"%string, width)];
                  q_correct_answer := area;
                  q_shape := shape; q_level := level; q_user_answer := None |})
  else if (shape =? "triangle")%string then
    base <~~ draw_param (r_min ranges) (r_max ranges) decimal_places;
    height <~~ draw_param (r_min ranges) (r_max ranges * (8 # 10))%Q decimal_places;
    let area := ((base * height) / 2)%Q in
    rret (Some {| q_context := context;
                  q_given := [("base"%string, base); ("height"%string, height)];
                  q_correct_answer := area;
                  q_shape := shape; q_level := level; q_user_answer := None |})
  else if (shape =? "circle")%string then
    radius <~~ draw_param (r_min ranges * (5 # 10))%Q (r_max ranges * (5 # 10))%Q decimal_places;
    let area := (math_pi * radius ^ 2)%Q in
    rret (Some {| q_context := context;
                  q_given := [("radius"%string, radius)];
                  q_correct_answer := area;
                  q_shape := shape; q_level := level; q_user_answer := None |})
  else rret None.

(** ** The session *)

Record Session := {
  student_id : option string;
  progress : option Progress;
  current_question : option Question;
  current_shape : option string
}.

Definition empty_session : Session :=
  {| student_id := None; progress := None; current_question := None; current_shape := None |}.

Definition set_progress (p : Progress) (s : Session) : Session :=
  {| student_id := student_id s; progress := Some p;
     current_question := current_question s; current_shape := current_shape s |}.

Definition set_current_question (q : option Question) (s : Session) : Session :=
  {| student_id := student_id s; progress := progress s;
     current_question := q; current_shape := current_shape s |}.

Definition set_student_id (i : string) (s : Session) : Session :=
  {| student_id := Some i; progress := progress s;
     current_question := current_question s; current_shape := current_shape s |}.

Definition set_current_shape (n : string) (s : Session) : Session :=
  {| student_id := student_id s; progress := progress s;
     current_question := current_question s; current_shape := Some n |}.

(** ** A state-and-exception monad for the handlers *)

Inductive exn := ValueError | KeyError | TypeError | IndexError | OverflowError | BadRequest.

Inductive Result (A : Type) :=
  | Ok (a : A)
  | Raise (e : exn).
Arguments Ok {A} a.
Arguments Raise {A} e.

Definition M (A : Type) : Type := Session -> Result A * Session.

Definition ret {A} (a : A) : M A := fun s => (Ok a, s).

Definition bind {A B} (m : M A) (k : A -> M B) : M B :=
  fun s =>
    match m s with
    | (Ok a, s') => k a s'
    | (Raise e, s') => (Raise e, s')
    end.

Definition raise {A} (e : exn) : M A := fun s => (Raise e, s).
Definition get : M Session := fun s => (Ok s, s).
Definition put (s' : Session) : M unit := fun _ => (Ok tt, s').
Definition modify (f : Session -> Session) : M unit := fun s => (Ok tt, f s).

Notation "x <~ m ; k" := (bind m (fun x => k))
  (at level 20, m at level 100, k at level 200, only parsing) : monad_scope.
Notation "'exec' m ; k" := (bind m (fun _ => k))
  (at level 20, m at level 100, k at level 200, only parsing) : monad_scope.

(** [session['progress']] *)
Definition session_progress : M Progress :=
  s <~ get;
  match progress s with
  | Some p => ret p
  | None => raise KeyError
  end.

(** [progress['shapes'][shape]] *)
Definition shape_of (p : Progress) (shape : string) : M ShapeProgress :=
  match shapes p !! shape with
  | Some sp => ret sp
  | None => raise KeyError
  end.

(** ** Progress tracking *)

Definition init_progress : M unit :=
  s <~ get;
  match progress s with
  | None => put (set_progress initial_progress s)
  | Some _ => ret tt
  end.

Record LevelStatus := {
  can_advance : bool;
  level_complete : bool;
  needs_help : bool;
  ls_attempts : Z;
  ls_correct : Z;
  ls_required : Z;
  ls_accuracy : Q;
  ls_threshold : Q
}.

Definition Qltb (x y : Q) : bool := negb (Qle_bool y x).

(** [correct / attempts] when [attempts > 0], else [0] *)
Definition accuracy_of (level_data : LevelData) : Q :=
  if 0 <? attempts level_data
  then (inject_Z (correct level_data) / inject_Z (attempts level_data))%Q
  else 0%Q.

(** [questions[-3:] if len(questions) >= 3 else []] *)
Definition recent_of (qs : list QuestionResult) : list QuestionResult :=
  if (3 <=? length qs)%nat then drop (length qs - 3) qs else [].

Definition level_status (level_data : LevelData) (level_config : LevelConfig) : LevelStatus :=
  let accuracy := accuracy_of level_data in
  let enough := questions_required level_config <=? attempts level_data in
  let passed := Qle_bool (pass_threshold level_config) accuracy in
  let advance := enough && passed in
  let low := enough && negb passed && Qltb accuracy (4 # 10) in
  let recent := recent_of (questions level_data) in
  let struggling := (length recent =? 3)%nat && forallb (fun q => negb (qr_correct q)) recent in
  {| can_advance := advance;
     level_complete := advance;
     needs_help := low || struggling;
     ls_attempts := attempts level_data;
     ls_correct := correct level_data;
     ls_required := questions_required level_config;
     ls_accuracy := accuracy;
     ls_threshold := pass_threshold level_config |}.

Definition check_level_progress (shape : string) (level : Level) : M LevelStatus :=
  exec init_progress;
  p <~ session_progress;
  sp <~ shape_of p shape;
  let level_data := get_level (levels sp) level in
  let level_config := LEVELS level in
  ret (level_status level_data level_config).

Record AdvanceResult := {
  advanced : bool;
  new_level : option Level;
  shape_mastered : bool
}.

Definition mark_completed (d : LevelData) : LevelData :=
  {| unlocked := unlocked d; attempts := attempts d; correct := correct d;
     completed := true; questions := questions d |}.

Definition mark_unlocked (d : LevelData) : LevelData :=
  {| unlocked := true; attempts := attempts d; correct := correct d;
     completed := completed d; questions := questions d |}.

Definition set_shape (shape : string) (sp : ShapeProgress) (p : Progress) : Progress :=
  {| total_attempts := total_attempts p; correct_answers := correct_answers p;
     wrong_answers := wrong_answers p; shapes := <[shape := sp]> (shapes p);
     history := history p |}.

Definition advance_level (shape : string) : M AdvanceResult :=
  exec init_progress;
  p <~ session_progress;
  sp <~ shape_of p shape;
  let cur := current_level sp in
  current_index <~
    match index_in LEVEL_ORDER cur with
    | Some i => ret i
    | None => raise ValueError
    end;
  (* mark current level as completed *)
  let ls1 := set_level (levels sp) cur (mark_completed (get_level (levels sp) cur)) in
  if (current_index <? length LEVEL_ORDER - 1)%nat then
    match LEVEL_ORDER !! (current_index + 1)%nat with
    | Some next_level =>
        let ls2 := set_level ls1 next_level (mark_unlocked (get_level ls1 next_level)) in
        let sp' := {| current_level := next_level; levels := ls2; mastered := mastered sp |} in
        exec modify (set_progress (set_shape shape sp' p));
        ret {| advanced := true; new_level := Some next_level; shape_mastered := false |}
    | None => raise IndexError
    end
  else
    let sp' := {| current_level := cur; levels := ls1; mastered := true |} in
    exec modify (set_progress (set_shape shape sp' p));
    ret {| advanced := false; new_level := None; shape_mastered := true |}.

(** [l[-n:]] applied only when [len(l) > n] *)
Definition keep_last {A} (n : nat) (l : list A) : list A :=
  if (n <? length l)%nat then drop (length l - n) l else l.

Definition update_progress (shape : string) (level : Level) (is_correct : bool)
    (question_data : Question) : M Progress :=
  exec init_progress;
  p <~ session_progress;
  (* global stats *)
  let p1 :=
    {| total_attempts := total_attempts p + 1;
       correct_answers := if is_correct then correct_answers p + 1 else correct_answers p;
       wrong_answers := if is_correct then wrong_answers p else wrong_answers p + 1;
       shapes := shapes p;
       history := history p |} in
  exec modify (set_progress p1);
  (* shape-level stats *)
  sp <~ shape_of p1 shape;
  let level_data := get_level (levels sp) level in
  let entry :=
    {| qr_correct := is_correct;
       qr_user_answer := default 0%Q (q_user_answer question_data);
       qr_correct_answer := q_correct_answer question_data |} in
  let level_data' :=
    {| unlocked := unlocked level_data;
       attempts := attempts level_data + 1;
       correct := if is_correct then correct level_data + 1 else correct level_data;
       completed := completed level_data;
       questions := keep_last 20 (questions level_data ++ [entry]) |} in
  let sp' :=
    {| current_level := current_level sp;
       levels := set_level (levels sp) level level_data';
       mastered := mastered sp |} in
  let p2 :=
    {| total_attempts := total_attempts p1;
       correct_answers := correct_answers p1;
       wrong_answers := wrong_answers p1;
       shapes := <[shape := sp']> (shapes p1);
       history :=
         keep_last 50 (history p1 ++ [{| h_shape := shape; h_level := level; h_correct := is_correct |}]) |} in
  exec modify (set_progress p2);
  ret p2.

(** ** Answer evaluation *)

(** [abs(user_answer - correct) / correct if correct != 0 else abs(user_answer - correct)] *)
Definition answer_error (user_answer correct : Q) : Q :=
  if negb (Qeq_bool correct 0)
  then (Qabs (user_answer - correct) / correct)%Q
  else Qabs (user_answer - correct).

Definition is_correct_of (error : Q) : bool := Qle_bool error (2 # 100).

Definition is_close_of (error : Q) : bool :=
  Qle_bool error (10 # 100) && negb (is_correct_of error).

Inductive Outcome := outcome_correct | outcome_close | outcome_wrong.

(** The category reported by the pair of flags [is_correct], [is_close]. *)
Definition outcome_of (is_correct is_close : bool) : Outcome :=
  if is_correct then outcome_correct
  else if is_close then outcome_close
  else outcome_wrong.

Definition classify (user_answer correct : Q) : Outcome :=
  let error := answer_error user_answer correct in
  outcome_of (is_correct_of error) (is_close_of error).

(** *** The evaluation on binary64 doubles

    The same four lines on the doubles themselves: [abs], [-], [/], [!=]
    and [<=] are the IEEE 754 operations, and the literals [0.02] and
    [0.10] are the doubles nearest to them, as in Python. *)

Set Warnings "-inexact-float".
Definition tolerance_correct : float := 0.02%float.
Definition tolerance_close : float := 0.10%float.
Set Warnings "+inexact-float".

(** [abs(user_answer - correct) / correct if correct != 0 else abs(user_answer - correct)] *)
Definition error_f64 (user_answer correct : float) : float :=
  if negb (correct =? 0)%float
  then (PrimFloat.abs (user_answer - correct) / correct)%float
  else PrimFloat.abs (user_answer - correct).

(** [error <= 0.02] *)
Definition is_correct_f64 (error : float) : bool := (error <=? tolerance_correct)%float.

(** [error <= 0.10 and not is_correct] *)
Definition is_close_f64 (error : float) : bool :=
  (error <=? tolerance_close)%float && negb (is_correct_f64 error).

Definition classify_f64 (user_answer correct : float) : Outcome :=
  let error := error_f64 user_answer correct in
  outcome_of (is_correct_f64 error) (is_close_f64 error).

(** ** Requests and responses *)

(** A parsed JSON value: [JInt] is an integer literal, which Python reads
    as an [int]; [JNum] is a number with a fraction or an exponent, read as
    the finite [float] it carries. *)
Unset Elimination Schemes.
Inductive json :=
  | JNull
  | JBool (b : bool)
  | JInt (n : Z)
  | JNum (x : Q)
  | JStr (s : string)
  | JArr (items : list json)
  | JObj (fields : list (string * json)).
Set Elimination Schemes.

(** A key of a parsed JSON object: the last occurrence wins. *)
Fixpoint assoc_last (k : string) (fields : list (string * json)) : option json :=
  match fields with
  | [] => None
  | (k', v) :: rest =>
      match assoc_last k rest with
      | Some v' => Some v'
      | None => if (k' =? k)%string then Some v else None
      end
  end.

Inductive AiCategory :=
  | cat_correct | cat_wrong | cat_close | cat_level_up
  | cat_level_complete | cat_struggling | cat_welcome | cat_start_level.

Inductive ErrorBody :=
  | NoActiveQuestion
  | InvalidNumber
  | ShapeNotFound
  | Unexpected (e : exn).

Record SubmitResponse := {
  r_is_correct : bool;
  r_is_close : bool;
  r_correct_answer : Q;
  r_user_answer : Q;
  r_ai_tutor : AiCategory;
  r_level_status : LevelStatus;
  r_level_up : option AdvanceResult;
  r_level : Level;
  r_total_attempts : Z;
  r_total_correct : Z
}.

Inductive Response :=
  | Redirect (endpoint : string)
  | Page (template : string)
  | JsonError (code : Z) (err : ErrorBody)
  | JsonSubmit (body : SubmitResponse)
  | JsonData
  | ServerError (e : exn).

Definition status (r : Response) : Z :=
  match r with
  | Redirect _ => 302
  | Page _ => 200
  | JsonError code _ => code
  | JsonSubmit _ => 200
  | JsonData => 200
  | ServerError _ => 500
  end.

(** [@require_session] *)
Definition require_session (f : M Response) : M Response :=
  s <~ get;
  match student_id s with
  | None => ret (Redirect "index")
  | Some _ => f
  end.

(** The [try ... except ValueError ... except Exception ...] of [submit_answer]. *)
Definition try_except (m : M Response) : M Response :=
  fun s =>
    match m s with
    | (Ok r, s') => (Ok r, s')
    | (Raise ValueError, s') => (Ok (JsonError 400 InvalidNumber), s')
    | (Raise e, s') => (Ok (JsonError 500 (Unexpected e)), s')
    end.

(** A handler whose exceptions reach the framework answers 500. *)
Definition Handler : Type := Session -> Response * Session.

Definition run_handler (m : M Response) : Handler :=
  fun s =>
    match m s with
    | (Ok r, s') => (r, s')
    | (Raise e, s') => (ServerError e, s')
    end.

Section Handlers.

(** The built-in [float()] on a string: [None] when it raises [ValueError]. *)
Variable float_of_string : string -> option Q.

(** [request.get_json()]: the body, [None] when it is not JSON. *)
Definition get_json (body : option json) : M json :=
  match body with
  | Some data => ret data
  | None => raise BadRequest
  end.

(** [data['user_answer']] *)
Definition getitem (data : json) (key : string) : M json :=
  match data with
  | JObj fields =>
      match assoc_last key fields with
      | Some v => ret v
      | None => raise KeyError
      end
  | _ => raise TypeError
  end.

(** [float(n)] of an [int] raises [OverflowError] when [n] rounds out of
    the range of a double, that is from [2**1024 - 2**970] on. *)
Definition float_overflows (n : Z) : bool := 2 ^ 1024 - 2 ^ 970 <=? Z.abs n.

(** [float(v)]; an [int] within the range is carried as its exact value. *)
Definition py_float (v : json) : M Q :=
  match v with
  | JInt n => if float_overflows n then raise OverflowError else ret (inject_Z n)
  | JNum x => ret x
  | JBool b => ret (if b then 1%Q else 0%Q)
  | JStr s =>
      match float_of_string s with
      | Some x => ret x
      | None => raise ValueError
      end
  | JNull | JArr _ | JObj _ => raise TypeError
  end.

Definition with_user_answer (q : Question) (user_answer : Q) : Question :=
  {| q_context := q_context q; q_given := q_given q;
     q_correct_answer := q_correct_answer q; q_shape := q_shape q;
     q_level := q_level q; q_user_answer := Some user_answer |}.

(** [data = request.get_json()] and [user_answer = float(data['user_answer'])] *)
Definition read_user_answer (body : option json) : M Q :=
  data <~ get_json body;
  v <~ getitem data "user_answer";
  py_float v.

Definition submit_answer_m (body : option json) : M Response :=
  require_session (try_except (
    user_answer <~ read_user_answer body;
    s <~ get;
    match current_question s with
    | None => ret (JsonError 400 NoActiveQuestion)
    | Some question =>
        let correct := q_correct_answer question in
        let shape := q_shape question in
        let level := q_level question in
        let error := answer_error user_answer correct in
        let is_correct := is_correct_of error in
        let is_close := is_close_of error in
        (* question['user_answer'] = user_answer, on the session's own dict *)
        let question := with_user_answer question user_answer in
        exec modify (set_current_question (Some question));
        progress <~ update_progress shape level is_correct question;
        level_status <~ check_level_progress shape level;
        outcome <~
          (if is_correct then
             if can_advance level_status then
               advance_result <~ advance_level shape;
               ret (if shape_mastered advance_result then cat_level_complete else cat_level_up,
                    Some advance_result)
             else ret (cat_correct, None)
           else if is_close then ret (cat_close, None)
           else if needs_help level_status then ret (cat_struggling, None)
           else ret (cat_wrong, None));
        let '(ai_response, level_up_data) := outcome in
        ret (JsonSubmit
               {| r_is_correct := is_correct;
                  r_is_close := is_close;
                  r_correct_answer := py_round correct 2;
                  r_user_answer := py_round user_answer 2;
                  r_ai_tutor := ai_response;
                  r_level_status := level_status;
                  r_level_up := level_up_data;
                  r_level := level;
                  r_total_attempts := total_attempts progress;
                  r_total_correct := correct_answers progress |})
    end)).

Definition submit_answer (body : option json) : Handler :=
  run_handler (submit_answer_m body).

End Handlers.

(** [index], with the fresh identifier drawn by [os.urandom] *)
Definition index (token : string) : Handler :=
  run_handler (
    s <~ get;
    exec match student_id s with
         | None => exec modify (set_student_id token); init_progress
         | Some _ => ret tt
         end;
    ret (Page "index.html")).

Definition start : Handler :=
  run_handler (
    s <~ get;
    match student_id s with
    | None => ret (Redirect "index")
    | Some _ => exec init_progress; ret (Page "shape_select.html")
    end).

(** [get_progress_data] only reads the record, after [init_progress]. *)
Definition get_progress_data : M Progress :=
  exec init_progress;
  session_progress.

Definition learn (shape_name : string) : Handler :=
  run_handler (require_session (
    exec modify (set_current_shape shape_name);
    _p <~ get_progress_data;
    ret (Page "learn.html"))).

Definition practice (shape_name : string) (g : Rng) : Handler :=
  run_handler (require_session (
    exec init_progress;
    p <~ session_progress;
    sp <~ shape_of p shape_name;
    let cur := current_level sp in
    _level_index <~
      match index_in LEVEL_ORDER cur with
      | Some i => ret i
      | None => raise ValueError
      end;
    let question := fst (generate_question shape_name cur g) in
    exec modify (set_current_question question);
    _level_progress <~ check_level_progress shape_name cur;
    ret (Page "practice.html"))).

Definition get_progress : Handler :=
  run_handler (require_session (
    fun s =>
      match get_progress_data s with
      | (Ok _, s') => (Ok JsonData, s')
      | (Raise e, s') => (Ok (JsonError 500 (Unexpected e)), s')
      end)).

Definition get_shape_progress (shape_name : string) : Handler :=
  run_handler (require_session (
    fun s =>
      match get_progress_data s with
      | (Ok p, s') =>
          match shapes p !! shape_name with
          | Some _ => (Ok JsonData, s')
          | None => (Ok (JsonError 404 ShapeNotFound), s')
          end
      | (Raise e, s') => (Ok (JsonError 500 (Unexpected e)), s')
      end)).

Definition results : Handler :=
  run_handler (require_session (
    _p <~ get_progress_data;
    ret (Page "results.html"))).

(** [session.clear()] *)
Definition reset : Handler :=
  run_handler (
    exec put empty_session;
    ret (Redirect "index")).

Definition reset_shape (shape_name : string) : Handler :=
  run_handler (require_session (
    exec init_progress;
    p <~ session_progress;
    exec match shapes p !! shape_name with
         | Some _ => modify (set_progress (set_shape shape_name create_shape_progress p))
         | None => ret tt
         end;
    ret (Redirect "practice"))).

(** ** The request dispatcher *)

Inductive Request :=
  | ReqIndex (token : string)
  | ReqStart
  | ReqLearn (shape_name : string)
  | ReqPractice (shape_name : string) (g : Rng)
  | ReqSubmit (body : option json)
  | ReqProgress
  | ReqShapeProgress (shape_name : string)
  | ReqResults
  | ReqReset
  | ReqResetShape (shape_name : string).

Definition handle (float_of_string : string -> option Q) (r : Request) : Handler :=
  match r with
  | ReqIndex token => index token
  | ReqStart => start
  | ReqLearn shape_name => learn shape_name
  | ReqPractice shape_name g => practice shape_name g
  | ReqSubmit body => submit_answer float_of_string body
  | ReqProgress => get_progress
  | ReqShapeProgress shape_name => get_shape_progress shape_name
  | ReqResults => results
  | ReqReset => reset
  | ReqResetShape shape_name => reset_shape shape_name
  end.

(** The sessions a visitor can reach from an empty one. *)
Inductive reachable (float_of_string : string -> option Q) : Session -> Prop :=
  | reach_empty : reachable float_of_string empty_session
  | reach_step (s : Session) (r : Request) :
      reachable float_of_string s ->
      reachable float_of_string (snd (handle float_of_string r s)).

(** ** Specification-side definitions *)

(** [Config.SHAPES] of [config.py] *)
Definition SHAPES : list string := ["square"; "rectangle"; "triangle"; "circle"]%string.

(** [given[name]] *)
Fixpoint given_get (name : string) (given : list (string * Q)) : option Q :=
  match given with
  | [] => None
  | (k, v) :: rest => if (k =? name)%string then Some v else given_get name rest
  end.

(** The closed-form area of the specification, read off the named
    parameters: s * s, l * w, b * h / 2, pi * r * r. *)
Definition area_formula (shape : string) (given : list (string * Q)) : option Q :=
  if (shape =? "square")%string then
    match given_get "side" given with
    | Some s => Some (s * s)%Q
    | None => None
    end
  else if (shape =? "rectangle")%string then
    match given_get "length" given, given_get "width" given with
    | Some l, Some w => Some (l * w)%Q
    | _, _ => None
    end
  else if (shape =? "triangle")%string then
    match given_get "base" given, given_get "height" given with
    | Some b, Some h => Some (b * h / 2)%Q
    | _, _ => None
    end
  else if (shape =? "circle")%string then
    match given_get "radius" given with
    | Some r => Some (math_pi * (r * r))%Q
    | None => None
    end
  else None.

(** Every draw of [random.random()] lies in [0, 1). *)
Definition unit_draws (g : Rng) : Prop := forall n, (0 <= g n)%Q /\ (g n < 1)%Q.

(** The order beginner < intermediate < expert. *)
Definition next_level (level : Level) : option Level :=
  match level with
  | beginner => Some intermediate
  | intermediate => Some expert
  | expert => None
  end.

(** The record after the global counters of [update_progress] are bumped. *)
Definition count_attempt (is_correct : bool) (p : Progress) : Progress :=
  {| total_attempts := total_attempts p + 1;
     correct_answers := if is_correct then correct_answers p + 1 else correct_answers p;
     wrong_answers := if is_correct then wrong_answers p else wrong_answers p + 1;
     shapes := shapes p;
     history := history p |}.

(** The level entry after one more answer is recorded in it. *)
Definition record_in_level (is_correct : bool) (question_data : Question)
    (level_data : LevelData) : LevelData :=
  {| unlocked := unlocked level_data;
     attempts := attempts level_data + 1;
     correct := if is_correct then correct level_data + 1 else correct level_data;
     completed := completed level_data;
     questions :=
       keep_last 20
         (questions level_data ++
          [{| qr_correct := is_correct;
              qr_user_answer := default 0%Q (q_user_answer question_data);
              qr_correct_answer := q_correct_answer question_data |}]) |}.

Definition record_in_shape (level : Level) (is_correct : bool) (question_data : Question)
    (sp : ShapeProgress) : ShapeProgress :=
  {| current_level := current_level sp;
     levels := set_level (levels sp) level
                 (record_in_level is_correct question_data (get_level (levels sp) level));
     mastered := mastered sp |}.

(** The record that [update_progress] returns. *)
Definition record_answer (shape : string) (level : Level) (is_correct : bool)
    (question_data : Question) (p : Progress) (sp : ShapeProgress) : Progress :=
  let p1 := count_attempt is_correct p in
  {| total_attempts := total_attempts p1;
     correct_answers := correct_answers p1;
     wrong_answers := wrong_answers p1;
     shapes := <[shape := record_in_shape level is_correct question_data sp]> (shapes p1);
     history :=
       keep_last 50
         (history p1 ++ [{| h_shape := shape; h_level := level; h_correct := is_correct |}]) |}.

(** The shape entry and the result that [advance_level] produces. *)
Definition advance_shape (sp : ShapeProgress) : ShapeProgress * AdvanceResult :=
  let cur := current_level sp in
  let ls1 := set_level (levels sp) cur (mark_completed (get_level (levels sp) cur)) in
  match next_level cur with
  | Some next =>
      ({| current_level := next;
          levels := set_level ls1 next (mark_unlocked (get_level ls1 next));
          mastered := mastered sp |},
       {| advanced := true; new_level := Some next; shape_mastered := false |})
  | None =>
      ({| current_level := cur; levels := ls1; mastered := true |},
       {| advanced := false; new_level := None; shape_mastered := true |})
  end.

(** The last three recorded answers exist and are all incorrect. *)
Definition last_three_incorrect (qs : list QuestionResult) : Prop :=
  exists older a b c,
    qs = older ++ [a; b; c]
    /\ qr_correct a = false /\ qr_correct b = false /\ qr_correct c = false.

(** The progression state of a shape: current level, mastery, and the unlock
    and completion flags of its three levels. *)
Definition level_flags (flag : LevelData -> bool) (ls : Levels) : bool * bool * bool :=
  (flag (lv_beginner ls), flag (lv_intermediate ls), flag (lv_expert ls)).

Definition progression_state (sp : ShapeProgress)
    : Level * bool * (bool * bool * bool) * (bool * bool * bool) :=
  (current_level sp, mastered sp,
   level_flags unlocked (levels sp), level_flags completed (levels sp)).

(** [correct <= attempts] at every level of one shape. *)
Definition shape_ok (sp : ShapeProgress) : Prop :=
  forall level, correct (get_level (levels sp) level) <= attempts (get_level (levels sp) level).

(** [correct <= attempts] at every level of every shape. *)
Definition progress_inv (p : Progress) : Prop :=
  forall shape sp, shapes p !! shape = Some sp ->
  forall level, correct (get_level (levels sp) level) <= attempts (get_level (levels sp) level).

Definition session_inv (s : Session) : Prop :=
  forall p, progress s = Some p -> progress_inv p.

(** A submission advanced the level: the response carries [level_up] data,
    which only a call of [advance_level] produces. *)
Definition level_up_of (r : Response) : option AdvanceResult :=
  match r with
  | JsonSubmit b => r_level_up b
  | _ => None
  end.

Definition level_advances (r : Response) : Prop := level_up_of r <> None.


(** A computation keeps the invariant, whether it returns or raises. *)
Definition keeps {A} (m : M A) : Prop :=
  forall s, session_inv s -> session_inv (snd (m s)).

(** ** Example inputs *)

Definition quarter_draws : Rng := fun _ => 1 # 4.

(** The expert circle question drawn from [quarter_draws]: radius 5.00. *)
Definition pizza_question : Question :=
  {| q_context :=
       Some {| setup := "You are ordering a pizza."; object := "pizza"; unit_name := "cm";
               question_text := "What is the area of the pizza?" |};
     q_given := [("radius"%string, 500 # 100)];
     q_correct_answer := math_pi * (500 # 100) ^ 2;
     q_shape := "circle"; q_level := expert; q_user_answer := None |}.

(** The session of a visitor who has just opened the index page. *)
Definition fresh_session : Session := snd (index "visitor" empty_session).

(** A stand-in for [float()] on strings that accepts none; the examples
    send JSON numbers. *)
Definition reject_strings : string -> option Q := fun _ => None.

Definition answer_body (x : Q) : option json :=
  Some (JObj [("user_answer"%string, JNum x)]).

(** One round: open the practice page of the square (side 4, answer 16) and
    submit [x]. *)
Definition practise_square (s : Session) : Session :=
  snd (practice "square" quarter_draws s).

Definition square_round (x : Q) (s : Session) : Session :=
  snd (submit_answer reject_strings (answer_body x) (practise_square s)).

(** Four right answers on the beginner square. *)
Definition four_right : Session :=
  square_round 16 (square_round 16 (square_round 16 (square_round 16 fresh_session))).

(** The fifth practice page after four right answers, and what it holds. *)
Definition fifth_round : Session := practise_square four_right.

Definition fifth_progress : Progress := default initial_progress (progress fifth_round).

Definition fifth_square : ShapeProgress :=
  default create_shape_progress (shapes fifth_progress !! "square"%string).

Definition square_question : Question :=
  {| q_context := None; q_given := [("side"%string, 4%Q)]; q_correct_answer := 16;
     q_shape := "square"; q_level := beginner; q_user_answer := None |}.

(** Three wrong answers in a row on the beginner square. *)
Definition three_wrong : Session :=
  square_round 100 (square_round 100 (square_round 100 fresh_session)).

Definition three_wrong_progress : Progress :=
  default initial_progress (progress three_wrong).

Definition three_wrong_square : ShapeProgress :=
  default create_shape_progress (shapes three_wrong_progress !! "square"%string).

(** ** Well-formed progress records *)

(** The global counters add up, and the history log is no longer than 50
    entries nor than the number of attempts. *)
Definition counters_ok (p : Progress) : Prop :=
  total_attempts p = correct_answers p + wrong_answers p
  /\ 0 <= correct_answers p /\ 0 <= wrong_answers p
  /\ (length (history p) <= 50)%nat
  /\ Z.of_nat (length (history p)) <= total_attempts p.

(** The counts of a level are ordered, and its question log holds the last
    [min(attempts, 20)] answers. *)
Definition level_data_ok (d : LevelData) : Prop :=
  0 <= correct d /\ correct d <= attempts d
  /\ length (questions d) = Z.to_nat (Z.min (attempts d) 20).

(** The flags of a shape follow its current level: the levels up to the
    current one are unlocked, those below it are completed, expert is
    completed exactly when the shape is mastered, and a mastered shape is at
    expert. *)
Definition progression_ok (sp : ShapeProgress) : Prop :=
  (forall l, unlocked (get_level (levels sp) l)
             = (level_index l <=? level_index (current_level sp))%nat)
  /\ (forall l, completed (get_level (levels sp) l)
                = (level_index l <? level_index (current_level sp))%nat
                  || (mastered sp && bool_decide (l = expert)))
  /\ (mastered sp = true -> current_level sp = expert).

Definition shape_wf (sp : ShapeProgress) : Prop :=
  (forall l, level_data_ok (get_level (levels sp) l)) /\ progression_ok sp.

Definition progress_wf (p : Progress) : Prop :=
  counters_ok p
  /\ dom (shapes p) = list_to_set SHAPES
  /\ forall shape sp, shapes p !! shape = Some sp -> shape_wf sp.

(** A computation preserves a property of the session's progress entry,
    whether it returns or raises. *)
Definition preserves (I : option Progress -> Prop) {A} (m : M A) : Prop :=
  forall s, I (progress s) -> I (progress (snd (m s))).

Definition is_reset (r : Request) : bool :=
  match r with
  | ReqReset | ReqResetShape _ => true
  | _ => false
  end.

(** Every flag set in [a] is set in [b]. *)
Definition flags_le (a b : ShapeProgress) : Prop :=
  (forall l, unlocked (get_level (levels a) l) = true ->
             unlocked (get_level (levels b) l) = true)
  /\ (forall l, completed (get_level (levels a) l) = true ->
                completed (get_level (levels b) l) = true)
  /\ (mastered a = true -> mastered b = true).

(** ** The generation parameters of a level *)

(** The [ranges] and [decimal_places] that [generate_question] selects. *)
Definition level_range (level : Level) : Ranges :=
  match level with
  | beginner => {| r_min := 2; r_max := 10 |}
  | intermediate => {| r_min := 3; r_max := 15 |}
  | expert => {| r_min := 5; r_max := 25 |}
  end.

Definition decimal_places_of (level : Level) : nat :=
  match level with
  | beginner => 0
  | intermediate => 1
  | expert => 2
  end.

(** The interval each named parameter is drawn from. *)
Definition param_range (level : Level) (shape name : string) : option (Q * Q) :=
  let lo := r_min (level_range level) in
  let hi := r_max (level_range level) in
  if (shape =? "square")%string then
    if (name =? "side")%string then Some (lo, hi) else None
  else if (shape =? "rectangle")%string then
    if (name =? "length")%string then Some (lo, hi)
    else if (name =? "width")%string then Some (lo, hi * (7 # 10))%Q
    else None
  else if (shape =? "triangle")%string then
    if (name =? "base")%string then Some (lo, hi)
    else if (name =? "height")%string then Some (lo, hi * (8 # 10))%Q
    else None
  else if (shape =? "circle")%string then
    if (name =? "radius")%string then Some (lo * (5 # 10), hi * (5 # 10))%Q else None
  else None.

(** [x] has at most [ndigits] decimal places. *)
Definition on_grid (ndigits : nat) (x : Q) : Prop :=
  (x * pow10 ndigits == inject_Z (Qfloor (x * pow10 ndigits)))%Q.

(** ** The tutor's responses *)

Record TutorMessage := {
  message : string;
  emotion : string
}.

Definition tutor_correct : list TutorMessage :=
  [ {| message := "Excellent work! You've got it!"; emotion := "celebrating" |};
    {| message := "Perfect! You're really understanding this!"; emotion := "happy" |};
    {| message := "That's right! Keep up the great work!"; emotion := "thumbsup" |};
    {| message := "Brilliant! You're a natural!"; emotion := "excited" |};
    {| message := "Spot on! I knew you could do it!"; emotion := "proud" |} ].

Definition tutor_wrong : list TutorMessage :=
  [ {| message := "Not quite, but don't worry! Let's look at this together.";
       emotion := "encouraging" |};
    {| message := "Almost there! Check the formula and try again."; emotion := "thinking" |};
    {| message := "That's okay! Mistakes help us learn."; emotion := "supportive" |};
    {| message := "Let me help you understand this better."; emotion := "helpful" |};
    {| message := "No worries! Let's break this down step by step."; emotion := "teaching" |} ].

Definition tutor_close : list TutorMessage :=
  [ {| message := "So close! Just a small calculation error."; emotion := "encouraging" |};
    {| message := "You're on the right track! Double-check your math.";
       emotion := "thinking" |} ].

Definition tutor_level_up : list TutorMessage :=
  [ {| message := "AMAZING! You've mastered this level! Ready for the next challenge?";
       emotion := "celebrating" |};
    {| message := "Congratulations! You've leveled up! I'm so proud of you!";
       emotion := "excited" |} ].

Definition tutor_level_complete : list TutorMessage :=
  [ {| message := "You've completed all levels for this shape! You're a geometry master!";
       emotion := "proud" |} ].

Definition tutor_struggling : list TutorMessage :=
  [ {| message := "I can see this is tricky. Would you like to review the lesson?";
       emotion := "supportive" |};
    {| message := "Let's slow down and go through the basics again."; emotion := "helpful" |} ].

Definition tutor_welcome : list TutorMessage :=
  [ {| message := "Hi! I'm Geo, your geometry tutor. Let's learn together!";
       emotion := "waving" |};
    {| message := "Welcome back! Ready to continue your learning journey?";
       emotion := "happy" |} ].

Definition tutor_start_level : list TutorMessage :=
  [ {| message := "Let's start with the basics. You've got this!"; emotion := "encouraging" |};
    {| message := "Time for a new challenge! I believe in you!"; emotion := "excited" |};
    {| message := "Expert level! Show me what you've learned!"; emotion := "proud" |} ].

(** [AI_TUTOR.get(category)] *)
Definition AI_TUTOR (category : string) : option (list TutorMessage) :=
  if (category =? "correct")%string then Some tutor_correct
  else if (category =? "wrong")%string then Some tutor_wrong
  else if (category =? "close")%string then Some tutor_close
  else if (category =? "level_up")%string then Some tutor_level_up
  else if (category =? "level_complete")%string then Some tutor_level_complete
  else if (category =? "struggling")%string then Some tutor_struggling
  else if (category =? "welcome")%string then Some tutor_welcome
  else if (category =? "start_level")%string then Some tutor_start_level
  else None.

Definition get_ai_response (category : string) (level_index : nat)
    : R (option TutorMessage) :=
  let responses := default tutor_correct (AI_TUTOR category) in
  if (category =? "start_level")%string && (level_index <? length responses)%nat
  then rret (responses !! level_index)
  else choice responses.

(** The key under which the handlers ask for each category. *)
Definition category_name (c : AiCategory) : string :=
  match c with
  | cat_correct => "correct"
  | cat_wrong => "wrong"
  | cat_close => "close"
  | cat_level_up => "level_up"
  | cat_level_complete => "level_complete"
  | cat_struggling => "struggling"
  | cat_welcome => "welcome"
  | cat_start_level => "start_level"
  end.

(** ** The progress summary *)

Record LevelView := {
  v_unlocked : bool;
  v_completed : bool;
  v_attempts : Z;
  v_correct : Z;
  v_accuracy : Z;
  v_config : LevelConfig
}.

Record ShapeView := {
  sv_current_level : Level;
  sv_mastered : bool;
  sv_levels : Level -> LevelView
}.

Record ProgressData := {
  pd_accuracy : Q;
  pd_total_attempts : Z;
  pd_correct_answers : Z;
  pd_wrong_answers : Z;
  pd_shapes : gmap string ShapeView;
  pd_shapes_mastered : nat;
  pd_history : list HistoryEntry
}.

(** [round((correct / attempts) * 100)] when [attempts > 0], else [0] *)
Definition level_accuracy (level_info : LevelData) : Z :=
  if 0 <? attempts level_info
  then round_half_even
         (inject_Z (correct level_info) / inject_Z (attempts level_info) * 100)%Q
  else 0.

Definition level_view (level : Level) (level_info : LevelData) : LevelView :=
  {| v_unlocked := unlocked level_info;
     v_completed := completed level_info;
     v_attempts := attempts level_info;
     v_correct := correct level_info;
     v_accuracy := level_accuracy level_info;
     v_config := LEVELS level |}.

Definition shape_view (data : ShapeProgress) : ShapeView :=
  {| sv_current_level := current_level data;
     sv_mastered := mastered data;
     sv_levels := fun level => level_view level (get_level (levels data) level) |}.

(** [round((correct_answers / total_attempts) * 100, 1)] when
    [total_attempts > 0], else [0] *)
Definition overall_accuracy (p : Progress) : Q :=
  if 0 <? total_attempts p
  then py_round (inject_Z (correct_answers p) / inject_Z (total_attempts p) * 100)%Q 1
  else 0%Q.

(** The dictionary that [get_progress_data] builds from the record. *)
Definition progress_data (p : Progress) : ProgressData :=
  {| pd_accuracy := overall_accuracy p;
     pd_total_attempts := total_attempts p;
     pd_correct_answers := correct_answers p;
     pd_wrong_answers := wrong_answers p;
     pd_shapes := shape_view <$> shapes p;
     pd_shapes_mastered :=
       length (filter (fun kv : string * ShapeProgress => mastered (snd kv) = true)
                 (map_to_list (shapes p)));
     pd_history := drop (length (history p) - 10) (history p) |}.

(** The requests whose handlers ask for an identified visitor. *)
Definition needs_session (r : Request) : bool :=
  match r with
  | ReqIndex _ | ReqReset => false
  | _ => true
  end.

(** The parts of a session agree: an identified visitor has a progress
    record, an unidentified one has neither a record nor a question, and a
    pending question is about one of the four shapes. *)
Definition session_coherent (s : Session) : Prop :=
  (forall q, current_question s = Some q -> q_shape q ∈ SHAPES)
  /\ (is_Some (student_id s) -> is_Some (progress s))
  /\ (student_id s = None -> current_question s = None /\ progress s = None).

(** * Properties *)

(** ** Answer evaluation *)

(** *** On binary64 doubles *)












(** The two worked examples of the specification on doubles, and answers
    at the edge of a tolerance: for a square of area 16, the answer 16.32
    has the error 0.020000000000000018 and is [close], the answer 17.6 has
    the error 0.10000000000000009 and is [wrong]; an answer that is not a
    number, or infinite, is [wrong]. *)
Example classify_f64_examples :
  classify_f64 0x1.04ccccccccccdp+4 16 = outcome_correct
  /\ classify_f64 25 0x1.c451eb851eb85p+4 = outcome_wrong
  /\ classify_f64 0x1.051eb851eb852p+4 16 = outcome_close
  /\ classify_f64 0x1.199999999999ap+4 16 = outcome_wrong
  /\ classify_f64 nan 16 = outcome_wrong
  /\ classify_f64 infinity 16 = outcome_wrong.
Proof. repeat split. Qed.

(** *** On exact rationals *)

Lemma Qle_bool_false (x y : Q) : Qle_bool x y = false <-> (y < x)%Q.
Proof.
  split.
  - intros H. apply Qnot_le_lt. intros Hle. apply Qle_bool_iff in Hle. congruence.
  - intros H. destruct (Qle_bool x y) eqn:E; [|reflexivity].
    apply Qle_bool_iff in E. exfalso. exact (Qlt_not_le _ _ H E).
Qed.

Lemma is_correct_of_true (e : Q) : is_correct_of e = true <-> (e <= 2 # 100)%Q.
Proof. unfold is_correct_of. apply Qle_bool_iff. Qed.

Lemma is_close_of_true (e : Q) :
  is_close_of e = true <-> (2 # 100 < e)%Q /\ (e <= 10 # 100)%Q.
Proof.
  unfold is_close_of, is_correct_of.
  rewrite andb_true_iff, negb_true_iff, Qle_bool_iff, Qle_bool_false. tauto.
Qed.

(** On the exact rationals that the handlers carry, the outcome is
    [correct] exactly when [error <= 2/100], [close] exactly when
    [2/100 < error <= 10/100] and [wrong] exactly when [error > 10/100]. *)
Lemma rational_evaluation_classes (user_answer correct : Q) :
  let error := answer_error user_answer correct in
  ((~ correct == 0 /\ error = Qabs (user_answer - correct) / correct)
   \/ (correct == 0 /\ error = Qabs (user_answer - correct)))%Q
  /\ (classify user_answer correct = outcome_correct <-> (error <= 2 # 100)%Q)
  /\ (classify user_answer correct = outcome_close
      <-> (2 # 100 < error)%Q /\ (error <= 10 # 100)%Q)
  /\ (classify user_answer correct = outcome_wrong <-> (10 # 100 < error)%Q).
Proof.
  intros error. split.
  - subst error. unfold answer_error.
    destruct (Qeq_bool correct 0) eqn:E; simpl.
    + right. split; [now apply Qeq_bool_iff | reflexivity].
    + left. split; [|reflexivity].
      intros H. apply Qeq_bool_iff in H. congruence.
  - unfold classify, outcome_of. fold error.
    pose proof (is_correct_of_true error) as Hc.
    pose proof (is_close_of_true error) as Hk.
    destruct (is_correct_of error) eqn:Ec, (is_close_of error) eqn:Ek.
    + exfalso. destruct Hk as [Hk _]. destruct (Hk eq_refl) as [Hlt _].
      destruct Hc as [Hc _]. exact (Qlt_not_le _ _ Hlt (Hc eq_refl)).
    + destruct Hc as [Hc _]. specialize (Hc eq_refl).
      repeat split; try discriminate; try tauto.
      * intros [Hlt _]. exfalso. exact (Qlt_not_le _ _ Hlt Hc).
      * intros Hlt. exfalso. apply (Qlt_not_le _ _ Hlt).
        apply Qle_trans with (2 # 100)%Q; [exact Hc | discriminate].
    + destruct Hk as [Hk _]. destruct (Hk eq_refl) as [Hlt Hle].
      repeat split; try discriminate; try tauto.
      * intros Hle2. exfalso. exact (Qlt_not_le _ _ Hlt Hle2).
      * intros Hgt. exfalso. exact (Qlt_not_le _ _ Hgt Hle).
    + assert (Hn2 : (2 # 100 < error)%Q).
      { apply Qnot_le_lt. intros H. apply Hc in H. discriminate. }
      assert (Hn10 : (10 # 100 < error)%Q).
      { apply Qnot_le_lt. intros H. destruct Hk as [_ Hk].
        specialize (Hk (conj Hn2 H)). discriminate. }
      repeat split; try discriminate; try tauto.
      * intros Hle2. exfalso. exact (Qlt_not_le _ _ Hn2 Hle2).
      * intros [_ Hle]. exfalso. exact (Qlt_not_le _ _ Hn10 Hle).
Qed.

(** The two worked examples of the specification, on rationals. *)
Example classify_square_example : classify (163 # 10) 16 = outcome_correct.
Proof. reflexivity. Qed.

Example classify_circle_example : classify 25 (math_pi * 3 ^ 2) = outcome_wrong.
Proof. reflexivity. Qed.

(** ** Question generation *)

Lemma Qsquare (x : Q) : (x ^ 2 == x * x)%Q.
Proof. reflexivity. Qed.

Lemma shape_in_SHAPES (shape : string) :
  shape ∈ SHAPES <->
  shape = "square"%string \/ shape = "rectangle"%string
  \/ shape = "triangle"%string \/ shape = "circle"%string.
Proof.
  unfold SHAPES. rewrite !elem_of_cons, elem_of_nil. tauto.
Qed.

Ltac case_shape shape :=
  destruct (String.eqb_spec shape "square");
    [|destruct (String.eqb_spec shape "rectangle");
      [|destruct (String.eqb_spec shape "triangle");
        [|destruct (String.eqb_spec shape "circle")]]].

(** C5. For a shape of the catalogue, at every level, [generate_question]
    returns a question for that shape and level whose [correct_answer] is the
    closed-form area of its [given] parameters; for any other shape name it
    returns nothing. *)
Theorem generate_question_formula (shape : string) (level : Level) (g : Rng) :
  match fst (generate_question shape level g) with
  | Some q =>
      shape ∈ SHAPES /\ q_shape q = shape /\ q_level q = level
      /\ exists area, area_formula shape (q_given q) = Some area
                      /\ (q_correct_answer q == area)%Q
  | None => shape ∉ SHAPES
  end.
Proof.
  unfold generate_question, area_formula, rbind, rret.
  match goal with
  | |- context [let (_, _) := ?setting in _] =>
      destruct setting as [[[ranges decimal_places] context] g']
  end.
  case_shape shape; subst.
  - destruct (draw_param _ _ _ g') as [side g1]. cbn.
    split; [apply shape_in_SHAPES; tauto|].
    do 2 (split; [reflexivity|]).
    eexists; split; [reflexivity | apply Qsquare].
  - destruct (draw_param _ _ _ g') as [len g1].
    destruct (draw_param _ _ _ g1) as [width g2]. cbn.
    split; [apply shape_in_SHAPES; tauto|].
    do 2 (split; [reflexivity|]).
    eexists; split; reflexivity.
  - destruct (draw_param _ _ _ g') as [base g1].
    destruct (draw_param _ _ _ g1) as [height g2]. cbn.
    split; [apply shape_in_SHAPES; tauto|].
    do 2 (split; [reflexivity|]).
    eexists; split; reflexivity.
  - destruct (draw_param _ _ _ g') as [radius g1]. cbn.
    split; [apply shape_in_SHAPES; tauto|].
    do 2 (split; [reflexivity|]).
    eexists; split; reflexivity.
  - cbn. rewrite shape_in_SHAPES. tauto.
Qed.

(** The first worked example of the specification: a beginner square of
    side 4 has the answer 16. *)
Example generate_square_side_4 :
  fst (generate_question "square" beginner (fun _ => 1 # 4)) =
  Some {| q_context := None; q_given := [("side"%string, 4%Q)];
          q_correct_answer := 16; q_shape := "square"; q_level := beginner;
          q_user_answer := None |}.
Proof. reflexivity. Qed.

(** *** Generated parameters are at least 1 *)

Lemma unit_draws_tail (g : Rng) : unit_draws g -> unit_draws (fun n => g (S n)).
Proof. intros H n. apply H. Qed.

Lemma uniform_lower (lo hi : Q) (g : Rng) :
  (lo <= hi)%Q -> (0 <= g 0%nat)%Q -> (lo <= fst (uniform lo hi g))%Q.
Proof.
  intros Hlh Hu. unfold uniform, rbind, random, rret. cbn [fst].
  rewrite <- (Qplus_0_r lo) at 1.
  apply Qplus_le_compat; [apply Qle_refl|].
  apply Qmult_le_0_compat; [|exact Hu].
  unfold Qminus. rewrite <- (Qplus_opp_r lo).
  apply Qplus_le_compat; [exact Hlh | apply Qle_refl].
Qed.

Lemma round_half_even_floor (x : Q) : Qfloor x <= round_half_even x.
Proof.
  unfold round_half_even.
  destruct (x - inject_Z (Qfloor x) ?= 1 # 2)%Q; [destruct (Z.even _)| |]; lia.
Qed.

Lemma pow10_pos (n : nat) : (0 < pow10 n)%Q.
Proof.
  unfold pow10. change 0%Q with (inject_Z 0). rewrite <- Zlt_Qlt.
  apply Z.pow_pos_nonneg; lia.
Qed.

Lemma py_round_ge_1 (x : Q) (ndigits : nat) :
  (1 <= x)%Q -> (1 <= py_round x ndigits)%Q.
Proof.
  intros Hx. unfold py_round.
  apply Qle_shift_div_l; [apply pow10_pos|].
  rewrite Qmult_1_l. unfold pow10 at 1. rewrite <- Zle_Qle.
  etransitivity; [|apply round_half_even_floor].
  rewrite <- (Qfloor_Z (10 ^ Z.of_nat ndigits)) at 1.
  apply Qfloor_resp_le. fold (pow10 ndigits).
  rewrite <- (Qmult_1_l (pow10 ndigits)) at 1.
  apply Qmult_le_compat_r; [exact Hx|].
  apply Qlt_le_weak, pow10_pos.
Qed.

Lemma py_int_ge_1 (x : Q) : (1 <= x)%Q -> (1 <= py_int x)%Q.
Proof.
  intros Hx. unfold py_int. change 1%Q with (inject_Z 1). rewrite <- Zle_Qle.
  unfold Qle in Hx. cbn in Hx.
  rewrite Z.quot_div_nonneg by lia.
  apply Z.div_le_lower_bound; lia.
Qed.

Lemma draw_param_ge_1 (lo hi : Q) (decimal_places : nat) (g : Rng) :
  (1 <= lo)%Q -> (lo <= hi)%Q -> (0 <= g 0%nat)%Q ->
  (1 <= fst (draw_param lo hi decimal_places g))%Q.
Proof.
  intros Hlo Hlh Hu.
  pose proof (uniform_lower lo hi g Hlh Hu) as Hx.
  unfold draw_param, rbind, rret.
  destruct (uniform lo hi g) as [x g']. cbn [fst] in *.
  assert (H1 : (1 <= py_round x decimal_places)%Q).
  { apply py_round_ge_1. apply Qle_trans with lo; assumption. }
  destruct (decimal_places =? 0)%nat; [apply py_int_ge_1|]; exact H1.
Qed.

Lemma draw_param_rest (lo hi : Q) (decimal_places : nat) (g : Rng) :
  snd (draw_param lo hi decimal_places g) = fun n => g (S n).
Proof. reflexivity. Qed.

Lemma Qge_1_pos (x : Q) : (1 <= x)%Q -> (0 < x)%Q.
Proof. intros H. apply Qlt_le_trans with 1%Q; [reflexivity | exact H]. Qed.

Lemma Qmult_pos (x y : Q) : (0 < x)%Q -> (0 < y)%Q -> (0 < x * y)%Q.
Proof.
  intros Hx Hy. unfold Qlt in *. cbn in *. nia.
Qed.

Lemma answer_error_relative (user_answer correct : Q) :
  (0 < correct)%Q ->
  answer_error user_answer correct = (Qabs (user_answer - correct) / correct)%Q.
Proof.
  intros Hc. unfold answer_error.
  destruct (Qeq_bool correct 0) eqn:E; [|reflexivity].
  apply Qeq_bool_iff in E. rewrite E in Hc. discriminate.
Qed.

Ltac draw_step Hg :=
  match goal with
  | |- context [let (_, _) := draw_param ?lo ?hi ?dp ?g in _] =>
      let H := fresh "Hge" in
      let Hr := fresh "Hrest" in
      assert (H : (1 <= fst (draw_param lo hi dp g))%Q)
        by (apply draw_param_ge_1; [discriminate | discriminate | cbn beta; apply Hg]);
      pose proof (draw_param_rest lo hi dp g) as Hr;
      destruct (draw_param lo hi dp g) as [? ?]; cbn [fst snd] in H, Hr; subst
  end.

Lemma generated_answer_pos (shape : string) (level : Level) (g : Rng) (q : Question) :
  unit_draws g ->
  fst (generate_question shape level g) = Some q ->
  (0 < q_correct_answer q)%Q.
Proof.
  intros Hg. unfold generate_question.
  destruct level;
    cbv beta iota delta [rbind rret get_real_world_context choice random];
    case_shape shape; subst; cbv beta iota delta [r_min r_max];
    repeat draw_step Hg; cbn [fst]; intros Hq; try discriminate Hq;
    injection Hq as <-; cbn [q_correct_answer];
    repeat match goal with H : (1 <= _)%Q |- _ => apply Qge_1_pos in H end;
    first
      [ apply Qmult_pos; [reflexivity|]; apply Qmult_pos; assumption
      | apply Qlt_shift_div_l; [reflexivity|]; rewrite Qmult_0_l;
        apply Qmult_pos; assumption
      | apply Qmult_pos; assumption ].
Qed.

(** C10. A question generated for any shape at any level, from draws in
    [0, 1), has a strictly positive [correct_answer]; so the answer
    evaluation divides by a non-zero number and takes the relative-error
    branch, never the absolute-error fallback. *)
Theorem generated_answer_never_zero
    (shape : string) (level : Level) (g : Rng) (q : Question) :
  unit_draws g ->
  fst (generate_question shape level g) = Some q ->
  (0 < q_correct_answer q)%Q
  /\ Qeq_bool (q_correct_answer q) 0 = false
  /\ forall user_answer,
       answer_error user_answer (q_correct_answer q) =
       (Qabs (user_answer - q_correct_answer q) / q_correct_answer q)%Q.
Proof.
  intros Hg Hq.
  pose proof (generated_answer_pos shape level g q Hg Hq) as Hpos.
  split; [exact Hpos|]. split.
  - destruct (Qeq_bool (q_correct_answer q) 0) eqn:E; [|reflexivity].
    apply Qeq_bool_iff in E. rewrite E in Hpos. discriminate.
  - intros user_answer. now apply answer_error_relative.
Qed.

Lemma generated_answer_never_zero_witness :
  unit_draws quarter_draws
  /\ fst (generate_question "circle" expert quarter_draws) = Some pizza_question
  /\ (0 < q_correct_answer pizza_question)%Q.
Proof.
  assert (Hg : unit_draws quarter_draws) by (intros n; split; [discriminate | reflexivity]).
  assert (Hq : fst (generate_question "circle" expert quarter_draws) = Some pizza_question)
    by reflexivity.
  split; [exact Hg|]. split; [exact Hq|].
  exact (proj1 (generated_answer_never_zero "circle" expert quarter_draws pizza_question Hg Hq)).
Defined.

(** ** Running the progress operations *)

Ltac run_m :=
  cbv beta iota delta
    [bind ret raise get put modify init_progress session_progress shape_of].

Lemma init_progress_present (s : Session) (p : Progress) :
  progress s = Some p -> init_progress s = (Ok tt, s).
Proof. intros H. run_m. now rewrite H. Qed.

Lemma init_progress_absent (s : Session) :
  progress s = None -> init_progress s = (Ok tt, set_progress initial_progress s).
Proof. intros H. run_m. now rewrite H. Qed.

Lemma init_progress_result (s : Session) :
  exists p, init_progress s = (Ok tt, set_progress p s)
            /\ (progress s = Some p \/ progress s = None /\ p = initial_progress).
Proof.
  destruct (progress s) as [p|] eqn:E.
  - exists p. rewrite (init_progress_present s p E). split; [|now left].
    f_equal. destruct s; cbn in *. now subst.
  - exists initial_progress. rewrite (init_progress_absent s E). split; [reflexivity|].
    now right.
Qed.

Lemma exec_init_idem {A} (k : M A) (s : Session) :
  bind init_progress (fun _ => k) s
  = bind init_progress (fun _ => k) (snd (init_progress s)).
Proof.
  destruct (init_progress_result s) as (p & Hrun & _).
  unfold bind at 1. rewrite Hrun. cbn [snd].
  unfold bind. now rewrite (init_progress_present (set_progress p s) p eq_refl).
Qed.

Lemma check_level_progress_run (shape : string) (level : Level)
    (s : Session) (p : Progress) (sp : ShapeProgress) :
  progress s = Some p -> shapes p !! shape = Some sp ->
  check_level_progress shape level s =
  (Ok (level_status (get_level (levels sp) level) (LEVELS level)), s).
Proof.
  intros Hp Hsp. unfold check_level_progress. run_m.
  rewrite Hp. rewrite Hp. rewrite Hsp. reflexivity.
Qed.

Lemma advance_level_run (shape : string) (s : Session) (p : Progress) (sp : ShapeProgress) :
  progress s = Some p -> shapes p !! shape = Some sp ->
  advance_level shape s =
  (Ok (snd (advance_shape sp)),
   set_progress (set_shape shape (fst (advance_shape sp)) p) s).
Proof.
  intros Hp Hsp. unfold advance_level, advance_shape. run_m.
  rewrite Hp. rewrite Hp. rewrite Hsp.
  destruct (current_level sp); reflexivity.
Qed.

Lemma update_progress_run (shape : string) (level : Level) (is_correct : bool)
    (question_data : Question) (s : Session) (p : Progress) (sp : ShapeProgress) :
  progress s = Some p -> shapes p !! shape = Some sp ->
  update_progress shape level is_correct question_data s =
  (Ok (record_answer shape level is_correct question_data p sp),
   set_progress (record_answer shape level is_correct question_data p sp) s).
Proof.
  intros Hp Hsp. unfold update_progress. run_m.
  rewrite Hp. rewrite Hp. cbn [shapes]. rewrite Hsp. reflexivity.
Qed.

Lemma update_progress_missing (shape : string) (level : Level) (is_correct : bool)
    (question_data : Question) (s : Session) (p : Progress) :
  progress s = Some p -> shapes p !! shape = None ->
  update_progress shape level is_correct question_data s =
  (Raise KeyError, set_progress (count_attempt is_correct p) s).
Proof.
  intros Hp Hsp. unfold update_progress. run_m.
  rewrite Hp. rewrite Hp. cbn [shapes]. rewrite Hsp. reflexivity.
Qed.

(** The example session after four right answers and a fifth practice page. *)
Lemma fifth_round_facts :
  student_id fifth_round = Some "visitor"%string
  /\ progress fifth_round = Some fifth_progress
  /\ current_question fifth_round = Some square_question
  /\ shapes fifth_progress !! "square"%string = Some fifth_square.
Proof.
  split; [vm_compute; reflexivity|].
  split; [vm_compute; reflexivity|].
  split; vm_compute; reflexivity.
Qed.

(** ** Level advancement *)

Lemma next_level_order (level : Level) :
  LEVEL_ORDER !! S (level_index level) = next_level level.
Proof. destruct level; reflexivity. Qed.

Lemma get_set_level_eq (ls : Levels) (level : Level) (d : LevelData) :
  get_level (set_level ls level d) level = d.
Proof. destruct level; reflexivity. Qed.

Lemma get_set_level_ne (ls : Levels) (l1 l2 : Level) (d : LevelData) :
  l1 <> l2 -> get_level (set_level ls l1 d) l2 = get_level ls l2.
Proof. destruct l1, l2; intros H; try reflexivity; congruence. Qed.

(** C6. [advance_level] marks the shape's current level completed; below the
    last level it makes the next level of the order the current one and
    unlocks it, changing no other unlock flag and leaving [mastered] as it
    was; at the last level, expert, it sets [mastered] instead, with expert
    completed and no unlock flag changed. *)
Theorem advance_level_next_or_mastered
    (shape : string) (s : Session) (p : Progress) (sp : ShapeProgress) :
  progress s = Some p -> shapes p !! shape = Some sp ->
  exists r p' sp',
    advance_level shape s = (Ok r, set_progress p' s)
    /\ shapes p' !! shape = Some sp'
    /\ completed (get_level (levels sp') (current_level sp)) = true
    /\ match next_level (current_level sp) with
       | Some next =>
           current_level sp' = next
           /\ unlocked (get_level (levels sp') next) = true
           /\ (forall l, l <> next ->
                 unlocked (get_level (levels sp') l) = unlocked (get_level (levels sp) l))
           /\ mastered sp' = mastered sp
           /\ r = {| advanced := true; new_level := Some next; shape_mastered := false |}
       | None =>
           current_level sp = expert
           /\ current_level sp' = expert
           /\ mastered sp' = true
           /\ completed (get_level (levels sp') expert) = true
           /\ (forall l,
                 unlocked (get_level (levels sp') l) = unlocked (get_level (levels sp) l))
           /\ r = {| advanced := false; new_level := None; shape_mastered := true |}
       end.
Proof.
  intros Hp Hsp.
  exists (snd (advance_shape sp)), (set_shape shape (fst (advance_shape sp)) p),
    (fst (advance_shape sp)).
  split; [now apply advance_level_run|].
  split; [cbn [set_shape shapes]; apply lookup_insert_eq|].
  unfold advance_shape.
  destruct (current_level sp) eqn:Ecur; cbn;
    repeat split; try reflexivity; intros l; try intros Hl;
    destruct l; try reflexivity; congruence.
Qed.

Lemma advance_level_next_or_mastered_witness :
  progress fresh_session = Some initial_progress
  /\ shapes initial_progress !! "square"%string = Some create_shape_progress
  /\ exists r p' sp',
       advance_level "square" fresh_session = (Ok r, set_progress p' fresh_session)
       /\ shapes p' !! "square"%string = Some sp'
       /\ current_level sp' = intermediate.
Proof.
  assert (Hp : progress fresh_session = Some initial_progress)
    by (vm_compute; reflexivity).
  assert (Hsp : shapes initial_progress !! "square"%string = Some create_shape_progress)
    by (vm_compute; reflexivity).
  split; [exact Hp|]. split; [exact Hsp|].
  destruct (advance_level_next_or_mastered "square" fresh_session initial_progress
              create_shape_progress Hp Hsp) as (r & p' & sp' & Hrun & Hl & _ & Hnext).
  exists r, p', sp'. cbn in Hnext. tauto.
Defined.

(** ** Reset of one shape *)

(** C8. [reset_shape] replaces the progress of the named shape by the
    initial one (current level beginner; beginner unlocked with no attempts,
    no correct answers, not completed, no recorded questions; intermediate
    and expert locked; not mastered) and leaves every other shape, the three
    global counters and the history as they were. *)
Theorem reset_shape_frame
    (shape_name : string) (s : Session) (i : string) (p : Progress) (sp : ShapeProgress) :
  student_id s = Some i -> progress s = Some p -> shapes p !! shape_name = Some sp ->
  exists p',
    reset_shape shape_name s = (Redirect "practice", set_progress p' s)
    /\ shapes p' !! shape_name = Some create_shape_progress
    /\ (forall other, other <> shape_name -> shapes p' !! other = shapes p !! other)
    /\ total_attempts p' = total_attempts p
    /\ correct_answers p' = correct_answers p
    /\ wrong_answers p' = wrong_answers p
    /\ history p' = history p
    /\ current_level create_shape_progress = beginner
    /\ lv_beginner (levels create_shape_progress) =
         {| unlocked := true; attempts := 0; correct := 0; completed := false; questions := [] |}
    /\ unlocked (lv_intermediate (levels create_shape_progress)) = false
    /\ unlocked (lv_expert (levels create_shape_progress)) = false
    /\ mastered create_shape_progress = false.
Proof.
  intros Hid Hp Hsp.
  exists (set_shape shape_name create_shape_progress p).
  split.
  - unfold reset_shape, run_handler, require_session. run_m.
    rewrite Hid, Hp, Hp, Hsp. reflexivity.
  - cbn [set_shape shapes total_attempts correct_answers wrong_answers history].
    split; [apply lookup_insert_eq|].
    split; [intros other Hne; now apply lookup_insert_ne|].
    repeat split; reflexivity.
Qed.

Lemma reset_shape_frame_witness :
  attempts (lv_beginner (levels fifth_square)) = 4
  /\ (exists p',
        reset_shape "square" fifth_round = (Redirect "practice", set_progress p' fifth_round)
        /\ shapes p' !! "square"%string = Some create_shape_progress
        /\ shapes p' !! "circle"%string = shapes fifth_progress !! "circle"%string
        /\ total_attempts p' = 4
        /\ length (history p') = 4%nat)
  /\ (exists p',
        reset_shape "circle" fifth_round = (Redirect "practice", set_progress p' fifth_round)
        /\ shapes p' !! "circle"%string = Some create_shape_progress
        /\ shapes p' !! "square"%string = Some fifth_square).
Proof.
  destruct fifth_round_facts as (Hid & Hp & _ & Hsq).
  assert (Hci : shapes fifth_progress !! "circle"%string = Some create_shape_progress)
    by (vm_compute; reflexivity).
  split; [vm_compute; reflexivity|]. split.
  - destruct (reset_shape_frame "square" fifth_round "visitor" fifth_progress
                fifth_square Hid Hp Hsq)
      as (p' & Hrun & Hl & Hother & Htot & _ & _ & Hhist & _).
    exists p'. split; [exact Hrun|]. split; [exact Hl|].
    split; [apply Hother; discriminate|].
    split; [rewrite Htot | rewrite Hhist]; vm_compute; reflexivity.
  - destruct (reset_shape_frame "circle" fifth_round "visitor" fifth_progress
                create_shape_progress Hid Hp Hci)
      as (p' & Hrun & Hl & Hother & _).
    exists p'. split; [exact Hrun|]. split; [exact Hl|].
    rewrite Hother by discriminate. exact Hsq.
Defined.

(** ** The needs-help signal *)

Lemma struggling_iff (qs : list QuestionResult) :
  (length (recent_of qs) =? 3)%nat
  && forallb (fun q => negb (qr_correct q)) (recent_of qs) = true
  <-> last_three_incorrect qs.
Proof.
  unfold recent_of, last_three_incorrect. split.
  - destruct (3 <=? length qs)%nat eqn:Elen; [|discriminate].
    intros H. apply andb_true_iff in H as [Hlen Hall].
    apply Nat.eqb_eq in Hlen.
    exists (take (length qs - 3) qs).
    destruct (drop (length qs - 3) qs) as [|a [|b [|c [|d rest]]]] eqn:Edrop;
      try discriminate Hlen.
    exists a, b, c. cbn in Hall.
    rewrite <- Edrop, take_drop.
    repeat (apply andb_true_iff in Hall as [?%negb_true_iff Hall]).
    auto.
  - intros (older & a & b & c & -> & Ha & Hb & Hc).
    rewrite length_app. cbn [length].
    replace (3 <=? length older + 3)%nat with true
      by (symmetry; apply Nat.leb_le; lia).
    rewrite drop_app_length' by lia.
    cbn. now rewrite Ha, Hb, Hc.
Qed.

Lemma accuracy_of_enough (level_data : LevelData) (level : Level) :
  questions_required (LEVELS level) <= attempts level_data ->
  accuracy_of level_data =
  (inject_Z (correct level_data) / inject_Z (attempts level_data))%Q.
Proof.
  intros H. unfold accuracy_of.
  replace (0 <? attempts level_data) with true; [reflexivity|].
  symmetry. apply Z.ltb_lt. destruct level; cbn in H; lia.
Qed.

Lemma pass_threshold_above_help (level : Level) :
  (4 # 10 < pass_threshold (LEVELS level))%Q.
Proof. destruct level; reflexivity. Qed.

Lemma can_advance_iff (level_data : LevelData) (level : Level) :
  can_advance (level_status level_data (LEVELS level)) = true
  <-> questions_required (LEVELS level) <= attempts level_data
      /\ (pass_threshold (LEVELS level)
          <= inject_Z (correct level_data) / inject_Z (attempts level_data))%Q.
Proof.
  unfold level_status. cbn [can_advance].
  rewrite andb_true_iff, Z.leb_le, Qle_bool_iff. split.
  - intros [Hn Hacc]. split; [exact Hn|].
    now rewrite <- (accuracy_of_enough level_data level Hn).
  - intros [Hn Hacc]. split; [exact Hn|].
    now rewrite (accuracy_of_enough level_data level Hn).
Qed.

Lemma needs_help_iff (level_data : LevelData) (level : Level) :
  needs_help (level_status level_data (LEVELS level)) = true
  <-> (questions_required (LEVELS level) <= attempts level_data
       /\ (inject_Z (correct level_data) / inject_Z (attempts level_data) < 4 # 10)%Q)
      \/ last_three_incorrect (questions level_data).
Proof.
  unfold level_status. cbn [needs_help].
  rewrite orb_true_iff, struggling_iff.
  apply or_iff_compat_r.
  rewrite !andb_true_iff, Z.leb_le, negb_true_iff. unfold Qltb.
  rewrite negb_true_iff, !Qle_bool_false. split.
  - intros [[Hn _] Hlow]. split; [exact Hn|].
    now rewrite <- (accuracy_of_enough level_data level Hn).
  - intros [Hn Hlow]. rewrite (accuracy_of_enough level_data level Hn).
    repeat split; try assumption.
    apply Qlt_trans with (4 # 10)%Q; [exact Hlow | apply pass_threshold_above_help].
Qed.

(** ** Answer submission *)

Lemma read_user_answer_state (f : string -> option Q) (body : option json) (s : Session) :
  read_user_answer f body s = (fst (read_user_answer f body empty_session), s).
Proof.
  unfold read_user_answer, get_json, getitem, py_float. run_m.
  destruct body as [data|]; [|reflexivity].
  destruct data as [| | | | | |fields]; try reflexivity.
  destruct (assoc_last "user_answer" fields) as [v|]; [|reflexivity].
  destruct v as [|b|n|x|str| |]; try reflexivity.
  - destruct (float_overflows n); reflexivity.
  - destruct (f str); reflexivity.
Qed.

Lemma handler_with_session (m : M Response) (s : Session) (i : string) :
  student_id s = Some i ->
  run_handler (require_session m) s = run_handler m s.
Proof.
  intros Hid. unfold run_handler, require_session.
  cbv beta iota delta [bind get]. now rewrite Hid.
Qed.

Lemma handler_without_session (m : M Response) (s : Session) :
  student_id s = None ->
  run_handler (require_session m) s = (Redirect "index", s).
Proof.
  intros Hid. unfold run_handler, require_session.
  cbv beta iota delta [bind get]. now rewrite Hid.
Qed.

Section SubmitOk.

Variable f : string -> option Q.
Variables (body : option json) (s : Session) (i : string) (p : Progress).
Variables (q : Question) (sp : ShapeProgress) (x : Q).

Hypothesis Hid : student_id s = Some i.
Hypothesis Hp : progress s = Some p.
Hypothesis Hq : current_question s = Some q.
Hypothesis Hsp : shapes p !! q_shape q = Some sp.
Hypothesis Hx : read_user_answer f body s = (Ok x, s).

Let ic := is_correct_of (answer_error x (q_correct_answer q)).
Let q' := with_user_answer q x.
Let sp2 := record_in_shape (q_level q) ic q' sp.
Let p2 := record_answer (q_shape q) (q_level q) ic q' p sp.
Let st := level_status (get_level (levels sp2) (q_level q)) (LEVELS (q_level q)).
Let fires := ic && can_advance st.

Lemma submit_answer_ok :
  exists resp,
    submit_answer f body s =
    (JsonSubmit resp,
     set_progress
       (if fires then set_shape (q_shape q) (fst (advance_shape sp2)) p2 else p2)
       (set_current_question (Some q') s))
    /\ r_is_correct resp = ic
    /\ r_is_close resp = is_close_of (answer_error x (q_correct_answer q))
    /\ r_level_status resp = st
    /\ r_level_up resp = (if fires then Some (snd (advance_shape sp2)) else None)
    /\ r_total_attempts resp = total_attempts p + 1.
Proof.
  assert (Hp2 : shapes p2 !! q_shape q = Some sp2).
  { subst p2. unfold record_answer. cbn [shapes]. apply lookup_insert_eq. }
  unfold submit_answer, run_handler, submit_answer_m, require_session, try_except.
  cbv beta iota delta [bind get]. rewrite Hid.
  cbv beta iota delta [bind get]. rewrite Hx, Hq.
  cbv beta iota delta [bind modify].
  erewrite update_progress_run; [|cbn [set_current_question progress]; exact Hp|exact Hsp].
  erewrite check_level_progress_run; [|reflexivity|exact Hp2].
  fold ic q' sp2 p2 st. subst fires.
  destruct ic.
  - destruct (can_advance st) eqn:Eadv.
    + cbv beta iota delta [bind].
      erewrite advance_level_run; [|reflexivity|exact Hp2].
      cbv beta iota delta [ret]. eexists. split; [reflexivity|].
      cbn. repeat split; reflexivity.
    + cbv beta iota delta [bind ret]. eexists. split; [reflexivity|].
      cbn. repeat split; reflexivity.
  - cbn [andb].
    destruct (is_close_of (answer_error x (q_correct_answer q)));
      [|destruct (needs_help st)];
      cbv beta iota delta [bind ret]; (eexists; split; [reflexivity|]);
      cbn; repeat split; reflexivity.
Qed.

End SubmitOk.

Lemma advance_shape_counts (sp : ShapeProgress) (level : Level) :
  attempts (get_level (levels (fst (advance_shape sp))) level)
  = attempts (get_level (levels sp) level)
  /\ correct (get_level (levels (fst (advance_shape sp))) level)
     = correct (get_level (levels sp) level).
Proof.
  unfold advance_shape. destruct (current_level sp), level; split; reflexivity.
Qed.

Lemma advance_shape_completed (sp : ShapeProgress) :
  completed (get_level (levels (fst (advance_shape sp))) (current_level sp)) = true.
Proof. unfold advance_shape. destruct (current_level sp); reflexivity. Qed.

Lemma record_in_shape_progression (level : Level) (is_correct : bool)
    (question_data : Question) (sp : ShapeProgress) :
  progression_state (record_in_shape level is_correct question_data sp)
  = progression_state sp.
Proof. destruct level; reflexivity. Qed.





(** After that wrong fifth answer the square is still at the beginner
    level, which is not marked completed. *)
Example wrong_fifth_answer_leaves_level :
  let out := submit_answer reject_strings (answer_body 100) fifth_round in
  progression_state <$> (progress (snd out) ≫= fun p => shapes p !! "square"%string)
  = Some (beginner, false, (true, false, false), (false, false, false)).
Proof. vm_compute. reflexivity. Qed.

(** ** A question stays pending after it is answered *)

Lemma record_in_shape_counts (level : Level) (is_correct : bool) (question_data : Question)
    (sp : ShapeProgress) :
  attempts (get_level (levels (record_in_shape level is_correct question_data sp)) level)
  = attempts (get_level (levels sp) level) + 1.
Proof.
  unfold record_in_shape. cbn [levels]. rewrite get_set_level_eq. reflexivity.
Qed.

Lemma submit_answer_step
    (f : string -> option Q) (body : option json) (s : Session) (i : string)
    (p : Progress) (q : Question) (sp : ShapeProgress) (x : Q) :
  student_id s = Some i ->
  progress s = Some p ->
  current_question s = Some q ->
  shapes p !! q_shape q = Some sp ->
  read_user_answer f body s = (Ok x, s) ->
  exists resp p' sp',
    submit_answer f body s =
    (JsonSubmit resp, set_progress p' (set_current_question (Some (with_user_answer q x)) s))
    /\ shapes p' !! q_shape q = Some sp'
    /\ total_attempts p' = total_attempts p + 1
    /\ attempts (get_level (levels sp') (q_level q))
       = attempts (get_level (levels sp) (q_level q)) + 1.
Proof.
  intros Hid Hp Hq Hsp Hx.
  destruct (submit_answer_ok f body s i p q sp x Hid Hp Hq Hsp Hx) as (resp & Hrun & _).
  set (ic := is_correct_of (answer_error x (q_correct_answer q))) in *.
  set (q' := with_user_answer q x) in *.
  set (sp2 := record_in_shape (q_level q) ic q' sp) in *.
  destruct (ic && can_advance _) in Hrun.
  - exists resp, (set_shape (q_shape q) (fst (advance_shape sp2))
                    (record_answer (q_shape q) (q_level q) ic q' p sp)),
      (fst (advance_shape sp2)).
    split; [exact Hrun|]. split; [cbn [set_shape shapes]; apply lookup_insert_eq|].
    split; [reflexivity|].
    destruct (advance_shape_counts sp2 (q_level q)) as [-> _].
    apply record_in_shape_counts.
  - exists resp, (record_answer (q_shape q) (q_level q) ic q' p sp), sp2.
    split; [exact Hrun|].
    split; [unfold record_answer; cbn [shapes]; apply lookup_insert_eq|].
    split; [reflexivity|]. apply record_in_shape_counts.
Qed.

(** The rejection that does exist: with no question in the session, a
    numeric answer is answered 400 and nothing changes. *)
Lemma submit_answer_no_question
    (f : string -> option Q) (body : option json) (s : Session) (i : string) (x : Q) :
  student_id s = Some i ->
  current_question s = None ->
  read_user_answer f body s = (Ok x, s) ->
  submit_answer f body s = (JsonError 400 NoActiveQuestion, s).
Proof.
  intros Hid Hq Hx.
  unfold submit_answer, run_handler, submit_answer_m, require_session, try_except.
  cbv beta iota delta [bind get]. rewrite Hid.
  cbv beta iota delta [bind get]. rewrite Hx, Hq. reflexivity.
Qed.

(** *** Error responses of the submission *)

Lemma submit_answer_unreadable
    (f : string -> option Q) (body : option json) (s : Session) (i : string) (e : exn) :
  student_id s = Some i ->
  fst (read_user_answer f body empty_session) = Raise e ->
  submit_answer f body s =
  (match e with
   | ValueError => JsonError 400 InvalidNumber
   | _ => JsonError 500 (Unexpected e)
   end, s).
Proof.
  intros Hid He.
  unfold submit_answer, run_handler, submit_answer_m, require_session, try_except.
  cbv beta iota delta [bind get]. rewrite Hid.
  cbv beta iota delta [bind get]. rewrite read_user_answer_state, He.
  destruct e; reflexivity.
Qed.

(** A string that [float()] rejects is answered 400. *)
Lemma submit_answer_non_numeric
    (f : string -> option Q) (fields : list (string * json)) (str : string)
    (s : Session) (i : string) :
  student_id s = Some i ->
  assoc_last "user_answer" fields = Some (JStr str) ->
  f str = None ->
  submit_answer f (Some (JObj fields)) s = (JsonError 400 InvalidNumber, s).
Proof.
  intros Hid Hv Hf.
  apply (submit_answer_unreadable f (Some (JObj fields)) s i ValueError Hid).
  unfold read_user_answer, get_json, getitem, py_float. run_m.
  now rewrite Hv, Hf.
Qed.

(** A body without the key, or with a null answer, is answered 500. *)
Lemma submit_answer_missing
    (f : string -> option Q) (fields : list (string * json)) (s : Session) (i : string) :
  student_id s = Some i ->
  assoc_last "user_answer" fields = None
  \/ assoc_last "user_answer" fields = Some JNull ->
  status (fst (submit_answer f (Some (JObj fields)) s)) = 500.
Proof.
  intros Hid [Hv | Hv].
  - rewrite (submit_answer_unreadable f (Some (JObj fields)) s i KeyError Hid);
      [reflexivity|].
    unfold read_user_answer, get_json, getitem, py_float. run_m. now rewrite Hv.
  - rewrite (submit_answer_unreadable f (Some (JObj fields)) s i TypeError Hid);
      [reflexivity|].
    unfold read_user_answer, get_json, getitem, py_float. run_m. now rewrite Hv.
Qed.

(** C2. The code at the failing inputs: with a question pending, a body
    that lacks [user_answer] and a body whose [user_answer] is null are both
    answered 500, not 400; so is a missing answer when no question is
    pending.  A non-numeric string is answered 400. *)
Theorem missing_answer_is_answered_500 :
  submit_answer reject_strings (Some (JObj [])) fifth_round
  = (JsonError 500 (Unexpected KeyError), fifth_round)
  /\ submit_answer reject_strings (Some (JObj [("user_answer"%string, JNull)])) fifth_round
     = (JsonError 500 (Unexpected TypeError), fifth_round)
  /\ submit_answer reject_strings (Some (JObj [])) fresh_session
     = (JsonError 500 (Unexpected KeyError), fresh_session)
  /\ submit_answer reject_strings (Some (JObj [("user_answer"%string, JStr "abc")])) fifth_round
     = (JsonError 400 InvalidNumber, fifth_round).
Proof.
  split; [vm_compute; reflexivity|].
  split; [vm_compute; reflexivity|].
  split; vm_compute; reflexivity.
Qed.

(** *** Every path of the submission *)

Lemma update_progress_init (shape : string) (level : Level) (is_correct : bool)
    (question_data : Question) (s : Session) :
  progress s = None ->
  update_progress shape level is_correct question_data s
  = update_progress shape level is_correct question_data (set_progress initial_progress s).
Proof.
  intros Hp. unfold update_progress. rewrite exec_init_idem.
  now rewrite (init_progress_absent s Hp).
Qed.

(** A session without a progress record is answered as one holding the
    initial record. *)
Lemma submit_answer_init
    (f : string -> option Q) (body : option json) (s : Session) (i : string)
    (q : Question) (x : Q) :
  student_id s = Some i ->
  progress s = None ->
  current_question s = Some q ->
  read_user_answer f body s = (Ok x, s) ->
  submit_answer f body s = submit_answer f body (set_progress initial_progress s).
Proof.
  intros Hid Hp Hq Hx.
  assert (Hx' : read_user_answer f body (set_progress initial_progress s)
                = (Ok x, set_progress initial_progress s)).
  { rewrite read_user_answer_state in Hx. injection Hx as Hx.
    rewrite read_user_answer_state. now rewrite Hx. }
  unfold submit_answer, run_handler, submit_answer_m, require_session, try_except.
  cbv beta iota delta [bind get]. cbn [set_progress student_id]. rewrite Hid.
  cbv beta iota delta [bind get]. rewrite Hx, Hx'.
  cbn [set_progress current_question]. rewrite Hq.
  cbv beta iota delta [bind modify].
  rewrite update_progress_init by exact Hp.
  reflexivity.
Qed.

(** With a question in the session a readable answer is never rejected as
    [NoActiveQuestion], and the question stays, with the answer written
    into it, also when recording the answer fails. *)
Lemma submit_answer_with_question
    (f : string -> option Q) (body : option json) (s : Session) (i : string)
    (q : Question) (x : Q) :
  student_id s = Some i ->
  current_question s = Some q ->
  read_user_answer f body s = (Ok x, s) ->
  current_question (snd (submit_answer f body s)) = Some (with_user_answer q x)
  /\ fst (submit_answer f body s) <> JsonError 400 NoActiveQuestion.
Proof.
  assert (Hsome : forall s p,
            student_id s = Some i -> progress s = Some p ->
            current_question s = Some q -> read_user_answer f body s = (Ok x, s) ->
            current_question (snd (submit_answer f body s)) = Some (with_user_answer q x)
            /\ fst (submit_answer f body s) <> JsonError 400 NoActiveQuestion).
  { clear s. intros s p Hid Hp Hq Hx.
    destruct (shapes p !! q_shape q) as [sp|] eqn:Hsp.
    - destruct (submit_answer_ok f body s i p q sp x Hid Hp Hq Hsp Hx) as (resp & Hrun & _).
      rewrite Hrun. split; [reflexivity | discriminate].
    - unfold submit_answer, run_handler, submit_answer_m, require_session, try_except.
      cbv beta iota delta [bind get]. rewrite Hid.
      cbv beta iota delta [bind get]. rewrite Hx, Hq.
      cbv beta iota delta [bind modify].
      erewrite update_progress_missing;
        [|cbn [set_current_question progress]; exact Hp|exact Hsp].
      split; [reflexivity | discriminate]. }
  intros Hid Hq Hx.
  destruct (progress s) as [p|] eqn:Hp.
  - exact (Hsome s p Hid Hp Hq Hx).
  - rewrite (submit_answer_init f body s i q x Hid Hp Hq Hx).
    apply (Hsome (set_progress initial_progress s) initial_progress Hid eq_refl Hq).
    rewrite read_user_answer_state in Hx. injection Hx as Hx.
    rewrite read_user_answer_state. now rewrite Hx.
Qed.

(** No path of [submit_answer] removes the question from the session. *)
Lemma submit_answer_keeps_question
    (f : string -> option Q) (body : option json) (s : Session) (q : Question) :
  current_question s = Some q ->
  exists q',
    current_question (snd (submit_answer f body s)) = Some q'
    /\ (q' = q \/ exists x, q' = with_user_answer q x).
Proof.
  intros Hq.
  destruct (student_id s) as [i|] eqn:Hid.
  2: { exists q. split; [|now left].
       unfold submit_answer, submit_answer_m.
       now rewrite (handler_without_session _ s Hid). }
  destruct (fst (read_user_answer f body empty_session)) as [x|e] eqn:Hx.
  2: { exists q. split; [|now left].
       now rewrite (submit_answer_unreadable f body s i e Hid Hx). }
  assert (Hx' : read_user_answer f body s = (Ok x, s))
    by (rewrite read_user_answer_state; now rewrite Hx).
  exists (with_user_answer q x).
  split; [exact (proj1 (submit_answer_with_question f body s i q x Hid Hq Hx'))|].
  right. now exists x.
Qed.

(** [NoActiveQuestion] is the answer exactly to a readable submission of an
    identified visitor whose session holds no question. *)
Lemma no_active_question_iff
    (f : string -> option Q) (body : option json) (s : Session) :
  fst (submit_answer f body s) = JsonError 400 NoActiveQuestion
  <-> is_Some (student_id s)
      /\ (exists x, read_user_answer f body s = (Ok x, s))
      /\ current_question s = None.
Proof.
  split.
  - intros H.
    destruct (student_id s) as [i|] eqn:Hid.
    2: { unfold submit_answer, submit_answer_m in H.
         rewrite (handler_without_session _ s Hid) in H. discriminate H. }
    destruct (fst (read_user_answer f body empty_session)) as [x|e] eqn:Hx.
    2: { rewrite (submit_answer_unreadable f body s i e Hid Hx) in H.
         destruct e; discriminate H. }
    assert (Hx' : read_user_answer f body s = (Ok x, s))
      by (rewrite read_user_answer_state; now rewrite Hx).
    destruct (current_question s) as [q|] eqn:Hq.
    { now destruct (submit_answer_with_question f body s i q x Hid Hq Hx') as [_ Hne]. }
    split; [now exists i|]. split; [now exists x | reflexivity].
  - intros ([i Hid] & [x Hx] & Hq).
    now rewrite (submit_answer_no_question f body s i x Hid Hq Hx).
Qed.

(** C3, as the code has it.  [submit_answer] leaves the answered question in
    the session, with the user's answer written into it; a second submission
    made without generating a new question is therefore evaluated like the
    first: it answers 200 and increments the global and the level attempt
    counters a second time.  No path of [submit_answer] clears the
    question, whatever the body and the session; and [NoActiveQuestion] is
    the answer exactly when an identified visitor sends a readable answer
    and the session holds no question. *)
Theorem answered_question_stays_pending
    (f : string -> option Q) (body body2 : option json) (s : Session) (i : string)
    (p : Progress) (q : Question) (sp : ShapeProgress) (x x2 : Q) :
  student_id s = Some i ->
  progress s = Some p ->
  current_question s = Some q ->
  shapes p !! q_shape q = Some sp ->
  read_user_answer f body s = (Ok x, s) ->
  read_user_answer f body2 s = (Ok x2, s) ->
  let first := submit_answer f body s in
  let second := submit_answer f body2 (snd first) in
  status (fst first) = 200
  /\ current_question (snd first) = Some (with_user_answer q x)
  /\ status (fst second) = 200
  /\ current_question (snd second) = Some (with_user_answer q x2)
  /\ (exists p'' sp'',
        progress (snd second) = Some p''
        /\ shapes p'' !! q_shape q = Some sp''
        /\ total_attempts p'' = total_attempts p + 2
        /\ attempts (get_level (levels sp'') (q_level q))
           = attempts (get_level (levels sp) (q_level q)) + 2)
  /\ (forall (any : option json) (t : Session) (q0 : Question),
        current_question t = Some q0 ->
        exists q1,
          current_question (snd (submit_answer f any t)) = Some q1
          /\ (q1 = q0 \/ exists y, q1 = with_user_answer q0 y))
  /\ (forall (any : option json) (t : Session),
        fst (submit_answer f any t) = JsonError 400 NoActiveQuestion
        <-> is_Some (student_id t)
            /\ (exists y, read_user_answer f any t = (Ok y, t))
            /\ current_question t = None).
Proof.
  intros Hid Hp Hq Hsp Hx Hx2 first second.
  destruct (submit_answer_step f body s i p q sp x Hid Hp Hq Hsp Hx)
    as (resp & p' & sp' & Hrun & Hsp' & Htot & Hatt).
  subst second first. rewrite Hrun. cbn [fst snd].
  set (s1 := set_progress p' (set_current_question (Some (with_user_answer q x)) s)).
  assert (Hx2' : read_user_answer f body2 s1 = (Ok x2, s1)).
  { rewrite read_user_answer_state in Hx2. injection Hx2 as Hx2.
    rewrite read_user_answer_state. now rewrite Hx2. }
  destruct (submit_answer_step f body2 s1 i p' (with_user_answer q x) sp' x2
              Hid eq_refl eq_refl Hsp' Hx2')
    as (resp2 & p'' & sp'' & Hrun2 & Hsp'' & Htot2 & Hatt2).
  rewrite Hrun2. cbn [fst snd status set_progress set_current_question
                      current_question progress].
  split; [reflexivity|]. split; [reflexivity|].
  split; [reflexivity|]. split; [reflexivity|].
  split.
  { exists p'', sp''. split; [reflexivity|]. split; [exact Hsp''|].
    cbn [with_user_answer q_level] in Hatt2. split; lia. }
  split.
  - intros any t q0. apply submit_answer_keeps_question.
  - intros any t. apply no_active_question_iff.
Qed.

Lemma answered_question_stays_pending_witness :
  let first := submit_answer reject_strings (answer_body 100) fifth_round in
  let second := submit_answer reject_strings (answer_body 16) (snd first) in
  status (fst first) = 200 /\ status (fst second) = 200
  /\ current_question (snd second) = Some (with_user_answer square_question 16)
  /\ exists p'' sp'',
       progress (snd second) = Some p''
       /\ shapes p'' !! "square"%string = Some sp''
       /\ total_attempts p'' = total_attempts fifth_progress + 2.
Proof.
  intros first second.
  destruct fifth_round_facts as (Hid & Hp & Hq & Hsp).
  assert (Hx : read_user_answer reject_strings (answer_body 100) fifth_round
               = (Ok 100%Q, fifth_round)) by (vm_compute; reflexivity).
  assert (Hx2 : read_user_answer reject_strings (answer_body 16) fifth_round
                = (Ok 16%Q, fifth_round)) by (vm_compute; reflexivity).
  destruct (answered_question_stays_pending
              reject_strings (answer_body 100) (answer_body 16) fifth_round "visitor"
              fifth_progress square_question fifth_square 100 16 Hid Hp Hq Hsp Hx Hx2)
    as (H1 & _ & H2 & H3 & (p'' & sp'' & Hp'' & Hsp'' & Htot & _) & _).
  split; [exact H1|]. split; [exact H2|]. split; [exact H3|].
  exists p'', sp''. auto.
Defined.

(** C3 as stated fails: the second submission of the same question is not
    answered 400 and the session's progress does not stay as the first
    submission left it. *)
Lemma second_submission_is_processed :
  let first := submit_answer reject_strings (answer_body 16) (practise_square fresh_session) in
  let second := submit_answer reject_strings (answer_body 16) (snd first) in
  ~ (status (fst second) = 400 \/ progress (snd second) = progress (snd first)).
Proof.
  intros first second.
  assert (E : status (fst second) = 200) by (vm_compute; reflexivity).
  assert (E1 : total_attempts <$> progress (snd first) = Some 1)
    by (vm_compute; reflexivity).
  assert (E2 : total_attempts <$> progress (snd second) = Some 2)
    by (vm_compute; reflexivity).
  intros [H | H].
  - rewrite E in H. discriminate H.
  - rewrite H, E1 in E2. discriminate E2.
Qed.

(** ** The needs-help signal leaves the progression alone *)

Lemma submit_answer_inv
    (f : string -> option Q) (body : option json) (s s' : Session)
    (p : Progress) (resp : SubmitResponse) :
  progress s = Some p ->
  submit_answer f body s = (JsonSubmit resp, s') ->
  exists i q x sp,
    student_id s = Some i /\ current_question s = Some q
    /\ shapes p !! q_shape q = Some sp
    /\ read_user_answer f body s = (Ok x, s).
Proof.
  intros Hp Hrun.
  destruct (student_id s) as [i|] eqn:Hid.
  2: { unfold submit_answer, run_handler, submit_answer_m, require_session in Hrun.
       cbv beta iota delta [bind get] in Hrun. rewrite Hid in Hrun.
       cbv beta iota delta [ret] in Hrun. discriminate Hrun. }
  destruct (fst (read_user_answer f body empty_session)) as [x|e] eqn:Hx.
  2: { rewrite (submit_answer_unreadable f body s i e Hid Hx) in Hrun.
       destruct e; discriminate Hrun. }
  assert (Hx' : read_user_answer f body s = (Ok x, s))
    by (rewrite read_user_answer_state; now rewrite Hx).
  destruct (current_question s) as [q|] eqn:Hq.
  2: { rewrite (submit_answer_no_question f body s i x Hid Hq Hx') in Hrun.
       discriminate Hrun. }
  destruct (shapes p !! q_shape q) as [sp|] eqn:Hsp.
  { exists i, q, x, sp. auto. }
  exfalso. revert Hrun.
  unfold submit_answer, run_handler, submit_answer_m, require_session, try_except.
  cbv beta iota delta [bind get]. rewrite Hid.
  cbv beta iota delta [bind get]. rewrite Hx', Hq.
  cbv beta iota delta [bind modify].
  erewrite update_progress_missing;
    [|cbn [set_current_question progress]; exact Hp|exact Hsp].
  discriminate.
Qed.

Lemma submit_incorrect_progression
    (f : string -> option Q) (body : option json) (s s' : Session)
    (p : Progress) (resp : SubmitResponse) :
  progress s = Some p ->
  submit_answer f body s = (JsonSubmit resp, s') ->
  r_is_correct resp = false ->
  exists p',
    progress s' = Some p'
    /\ forall shape,
         progression_state <$> (shapes p' !! shape)
         = progression_state <$> (shapes p !! shape).
Proof.
  intros Hp Hrun Hwrong.
  destruct (submit_answer_inv f body s s' p resp Hp Hrun)
    as (i & q & x & sp & Hid & Hq & Hsp & Hx).
  destruct (submit_answer_ok f body s i p q sp x Hid Hp Hq Hsp Hx)
    as (resp0 & Hrun0 & Hic & _).
  rewrite Hrun in Hrun0. injection Hrun0 as <- ->.
  rewrite <- Hic, Hwrong. cbn [andb set_progress progress].
  eexists. split; [reflexivity|].
  intros shape. unfold record_answer. cbn [shapes count_attempt].
  destruct (decide (q_shape q = shape)) as [<-|Hne].
  - rewrite lookup_insert_eq, Hsp. cbn [fmap option_fmap option_map].
    now rewrite record_in_shape_progression.
  - now rewrite lookup_insert_ne.
Qed.

(** C7. For the level data of a (shape, level), [check_level_progress]
    returns [needs_help] true exactly when the attempt count is met with
    accuracy below 0.4, or the last three recorded answers are all
    incorrect; the second alone suffices, whatever the accuracy.  Computing
    the signal leaves the session as it was, and a submission whose answer
    is not correct, the only kind for which the signal is consulted, leaves
    the current level, the mastery flag and the unlock and completion flags
    of every shape unchanged. *)
Theorem needs_help_signal
    (f : string -> option Q) (shape : string) (level : Level)
    (s : Session) (p : Progress) (sp : ShapeProgress) :
  progress s = Some p -> shapes p !! shape = Some sp ->
  let level_data := get_level (levels sp) level in
  exists st,
    check_level_progress shape level s = (Ok st, s)
    /\ (needs_help st = true
        <-> (questions_required (LEVELS level) <= attempts level_data
             /\ (inject_Z (correct level_data) / inject_Z (attempts level_data) < 4 # 10)%Q)
            \/ last_three_incorrect (questions level_data))
    /\ (last_three_incorrect (questions level_data) -> needs_help st = true)
    /\ (forall body resp s',
          submit_answer f body s = (JsonSubmit resp, s') ->
          r_is_correct resp = false ->
          exists p',
            progress s' = Some p'
            /\ forall shape',
                 progression_state <$> (shapes p' !! shape')
                 = progression_state <$> (shapes p !! shape')).
Proof.
  intros Hp Hsp level_data.
  exists (level_status level_data (LEVELS level)).
  split; [exact (check_level_progress_run shape level s p sp Hp Hsp)|].
  split; [apply needs_help_iff|].
  split.
  - intros H. apply needs_help_iff. now right.
  - intros body resp s'. exact (submit_incorrect_progression f body s s' p resp Hp).
Qed.

Lemma needs_help_signal_witness :
  exists st,
    check_level_progress "square" beginner three_wrong = (Ok st, three_wrong)
    /\ needs_help st = true.
Proof.
  assert (Hp : progress three_wrong = Some three_wrong_progress)
    by (vm_compute; reflexivity).
  assert (Hsp : shapes three_wrong_progress !! "square"%string = Some three_wrong_square)
    by (vm_compute; reflexivity).
  destruct (needs_help_signal reject_strings "square" beginner three_wrong
              three_wrong_progress three_wrong_square Hp Hsp)
    as (st & Hrun & _ & Hlast & _).
  exists st. split; [exact Hrun|]. apply Hlast.
  vm_compute. eexists [], _, _, _. split; [reflexivity|]. repeat split.
Defined.

(** ** The invariant [correct <= attempts] *)

Lemma create_shape_progress_ok : shape_ok create_shape_progress.
Proof. intros level. destruct level; cbn; lia. Qed.

Lemma progress_inv_initial : progress_inv initial_progress.
Proof.
  intros shape sp. unfold initial_progress. cbn [shapes].
  rewrite !lookup_insert_Some, lookup_empty.
  intros H.
  repeat (destruct H as [[_ H] | [_ H]]; [subst sp; apply create_shape_progress_ok|]).
  discriminate H.
Qed.

Lemma progress_inv_set_shape (shape : string) (sp : ShapeProgress) (p : Progress) :
  progress_inv p -> shape_ok sp -> progress_inv (set_shape shape sp p).
Proof.
  intros Hp Hsp shape' sp'. cbn [set_shape shapes].
  rewrite lookup_insert_Some. intros [[_ <-] | [_ H]]; [exact Hsp|].
  exact (Hp shape' sp' H).
Qed.

Lemma progress_inv_count_attempt (is_correct : bool) (p : Progress) :
  progress_inv p -> progress_inv (count_attempt is_correct p).
Proof. intros Hp shape sp H. exact (Hp shape sp H). Qed.

Lemma record_in_shape_ok (level : Level) (is_correct : bool) (question_data : Question)
    (sp : ShapeProgress) :
  shape_ok sp -> shape_ok (record_in_shape level is_correct question_data sp).
Proof.
  intros Hsp l. unfold record_in_shape. cbn [levels].
  destruct (decide (level = l)) as [<-|Hne].
  - rewrite get_set_level_eq. cbn [record_in_level correct attempts].
    specialize (Hsp level). destruct is_correct; lia.
  - rewrite get_set_level_ne by exact Hne. apply Hsp.
Qed.

Lemma progress_inv_record_answer (shape : string) (level : Level) (is_correct : bool)
    (question_data : Question) (p : Progress) (sp : ShapeProgress) :
  progress_inv p -> shapes p !! shape = Some sp ->
  progress_inv (record_answer shape level is_correct question_data p sp).
Proof.
  intros Hp Hsp shape' sp'. unfold record_answer. cbn [shapes count_attempt].
  rewrite lookup_insert_Some. intros [[_ <-] | [_ H]].
  - apply record_in_shape_ok. exact (Hp shape sp Hsp).
  - exact (Hp shape' sp' H).
Qed.

Lemma advance_shape_ok (sp : ShapeProgress) :
  shape_ok sp -> shape_ok (fst (advance_shape sp)).
Proof.
  intros Hsp l. destruct (advance_shape_counts sp l) as [-> ->]. apply Hsp.
Qed.

Lemma session_inv_set_progress (p : Progress) (s : Session) :
  progress_inv p -> session_inv (set_progress p s).
Proof. intros Hp p' [= <-]. exact Hp. Qed.

Lemma session_inv_same (s s' : Session) :
  progress s' = progress s -> session_inv s -> session_inv s'.
Proof. intros E H p Hp. apply H. now rewrite <- E. Qed.

Lemma session_inv_empty : session_inv empty_session.
Proof. intros p [=]. Qed.

(** *** The monadic operations keep the invariant *)

Lemma keeps_ret {A} (a : A) : keeps (ret a).
Proof. intros s H. exact H. Qed.

Lemma keeps_raise {A} (e : exn) : keeps (@raise A e).
Proof. intros s H. exact H. Qed.

Lemma keeps_get : keeps get.
Proof. intros s H. exact H. Qed.

Lemma keeps_bind {A B} (m : M A) (k : A -> M B) :
  keeps m -> (forall a, keeps (k a)) -> keeps (bind m k).
Proof.
  intros Hm Hk s H. unfold bind. specialize (Hm s H).
  destruct (m s) as [[a|e] s1]; cbn [snd] in *; [now apply Hk | exact Hm].
Qed.

Lemma keeps_modify (g : Session -> Session) :
  (forall s, progress (g s) = progress s) -> keeps (modify g).
Proof. intros Hg s H. cbn. exact (session_inv_same s (g s) (Hg s) H). Qed.

Lemma init_progress_inv (s : Session) (p : Progress) :
  session_inv s -> init_progress s = (Ok tt, set_progress p s) ->
  progress s = Some p \/ progress s = None /\ p = initial_progress ->
  progress_inv p.
Proof.
  intros H _ [Hp | [_ ->]]; [exact (H p Hp) | apply progress_inv_initial].
Qed.

Lemma keeps_init_progress : keeps init_progress.
Proof.
  intros s H. destruct (init_progress_result s) as (p & Hrun & Hcase).
  rewrite Hrun. cbn [snd]. apply session_inv_set_progress.
  exact (init_progress_inv s p H Hrun Hcase).
Qed.

Lemma keeps_session_progress : keeps session_progress.
Proof.
  intros s H. unfold session_progress. run_m. destruct (progress s); exact H.
Qed.

Lemma keeps_shape_of (p : Progress) (shape : string) : keeps (shape_of p shape).
Proof. unfold shape_of. destruct (shapes p !! shape); [apply keeps_ret | apply keeps_raise]. Qed.

Lemma keeps_check_level_progress (shape : string) (level : Level) :
  keeps (check_level_progress shape level).
Proof.
  unfold check_level_progress.
  apply keeps_bind; [apply keeps_init_progress|]. intros _.
  apply keeps_bind; [apply keeps_session_progress|]. intros p.
  apply keeps_bind; [apply keeps_shape_of|]. intros sp. apply keeps_ret.
Qed.

Lemma advance_level_missing (shape : string) (s : Session) (p : Progress) :
  progress s = Some p -> shapes p !! shape = None ->
  advance_level shape s = (Raise KeyError, s).
Proof.
  intros Hp Hsp. unfold advance_level. run_m. rewrite Hp, Hp, Hsp. reflexivity.
Qed.

Lemma keeps_advance_level (shape : string) : keeps (advance_level shape).
Proof.
  intros s H.
  destruct (init_progress_result s) as (p & Hrun & Hcase).
  pose proof (init_progress_inv s p H Hrun Hcase) as Hp.
  assert (E : advance_level shape s = advance_level shape (set_progress p s)).
  { unfold advance_level. rewrite exec_init_idem, Hrun. reflexivity. }
  rewrite E.
  destruct (shapes p !! shape) as [sp|] eqn:Hsp.
  - rewrite (advance_level_run shape (set_progress p s) p sp eq_refl Hsp). cbn [snd].
    apply session_inv_set_progress, progress_inv_set_shape; [exact Hp|].
    apply advance_shape_ok. exact (Hp shape sp Hsp).
  - rewrite (advance_level_missing shape (set_progress p s) p eq_refl Hsp). cbn [snd].
    now apply session_inv_set_progress.
Qed.

Lemma keeps_update_progress (shape : string) (level : Level) (is_correct : bool)
    (question_data : Question) :
  keeps (update_progress shape level is_correct question_data).
Proof.
  intros s H.
  destruct (init_progress_result s) as (p & Hrun & Hcase).
  pose proof (init_progress_inv s p H Hrun Hcase) as Hp.
  assert (E : update_progress shape level is_correct question_data s
              = update_progress shape level is_correct question_data (set_progress p s)).
  { unfold update_progress. rewrite exec_init_idem, Hrun. reflexivity. }
  rewrite E.
  destruct (shapes p !! shape) as [sp|] eqn:Hsp.
  - rewrite (update_progress_run shape level is_correct question_data
               (set_progress p s) p sp eq_refl Hsp). cbn [snd].
    apply session_inv_set_progress. now apply progress_inv_record_answer.
  - rewrite (update_progress_missing shape level is_correct question_data
               (set_progress p s) p eq_refl Hsp). cbn [snd].
    apply session_inv_set_progress. now apply progress_inv_count_attempt.
Qed.

(** *** The handlers keep the invariant *)

Lemma keeps_read_user_answer (f : string -> option Q) (body : option json) :
  keeps (read_user_answer f body).
Proof. intros s H. now rewrite read_user_answer_state. Qed.

Lemma keeps_require_session (m : M Response) : keeps m -> keeps (require_session m).
Proof.
  intros Hm. unfold require_session.
  apply keeps_bind; [apply keeps_get|]. intros s0.
  destruct (student_id s0); [exact Hm | apply keeps_ret].
Qed.

Lemma keeps_try_except (m : M Response) : keeps m -> keeps (try_except m).
Proof.
  intros Hm s H. specialize (Hm s H). unfold try_except.
  destruct (m s) as [[r|e] s1]; [exact Hm|]. destruct e; exact Hm.
Qed.

Lemma snd_run_handler (m : M Response) (s : Session) :
  snd (run_handler m s) = snd (m s).
Proof. unfold run_handler. now destruct (m s) as [[r|e] s1]. Qed.

Ltac keeps_auto :=
  repeat first
    [ apply keeps_ret | apply keeps_raise | apply keeps_get
    | apply keeps_init_progress | apply keeps_session_progress | apply keeps_shape_of
    | apply keeps_check_level_progress | apply keeps_advance_level
    | apply keeps_update_progress | apply keeps_read_user_answer
    | apply keeps_modify; intros ?; reflexivity
    | apply keeps_require_session | apply keeps_try_except
    | apply keeps_bind; [|intros ?]
    | match goal with
      | |- keeps (if ?b then _ else _) => destruct b
      | |- keeps (match ?x with _ => _ end) => destruct x
      | |- keeps (let (_, _) := ?x in _) => destruct x
      end ].

Lemma keeps_submit_answer_m (f : string -> option Q) (body : option json) :
  keeps (submit_answer_m f body).
Proof. unfold submit_answer_m. keeps_auto. Qed.

Lemma keeps_get_progress_data : keeps get_progress_data.
Proof. unfold get_progress_data. keeps_auto. Qed.

Lemma reset_shape_inv (shape_name : string) (s : Session) :
  session_inv s -> session_inv (snd (reset_shape shape_name s)).
Proof.
  intros H. unfold reset_shape. rewrite snd_run_handler.
  unfold require_session. cbv beta iota delta [bind get].
  destruct (student_id s); [|exact H].
  destruct (init_progress_result s) as (p & Hrun & Hcase).
  pose proof (init_progress_inv s p H Hrun Hcase) as Hp.
  cbv beta iota delta [bind]. rewrite Hrun.
  cbv beta iota delta [session_progress bind get ret modify]. cbn [set_progress progress].
  destruct (shapes p !! shape_name); cbn [snd].
  - apply session_inv_set_progress, progress_inv_set_shape;
      [exact Hp | apply create_shape_progress_ok].
  - now apply session_inv_set_progress.
Qed.

Lemma handle_inv (f : string -> option Q) (r : Request) (s : Session) :
  session_inv s -> session_inv (snd (handle f r s)).
Proof.
  intros H. destruct r; cbn [handle].
  - unfold index. rewrite snd_run_handler. revert s H. fold (keeps (A := Response)).
    keeps_auto.
  - unfold start. rewrite snd_run_handler. revert s H. fold (keeps (A := Response)).
    keeps_auto.
  - unfold learn. rewrite snd_run_handler. revert s H. fold (keeps (A := Response)).
    keeps_auto.
  - unfold practice. rewrite snd_run_handler. revert s H. fold (keeps (A := Response)).
    keeps_auto.
  - unfold submit_answer. rewrite snd_run_handler. now apply keeps_submit_answer_m.
  - unfold get_progress. rewrite snd_run_handler. revert s H.
    fold (keeps (A := Response)). apply keeps_require_session.
    intros s H. pose proof (keeps_get_progress_data s H) as H1.
    destruct (get_progress_data s) as [[p|e] s1]; exact H1.
  - unfold get_shape_progress. rewrite snd_run_handler. revert s H.
    fold (keeps (A := Response)). apply keeps_require_session.
    intros s H. pose proof (keeps_get_progress_data s H) as H1.
    destruct (get_progress_data s) as [[p|e] s1]; [|exact H1].
    destruct (shapes p !! shape_name); exact H1.
  - unfold results. rewrite snd_run_handler. revert s H. fold (keeps (A := Response)).
    keeps_auto.
  - unfold reset. rewrite snd_run_handler. cbn. apply session_inv_empty.
  - now apply reset_shape_inv.
Qed.

Lemma reachable_inv (f : string -> option Q) (s : Session) :
  reachable f s -> session_inv s.
Proof.
  induction 1 as [|s r _ IH]; [apply session_inv_empty | now apply handle_inv].
Qed.

(** C9. [correct <= attempts] holds at every level of every shape of the
    initial progress record, and every request handler keeps it, as do
    [update_progress] and [advance_level] on their own: answer submission,
    level advancement, the reset of one shape and the reset of the whole
    session.  Hence it holds in every session a visitor can reach. *)
Theorem correct_le_attempts_invariant (f : string -> option Q) :
  progress_inv initial_progress
  /\ (forall r s, session_inv s -> session_inv (snd (handle f r s)))
  /\ (forall shape level is_correct question_data s,
        session_inv s ->
        session_inv (snd (update_progress shape level is_correct question_data s)))
  /\ (forall shape s, session_inv s -> session_inv (snd (advance_level shape s)))
  /\ (forall s p shape sp level,
        reachable f s -> progress s = Some p -> shapes p !! shape = Some sp ->
        correct (get_level (levels sp) level) <= attempts (get_level (levels sp) level)).
Proof.
  split; [apply progress_inv_initial|].
  split; [intros r s; apply handle_inv|].
  split; [intros shape level is_correct question_data; apply keeps_update_progress|].
  split; [intros shape; apply keeps_advance_level|].
  intros s p shape sp level Hreach Hp Hsp.
  exact (reachable_inv f s Hreach p Hp shape sp Hsp level).
Qed.

Lemma practise_square_reachable (f : string -> option Q) (s : Session) :
  reachable f s -> reachable f (practise_square s).
Proof. intros H. exact (reach_step f s (ReqPractice "square" quarter_draws) H). Qed.

Lemma square_round_reachable (x : Q) (s : Session) :
  reachable reject_strings s -> reachable reject_strings (square_round x s).
Proof.
  intros H.
  exact (reach_step reject_strings (practise_square s) (ReqSubmit (answer_body x))
           (practise_square_reachable reject_strings s H)).
Qed.

Lemma fresh_session_reachable (f : string -> option Q) : reachable f fresh_session.
Proof. exact (reach_step f empty_session (ReqIndex "visitor") (reach_empty f)). Qed.

Lemma fifth_round_reachable : reachable reject_strings fifth_round.
Proof.
  unfold fifth_round, four_right.
  apply practise_square_reachable.
  do 4 apply square_round_reachable.
  apply fresh_session_reachable.
Qed.

Lemma correct_le_attempts_invariant_witness :
  correct (get_level (levels fifth_square) beginner)
  <= attempts (get_level (levels fifth_square) beginner).
Proof.
  destruct fifth_round_facts as (_ & Hp & _ & Hsp).
  destruct (correct_le_attempts_invariant reject_strings) as (_ & _ & _ & _ & H).
  exact (H fifth_round fifth_progress "square"%string fifth_square beginner
           fifth_round_reachable Hp Hsp).
Defined.

(** * Further properties of the handlers *)

(** ** An invariant rule for the progress entry *)

Section InvariantRule.

Variable I : option Progress -> Prop.

Hypothesis I_init : I None -> I (Some initial_progress).
Hypothesis I_count :
  forall p is_correct, I (Some p) -> I (Some (count_attempt is_correct p)).
Hypothesis I_record :
  forall p shape sp level is_correct question_data,
    I (Some p) -> shapes p !! shape = Some sp ->
    I (Some (record_answer shape level is_correct question_data p sp)).
Hypothesis I_advance :
  forall p shape sp,
    I (Some p) -> shapes p !! shape = Some sp ->
    I (Some (set_shape shape (fst (advance_shape sp)) p)).

Lemma preserves_ret {A} (a : A) : preserves I (ret a).
Proof. intros s H. exact H. Qed.

Lemma preserves_raise {A} (e : exn) : preserves I (@raise A e).
Proof. intros s H. exact H. Qed.

Lemma preserves_get : preserves I get.
Proof. intros s H. exact H. Qed.

Lemma preserves_bind {A B} (m : M A) (k : A -> M B) :
  preserves I m -> (forall a, preserves I (k a)) -> preserves I (bind m k).
Proof.
  intros Hm Hk s H. unfold bind. specialize (Hm s H).
  destruct (m s) as [[a|e] s1]; cbn [snd] in *; [now apply Hk | exact Hm].
Qed.

Lemma preserves_modify (g : Session -> Session) :
  (forall s, progress (g s) = progress s) -> preserves I (modify g).
Proof. intros Hg s H. cbn. now rewrite Hg. Qed.

Lemma init_progress_I (s : Session) (p : Progress) :
  I (progress s) ->
  progress s = Some p \/ progress s = None /\ p = initial_progress ->
  I (Some p).
Proof.
  intros H [Hp | [Hp ->]]; [now rewrite <- Hp | apply I_init; now rewrite <- Hp].
Qed.

Lemma preserves_init_progress : preserves I init_progress.
Proof.
  intros s H. destruct (init_progress_result s) as (p & Hrun & Hcase).
  rewrite Hrun. cbn [snd set_progress progress].
  exact (init_progress_I s p H Hcase).
Qed.

Lemma preserves_session_progress : preserves I session_progress.
Proof.
  intros s H. unfold session_progress. run_m.
  destruct (progress s) eqn:E; cbn [snd]; now rewrite E.
Qed.

Lemma preserves_shape_of (p : Progress) (shape : string) : preserves I (shape_of p shape).
Proof.
  unfold shape_of. destruct (shapes p !! shape); [apply preserves_ret | apply preserves_raise].
Qed.

Lemma preserves_check_level_progress (shape : string) (level : Level) :
  preserves I (check_level_progress shape level).
Proof.
  unfold check_level_progress.
  apply preserves_bind; [apply preserves_init_progress|]. intros _.
  apply preserves_bind; [apply preserves_session_progress|]. intros p.
  apply preserves_bind; [apply preserves_shape_of|]. intros sp. apply preserves_ret.
Qed.

Lemma preserves_advance_level (shape : string) : preserves I (advance_level shape).
Proof.
  intros s H.
  destruct (init_progress_result s) as (p & Hrun & Hcase).
  pose proof (init_progress_I s p H Hcase) as Hp.
  assert (E : advance_level shape s = advance_level shape (set_progress p s)).
  { unfold advance_level. rewrite exec_init_idem, Hrun. reflexivity. }
  rewrite E.
  destruct (shapes p !! shape) as [sp|] eqn:Hsp.
  - rewrite (advance_level_run shape (set_progress p s) p sp eq_refl Hsp).
    cbn [snd set_progress progress]. now apply I_advance.
  - rewrite (advance_level_missing shape (set_progress p s) p eq_refl Hsp).
    exact Hp.
Qed.

Lemma preserves_update_progress (shape : string) (level : Level) (is_correct : bool)
    (question_data : Question) :
  preserves I (update_progress shape level is_correct question_data).
Proof.
  intros s H.
  destruct (init_progress_result s) as (p & Hrun & Hcase).
  pose proof (init_progress_I s p H Hcase) as Hp.
  assert (E : update_progress shape level is_correct question_data s
              = update_progress shape level is_correct question_data (set_progress p s)).
  { unfold update_progress. rewrite exec_init_idem, Hrun. reflexivity. }
  rewrite E.
  destruct (shapes p !! shape) as [sp|] eqn:Hsp.
  - rewrite (update_progress_run shape level is_correct question_data
               (set_progress p s) p sp eq_refl Hsp).
    cbn [snd set_progress progress]. now apply I_record.
  - rewrite (update_progress_missing shape level is_correct question_data
               (set_progress p s) p eq_refl Hsp).
    cbn [snd set_progress progress]. now apply I_count.
Qed.

Lemma preserves_read_user_answer (f : string -> option Q) (body : option json) :
  preserves I (read_user_answer f body).
Proof. intros s H. now rewrite read_user_answer_state. Qed.

Lemma preserves_require_session (m : M Response) :
  preserves I m -> preserves I (require_session m).
Proof.
  intros Hm. unfold require_session.
  apply preserves_bind; [apply preserves_get|]. intros s0.
  destruct (student_id s0); [exact Hm | apply preserves_ret].
Qed.

Lemma preserves_try_except (m : M Response) :
  preserves I m -> preserves I (try_except m).
Proof.
  intros Hm s H. specialize (Hm s H). unfold try_except.
  destruct (m s) as [[r|e] s1]; [exact Hm|]. destruct e; exact Hm.
Qed.

Ltac preserves_auto :=
  repeat first
    [ apply preserves_ret | apply preserves_raise | apply preserves_get
    | apply preserves_init_progress | apply preserves_session_progress
    | apply preserves_shape_of | apply preserves_check_level_progress
    | apply preserves_advance_level | apply preserves_update_progress
    | apply preserves_read_user_answer
    | apply preserves_modify; intros ?; reflexivity
    | apply preserves_require_session | apply preserves_try_except
    | apply preserves_bind; [|intros ?]
    | match goal with
      | |- preserves _ (if ?b then _ else _) => destruct b
      | |- preserves _ (match ?x with _ => _ end) => destruct x
      | |- preserves _ (let (_, _) := ?x in _) => destruct x
      end ].

Lemma preserves_get_progress_data : preserves I get_progress_data.
Proof. unfold get_progress_data. preserves_auto. Qed.

(** Every handler other than the two resets preserves [I]. *)
Lemma handle_preserves (f : string -> option Q) (r : Request) (s : Session) :
  is_reset r = false -> I (progress s) -> I (progress (snd (handle f r s))).
Proof.
  intros Hr H. destruct r; try discriminate Hr; cbn [handle].
  - unfold index. rewrite snd_run_handler. revert s H.
    fold (preserves I (A := Response)). preserves_auto.
  - unfold start. rewrite snd_run_handler. revert s H.
    fold (preserves I (A := Response)). preserves_auto.
  - unfold learn. rewrite snd_run_handler. revert s H.
    fold (preserves I (A := Response)). preserves_auto.
  - unfold practice. rewrite snd_run_handler. revert s H.
    fold (preserves I (A := Response)). preserves_auto.
  - unfold submit_answer, submit_answer_m. rewrite snd_run_handler. revert s H.
    fold (preserves I (A := Response)). preserves_auto.
  - unfold get_progress. rewrite snd_run_handler. revert s H.
    fold (preserves I (A := Response)). apply preserves_require_session.
    intros s H. pose proof (preserves_get_progress_data s H) as H1.
    destruct (get_progress_data s) as [[p|e] s1]; exact H1.
  - unfold get_shape_progress. rewrite snd_run_handler. revert s H.
    fold (preserves I (A := Response)). apply preserves_require_session.
    intros s H. pose proof (preserves_get_progress_data s H) as H1.
    destruct (get_progress_data s) as [[p|e] s1]; [|exact H1].
    destruct (shapes p !! shape_name); exact H1.
  - unfold results. rewrite snd_run_handler. revert s H.
    fold (preserves I (A := Response)). preserves_auto.
Qed.

Hypothesis I_reset : I None.
Hypothesis I_reset_shape :
  forall p shape sp,
    I (Some p) -> shapes p !! shape = Some sp ->
    I (Some (set_shape shape create_shape_progress p)).

Lemma handle_preserves_all (f : string -> option Q) (r : Request) (s : Session) :
  I (progress s) -> I (progress (snd (handle f r s))).
Proof.
  intros H. destruct (is_reset r) eqn:Hr; [|now apply handle_preserves].
  destruct r; try discriminate Hr; cbn [handle].
  - unfold reset. rewrite snd_run_handler. cbn. exact I_reset.
  - unfold reset_shape. rewrite snd_run_handler.
    unfold require_session. cbv beta iota delta [bind get].
    destruct (student_id s); [|exact H].
    destruct (init_progress_result s) as (p & Hrun & Hcase).
    pose proof (init_progress_I s p H Hcase) as Hp.
    cbv beta iota delta [bind]. rewrite Hrun.
    cbv beta iota delta [session_progress bind get ret modify].
    cbn [set_progress progress].
    destruct (shapes p !! shape_name) as [sp|] eqn:Hsp; cbn [snd set_progress progress].
    + exact (I_reset_shape p shape_name sp Hp Hsp).
    + exact Hp.
Qed.

Lemma reachable_I (f : string -> option Q) (s : Session) :
  reachable f s -> I (progress s).
Proof.
  induction 1 as [|s r _ IH]; [exact I_reset | now apply handle_preserves_all].
Qed.

End InvariantRule.

(** ** Reachable progress records are well formed *)

Lemma length_keep_last {A} (n : nat) (l : list A) :
  length (keep_last n l) = Nat.min n (length l).
Proof.
  unfold keep_last. destruct (n <? length l)%nat eqn:E.
  - apply Nat.ltb_lt in E. rewrite length_drop. lia.
  - apply Nat.ltb_ge in E. lia.
Qed.

Lemma shape_wf_create : shape_wf create_shape_progress.
Proof.
  split.
  - intros l. unfold level_data_ok.
    destruct l;
      cbn [get_level levels create_shape_progress lv_beginner lv_intermediate
           lv_expert correct attempts questions length];
      (split; [lia | split; [lia | reflexivity]]).
  - repeat split; try (intros l; destruct l; reflexivity). discriminate.
Qed.

Lemma dom_initial_progress : dom (shapes initial_progress) = list_to_set SHAPES.
Proof.
  unfold initial_progress, SHAPES. cbn [shapes list_to_set].
  rewrite !dom_insert_L, dom_empty_L. reflexivity.
Qed.

Lemma progress_wf_initial : progress_wf initial_progress.
Proof.
  split; [|split].
  - unfold counters_ok, initial_progress.
    cbn [total_attempts correct_answers wrong_answers history length].
    split; [lia|]. split; [lia|]. split; [lia|]. split; lia.
  - apply dom_initial_progress.
  - intros shape sp. unfold initial_progress. cbn [shapes].
    rewrite !lookup_insert_Some, lookup_empty. intros H.
    repeat (destruct H as [[_ H] | [_ H]]; [subst sp; apply shape_wf_create|]).
    discriminate H.
Qed.

Lemma progress_wf_count_attempt (is_correct : bool) (p : Progress) :
  progress_wf p -> progress_wf (count_attempt is_correct p).
Proof.
  intros ((Hsum & Hc & Hw & Hlen & Hle) & Hdom & Hshapes).
  split; [|split; assumption].
  unfold counters_ok. cbn [count_attempt total_attempts correct_answers wrong_answers history].
  destruct is_correct; (split; [lia|]; split; [lia|]; split; [lia|]; split; lia).
Qed.

Lemma level_data_ok_record (is_correct : bool) (question_data : Question) (d : LevelData) :
  level_data_ok d -> level_data_ok (record_in_level is_correct question_data d).
Proof.
  intros (H0 & Hle & Hlen). unfold level_data_ok.
  cbn [record_in_level correct attempts questions].
  rewrite length_keep_last, length_app, Hlen. cbn [length].
  destruct is_correct; (split; [lia|]; split; lia).
Qed.

Lemma shape_wf_record_in_shape (level : Level) (is_correct : bool)
    (question_data : Question) (sp : ShapeProgress) :
  shape_wf sp -> shape_wf (record_in_shape level is_correct question_data sp).
Proof.
  intros [Hdata Hprog]. split.
  - intros l. unfold record_in_shape. cbn [levels].
    destruct (decide (level = l)) as [<-|Hne].
    + rewrite get_set_level_eq. apply level_data_ok_record, Hdata.
    + rewrite get_set_level_ne by exact Hne. apply Hdata.
  - destruct Hprog as (Hu & Hc & Hm).
    repeat split; try exact Hm; intros l; [specialize (Hu l) | specialize (Hc l)];
      destruct level, l; exact Hu || exact Hc.
Qed.

Ltac norm_index :=
  change (level_index beginner) with 0%nat in *;
  change (level_index intermediate) with 1%nat in *;
  change (level_index expert) with 2%nat in *.

Lemma shape_wf_advance_shape (sp : ShapeProgress) :
  shape_wf sp -> shape_wf (fst (advance_shape sp)).
Proof.
  intros [Hdata (Hu & Hc & Hm)]. split.
  - intros l. specialize (Hdata l). unfold level_data_ok in *.
    unfold advance_shape. destruct (current_level sp), l; exact Hdata.
  - assert (Hmf : current_level sp <> expert -> mastered sp = false).
    { intros Hne. destruct (mastered sp); [|reflexivity]. now contradiction Hne; apply Hm. }
    unfold advance_shape, progression_ok.
    destruct (current_level sp) eqn:Ecur; cbn [next_level fst current_level mastered levels];
      try rewrite Hmf in * by discriminate;
      (split; [|split]);
      [ intros l; specialize (Hu l) | intros l; specialize (Hc l) | try discriminate; auto
      | intros l; specialize (Hu l) | intros l; specialize (Hc l) | try discriminate; auto
      | intros l; specialize (Hu l) | intros l; specialize (Hc l) | try discriminate; auto ];
      destruct l; norm_index; cbn in *; try congruence;
      try (rewrite Hc; now destruct (mastered sp));
      try (symmetry; now apply bool_decide_eq_true_2).
Qed.

Lemma progress_wf_set_shape (shape : string) (sp sp' : ShapeProgress) (p : Progress) :
  progress_wf p -> shapes p !! shape = Some sp -> shape_wf sp' ->
  progress_wf (set_shape shape sp' p).
Proof.
  intros (Hcnt & Hdom & Hshapes) Hsp Hwf.
  split; [exact Hcnt|]. cbn [set_shape shapes]. split.
  - rewrite dom_insert_lookup_L by eauto. exact Hdom.
  - intros shape' sp0. rewrite lookup_insert_Some.
    intros [[_ <-] | [_ H]]; [exact Hwf | exact (Hshapes shape' sp0 H)].
Qed.

Lemma progress_wf_record_answer (shape : string) (level : Level) (is_correct : bool)
    (question_data : Question) (p : Progress) (sp : ShapeProgress) :
  progress_wf p -> shapes p !! shape = Some sp ->
  progress_wf (record_answer shape level is_correct question_data p sp).
Proof.
  intros Hp Hsp.
  destruct (progress_wf_count_attempt is_correct p Hp)
    as ((Hsum & Hc & Hw & Hlen & Hle) & Hdom & Hshapes).
  split; [|split].
  - unfold counters_ok, record_answer. cbn [total_attempts correct_answers wrong_answers history].
    rewrite length_keep_last, length_app. cbn [length].
    destruct Hp as ((_ & _ & _ & _ & Hle0) & _).
    cbn [count_attempt total_attempts history] in Hle |- *.
    split; [exact Hsum|]. split; [exact Hc|]. split; [exact Hw|]. split; lia.
  - unfold record_answer. cbn [shapes]. rewrite dom_insert_lookup_L by eauto. exact Hdom.
  - intros shape' sp0. unfold record_answer. cbn [shapes]. rewrite lookup_insert_Some.
    intros [[_ <-] | [_ H]]; [|exact (Hshapes shape' sp0 H)].
    apply shape_wf_record_in_shape. exact (Hshapes shape sp Hsp).
Qed.

Lemma reachable_wf (f : string -> option Q) (s : Session) (p : Progress) :
  reachable f s -> progress s = Some p -> progress_wf p.
Proof.
  intros Hreach.
  refine (reachable_I (fun o => forall p, o = Some p -> progress_wf p)
            _ _ _ _ _ _ f s Hreach p).
  - intros _ p0 [= <-]. apply progress_wf_initial.
  - intros p0 ic H p1 [= <-]. apply progress_wf_count_attempt, H. reflexivity.
  - intros p0 shape sp level ic q H Hsp p1 [= <-].
    apply progress_wf_record_answer; [now apply H | exact Hsp].
  - intros p0 shape sp H Hsp p1 [= <-].
    apply (progress_wf_set_shape shape sp); [now apply H | exact Hsp |].
    apply shape_wf_advance_shape. destruct (H p0 eq_refl) as (_ & _ & Hs).
    exact (Hs shape sp Hsp).
  - intros p0 [=].
  - intros p0 shape sp H Hsp p1 [= <-].
    apply (progress_wf_set_shape shape sp); [now apply H | exact Hsp | apply shape_wf_create].
Qed.

(** X1. In every reachable session the global counters add up:
    [total_attempts = correct_answers + wrong_answers], and none is
    negative. *)
Theorem reachable_counters_add_up (f : string -> option Q) (s : Session) (p : Progress) :
  reachable f s -> progress s = Some p ->
  total_attempts p = correct_answers p + wrong_answers p
  /\ 0 <= correct_answers p /\ 0 <= wrong_answers p /\ 0 <= total_attempts p.
Proof.
  intros Hreach Hp.
  destruct (reachable_wf f s p Hreach Hp) as ((Hsum & Hc & Hw & _) & _).
  repeat split; try assumption. lia.
Qed.

Lemma reachable_counters_add_up_witness :
  total_attempts fifth_progress = correct_answers fifth_progress + wrong_answers fifth_progress.
Proof.
  destruct fifth_round_facts as (_ & Hp & _).
  exact (proj1 (reachable_counters_add_up reject_strings fifth_round fifth_progress
                  fifth_round_reachable Hp)).
Defined.

(** X2. In every reachable session the history log has at most 50 entries,
    and the question log of each level holds exactly [min(attempts, 20)]
    entries, with [attempts] not negative. *)
Theorem reachable_logs_bounded (f : string -> option Q) (s : Session) (p : Progress) :
  reachable f s -> progress s = Some p ->
  (length (history p) <= 50)%nat
  /\ forall shape sp level,
       shapes p !! shape = Some sp ->
       let d := get_level (levels sp) level in
       0 <= attempts d
       /\ Z.of_nat (length (questions d)) = Z.min (attempts d) 20
       /\ (length (questions d) <= 20)%nat.
Proof.
  intros Hreach Hp.
  destruct (reachable_wf f s p Hreach Hp) as ((_ & _ & _ & Hlen & _) & _ & Hshapes).
  split; [exact Hlen|].
  intros shape sp level Hsp d.
  destruct (Hshapes shape sp Hsp) as [Hdata _].
  destruct (Hdata level) as (H0 & Hle & Hq). fold d in H0, Hle, Hq.
  split; [lia|]. split; lia.
Qed.

Lemma reachable_logs_bounded_witness : (length (history fifth_progress) <= 50)%nat.
Proof.
  destruct fifth_round_facts as (_ & Hp & _).
  exact (proj1 (reachable_logs_bounded reject_strings fifth_round fifth_progress
                  fifth_round_reachable Hp)).
Defined.

(** X3. In every reachable session the progress record has an entry for
    exactly the four shapes square, rectangle, triangle and circle. *)
Theorem reachable_shapes_are_the_four
    (f : string -> option Q) (s : Session) (p : Progress) (shape : string) :
  reachable f s -> progress s = Some p ->
  is_Some (shapes p !! shape) <-> shape ∈ SHAPES.
Proof.
  intros Hreach Hp.
  destruct (reachable_wf f s p Hreach Hp) as (_ & Hdom & _).
  rewrite <- elem_of_dom, Hdom, elem_of_list_to_set. reflexivity.
Qed.

Lemma reachable_shapes_are_the_four_witness :
  is_Some (shapes fifth_progress !! "circle"%string) <-> "circle"%string ∈ SHAPES.
Proof.
  destruct fifth_round_facts as (_ & Hp & _).
  exact (reachable_shapes_are_the_four reject_strings fifth_round fifth_progress "circle"
           fifth_round_reachable Hp).
Defined.

(** X4. In every reachable session a level of a shape is unlocked exactly
    when it is not above the shape's current level in the order
    beginner, intermediate, expert. *)
Theorem reachable_unlocked_up_to_current
    (f : string -> option Q) (s : Session) (p : Progress)
    (shape : string) (sp : ShapeProgress) (l : Level) :
  reachable f s -> progress s = Some p -> shapes p !! shape = Some sp ->
  unlocked (get_level (levels sp) l) = true
  <-> (level_index l <= level_index (current_level sp))%nat.
Proof.
  intros Hreach Hp Hsp.
  destruct (reachable_wf f s p Hreach Hp) as (_ & _ & Hshapes).
  destruct (Hshapes shape sp Hsp) as [_ (Hu & _)].
  rewrite Hu. apply Nat.leb_le.
Qed.

Lemma reachable_unlocked_up_to_current_witness :
  unlocked (get_level (levels fifth_square) expert) = true
  <-> (level_index expert <= level_index (current_level fifth_square))%nat.
Proof.
  destruct fifth_round_facts as (_ & Hp & _ & Hsp).
  exact (reachable_unlocked_up_to_current reject_strings fifth_round fifth_progress
           "square" fifth_square expert fifth_round_reachable Hp Hsp).
Defined.

(** X5. In every reachable session a shape is mastered exactly when its
    expert level is completed, a mastered shape has expert as its current
    level, and a level other than expert is completed exactly when it lies
    below the current level. *)
Theorem reachable_mastered_iff_expert_completed
    (f : string -> option Q) (s : Session) (p : Progress)
    (shape : string) (sp : ShapeProgress) :
  reachable f s -> progress s = Some p -> shapes p !! shape = Some sp ->
  (mastered sp = true <-> completed (get_level (levels sp) expert) = true)
  /\ (mastered sp = true -> current_level sp = expert)
  /\ forall l, l <> expert ->
       (completed (get_level (levels sp) l) = true
        <-> (level_index l < level_index (current_level sp))%nat).
Proof.
  intros Hreach Hp Hsp.
  destruct (reachable_wf f s p Hreach Hp) as (_ & _ & Hshapes).
  destruct (Hshapes shape sp Hsp) as [_ (_ & Hc & Hm)].
  split; [|split; [exact Hm|]].
  - rewrite (Hc expert). rewrite bool_decide_eq_true_2 by reflexivity.
    rewrite andb_true_r.
    destruct (current_level sp); norm_index; cbn [Nat.ltb Nat.leb orb]; reflexivity.
  - intros l Hl. rewrite (Hc l). rewrite bool_decide_eq_false_2 by exact Hl.
    rewrite andb_false_r, orb_false_r. apply Nat.ltb_lt.
Qed.

Lemma reachable_mastered_iff_expert_completed_witness :
  mastered fifth_square = true <-> completed (get_level (levels fifth_square) expert) = true.
Proof.
  destruct fifth_round_facts as (_ & Hp & _ & Hsp).
  exact (proj1 (reachable_mastered_iff_expert_completed reject_strings fifth_round
                  fifth_progress "square" fifth_square fifth_round_reachable Hp Hsp)).
Defined.

(** ** Flags only move forward outside the resets *)

Lemma flags_le_refl (sp : ShapeProgress) : flags_le sp sp.
Proof. repeat split; auto. Qed.

Lemma flags_le_trans (a b c : ShapeProgress) :
  flags_le a b -> flags_le b c -> flags_le a c.
Proof.
  intros (Hu1 & Hc1 & Hm1) (Hu2 & Hc2 & Hm2). repeat split; auto.
Qed.

Lemma flags_le_record_in_shape (level : Level) (is_correct : bool)
    (question_data : Question) (sp : ShapeProgress) :
  flags_le sp (record_in_shape level is_correct question_data sp).
Proof.
  repeat split; try (intros l; destruct level, l; exact id). exact id.
Qed.

Lemma flags_le_advance_shape (sp : ShapeProgress) :
  flags_le sp (fst (advance_shape sp)).
Proof.
  unfold advance_shape.
  repeat split; try (intros l H); try intros H;
    destruct (current_level sp); try destruct l; auto.
Qed.

Lemma flags_kept_by_insert (shape shape' : string) (sp sp0 sp0' : ShapeProgress)
    (m : gmap string ShapeProgress) :
  (exists sp1, m !! shape = Some sp1 /\ flags_le sp sp1) ->
  m !! shape' = Some sp0 -> flags_le sp0 sp0' ->
  exists sp1, <[shape' := sp0']> m !! shape = Some sp1 /\ flags_le sp sp1.
Proof.
  intros (sp1 & Hl & Hle) Hl0 Hle0.
  destruct (decide (shape' = shape)) as [->|Hne].
  - exists sp0'. rewrite lookup_insert_eq. split; [reflexivity|].
    rewrite Hl in Hl0. injection Hl0 as <-. now apply flags_le_trans with sp1.
  - exists sp1. now rewrite lookup_insert_ne.
Qed.

(** X6. A request other than the two resets never clears a flag: for a shape
    present in the progress record, every level that was unlocked stays
    unlocked, every completed level stays completed, and a mastered shape
    stays mastered. *)
Theorem flags_monotone_outside_resets
    (f : string -> option Q) (r : Request) (s : Session) (p : Progress)
    (shape : string) (sp : ShapeProgress) :
  is_reset r = false ->
  progress s = Some p -> shapes p !! shape = Some sp ->
  exists p' sp',
    progress (snd (handle f r s)) = Some p'
    /\ shapes p' !! shape = Some sp'
    /\ flags_le sp sp'.
Proof.
  intros Hr Hp Hsp.
  pose (I := fun o : option Progress =>
               exists p' sp', o = Some p' /\ shapes p' !! shape = Some sp' /\ flags_le sp sp').
  assert (HI : I (progress s)).
  { exists p, sp. split; [exact Hp|]. split; [exact Hsp | apply flags_le_refl]. }
  refine (handle_preserves I _ _ _ _ f r s Hr HI).
  - intros (p0 & sp0 & [=] & _).
  - intros p0 ic (p1 & sp1 & [= <-] & Hl & Hle). exists (count_attempt ic p0), sp1. auto.
  - intros p0 shape' sp0 level ic q (p1 & sp1 & [= <-] & Hl & Hle) Hl0.
    destruct (flags_kept_by_insert shape shape' sp sp0
                (record_in_shape level ic q sp0) (shapes p0))
      as (sp2 & Hl2 & Hle2); [eauto | exact Hl0 | apply flags_le_record_in_shape |].
    eexists _, sp2. split; [reflexivity|]. split; [exact Hl2 | exact Hle2].
  - intros p0 shape' sp0 (p1 & sp1 & [= <-] & Hl & Hle) Hl0.
    destruct (flags_kept_by_insert shape shape' sp sp0
                (fst (advance_shape sp0)) (shapes p0))
      as (sp2 & Hl2 & Hle2); [eauto | exact Hl0 | apply flags_le_advance_shape |].
    eexists _, sp2. split; [reflexivity|]. split; [exact Hl2 | exact Hle2].
Qed.

Lemma flags_monotone_outside_resets_witness :
  exists p' sp',
    progress (snd (handle reject_strings (ReqSubmit (answer_body 16)) fifth_round)) = Some p'
    /\ shapes p' !! "square"%string = Some sp'
    /\ flags_le fifth_square sp'.
Proof.
  destruct fifth_round_facts as (_ & Hp & _ & Hsp).
  exact (flags_monotone_outside_resets reject_strings (ReqSubmit (answer_body 16))
           fifth_round fifth_progress "square" fifth_square eq_refl Hp Hsp).
Defined.

(** ** Ranges and precision of the generated parameters *)

Lemma round_half_even_between (y : Q) (L H : Z) :
  (inject_Z L <= y)%Q -> (y <= inject_Z H)%Q ->
  L <= round_half_even y <= H.
Proof.
  intros HL HH. split.
  - etransitivity; [|apply round_half_even_floor].
    rewrite <- (Qfloor_Z L). now apply Qfloor_resp_le.
  - assert (Hf : Qfloor y <= H).
    { rewrite <- (Qfloor_Z H). now apply Qfloor_resp_le. }
    unfold round_half_even.
    destruct (y - inject_Z (Qfloor y) ?= 1 # 2)%Q eqn:E; [| exact Hf |].
    + assert (Hlt : (inject_Z (Qfloor y) < y)%Q).
      { apply Qeq_alt in E. apply Qlt_minus_iff. rewrite E. reflexivity. }
      assert (Qfloor y < H).
      { rewrite Zlt_Qlt. now apply Qlt_le_trans with y. }
      destruct (Z.even (Qfloor y)); lia.
    + assert (Hlt : (inject_Z (Qfloor y) < y)%Q).
      { apply Qgt_alt in E. apply Qlt_minus_iff.
        apply Qlt_trans with (1 # 2)%Q; [reflexivity | exact E]. }
      assert (Qfloor y < H).
      { rewrite Zlt_Qlt. now apply Qlt_le_trans with y. }
      lia.
Qed.

Lemma on_grid_intro (ndigits : nat) (x : Q) (z : Z) :
  (x * pow10 ndigits == inject_Z z)%Q -> on_grid ndigits x.
Proof.
  intros H. unfold on_grid. rewrite H at 1. now rewrite H, Qfloor_Z.
Qed.

Lemma py_round_on_grid (x : Q) (ndigits : nat) : on_grid ndigits (py_round x ndigits).
Proof.
  apply (on_grid_intro _ _ (round_half_even (x * pow10 ndigits))).
  unfold py_round. field. intros H.
  pose proof (pow10_pos ndigits) as Hpos. rewrite H in Hpos. discriminate Hpos.
Qed.

Lemma py_round_between (x lo hi : Q) (ndigits : nat) :
  on_grid ndigits lo -> on_grid ndigits hi ->
  (lo <= x)%Q -> (x <= hi)%Q ->
  (lo <= py_round x ndigits)%Q /\ (py_round x ndigits <= hi)%Q.
Proof.
  intros Glo Ghi Hlo Hhi. unfold on_grid in Glo, Ghi.
  pose proof (pow10_pos ndigits) as Hpos.
  destruct (round_half_even_between (x * pow10 ndigits)
              (Qfloor (lo * pow10 ndigits)) (Qfloor (hi * pow10 ndigits))) as [HL HH].
  - rewrite <- Glo. apply Qmult_le_compat_r; [exact Hlo | now apply Qlt_le_weak].
  - rewrite <- Ghi. apply Qmult_le_compat_r; [exact Hhi | now apply Qlt_le_weak].
  - unfold py_round. split.
    + apply Qle_shift_div_l; [exact Hpos|]. rewrite Glo. now rewrite <- Zle_Qle.
    + apply Qle_shift_div_r; [exact Hpos|]. rewrite Ghi. now rewrite <- Zle_Qle.
Qed.

Lemma py_int_round0 (x : Q) : py_int (py_round x 0) = inject_Z (round_half_even (x * pow10 0)).
Proof.
  unfold py_int, py_round. cbn [pow10 Z.of_nat Z.pow Qdiv Qinv inject_Z Qnum Qden Qmult].
  cbn [Z.pow_pos Pos.iter Z.mul Pos.mul].
  f_equal. rewrite Z.mul_1_r. apply Z.quot_1_r.
Qed.

Lemma py_round0_value (x : Q) :
  (py_round x 0 == inject_Z (round_half_even (x * pow10 0)))%Q.
Proof.
  unfold py_round. change (pow10 0) with 1%Q. field.
Qed.

Lemma uniform_between (lo hi : Q) (g : Rng) :
  (lo <= hi)%Q -> (0 <= g 0%nat)%Q -> (g 0%nat <= 1)%Q ->
  (lo <= fst (uniform lo hi g))%Q /\ (fst (uniform lo hi g) <= hi)%Q.
Proof.
  intros Hlh Hu0 Hu1. split; [now apply uniform_lower|].
  unfold uniform, rbind, random, rret. cbn [fst].
  assert (Hd : (0 <= hi - lo)%Q).
  { unfold Qminus. rewrite <- (Qplus_opp_r lo).
    apply Qplus_le_compat; [exact Hlh | apply Qle_refl]. }
  assert (Hm : ((hi - lo) * g 0%nat <= (hi - lo) * 1)%Q).
  { rewrite !(Qmult_comm (hi - lo)). now apply Qmult_le_compat_r. }
  rewrite Qmult_1_r in Hm.
  apply Qle_trans with (lo + (hi - lo))%Q.
  - apply Qplus_le_compat; [apply Qle_refl | exact Hm].
  - apply Qle_lteq. right. ring.
Qed.

Lemma draw_param_between (lo hi : Q) (decimal_places : nat) (g : Rng) :
  on_grid decimal_places lo -> on_grid decimal_places hi ->
  (lo <= hi)%Q -> (0 <= g 0%nat)%Q -> (g 0%nat <= 1)%Q ->
  let v := fst (draw_param lo hi decimal_places g) in
  (lo <= v)%Q /\ (v <= hi)%Q /\ on_grid decimal_places v.
Proof.
  intros Glo Ghi Hlh Hu0 Hu1.
  destruct (uniform_between lo hi g Hlh Hu0 Hu1) as [Hx0 Hx1].
  unfold draw_param, rbind, rret.
  destruct (uniform lo hi g) as [x g']. cbn [fst] in *.
  destruct (py_round_between x lo hi decimal_places Glo Ghi Hx0 Hx1) as [H0 H1].
  pose proof (py_round_on_grid x decimal_places) as Hg.
  destruct decimal_places as [|n]; cbn [Nat.eqb]; [|auto].
  rewrite py_int_round0.
  pose proof (py_round0_value x) as E.
  split; [|split].
  - apply Qle_trans with (py_round x 0); [exact H0|].
    apply Qle_lteq. right. exact E.
  - apply Qle_trans with (py_round x 0); [|exact H1].
    apply Qle_lteq. right. symmetry. exact E.
  - apply (on_grid_intro _ _ (round_half_even (x * pow10 0))).
    change (pow10 0) with 1%Q. apply Qmult_1_r.
Qed.

Ltac draw_between Hg :=
  match goal with
  | |- context [let (_, _) := draw_param ?lo ?hi ?dp ?g in _] =>
      let H := fresh "Hb" in
      let Hr := fresh "Hrest" in
      assert (H : (lo <= fst (draw_param lo hi dp g))%Q
                  /\ (fst (draw_param lo hi dp g) <= hi)%Q
                  /\ on_grid dp (fst (draw_param lo hi dp g)))
        by (apply draw_param_between;
            [ vm_compute; reflexivity | vm_compute; reflexivity | discriminate
            | cbn beta; apply Hg | apply Qlt_le_weak; cbn beta; apply Hg ]);
      pose proof (draw_param_rest lo hi dp g) as Hr;
      destruct (draw_param lo hi dp g) as [? ?]; cbn [fst snd] in H, Hr; subst
  end.

Lemma generated_params (shape : string) (level : Level) (g : Rng) (q : Question) :
  unit_draws g ->
  fst (generate_question shape level g) = Some q ->
  Forall (fun nv : string * Q =>
            exists lo hi,
              param_range level shape (fst nv) = Some (lo, hi)
              /\ (lo <= snd nv)%Q /\ (snd nv <= hi)%Q
              /\ on_grid (decimal_places_of level) (snd nv))
         (q_given q).
Proof.
  intros Hg. unfold generate_question.
  destruct level;
    cbv beta iota delta [rbind rret get_real_world_context choice random];
    case_shape shape; subst; cbv beta iota delta [r_min r_max];
    repeat draw_between Hg; cbn [fst]; intros Hq; try discriminate Hq;
    injection Hq as <-; cbn [q_given];
    repeat (apply Forall_cons; split;
            [eexists _, _; split; [reflexivity | cbn [fst snd]; assumption]|]);
    apply Forall_nil; exact Logic.I.
Qed.

(** X7. Every parameter of a generated question lies in the interval it is
    drawn from: between the level's minimum and maximum for a side, length
    or base, up to 0.7 of the maximum for a width, up to 0.8 of it for a
    height, and between half the minimum and half the maximum for a radius. *)
Theorem generated_params_in_range
    (shape : string) (level : Level) (g : Rng) (q : Question) (name : string) (v : Q) :
  unit_draws g ->
  fst (generate_question shape level g) = Some q ->
  (name, v) ∈ q_given q ->
  exists lo hi,
    param_range level shape name = Some (lo, hi) /\ (lo <= v)%Q /\ (v <= hi)%Q.
Proof.
  intros Hg Hq Hin.
  pose proof (generated_params shape level g q Hg Hq) as Hall.
  rewrite Forall_forall in Hall.
  destruct (Hall (name, v) Hin) as (lo & hi & Hr & H0 & H1 & _).
  exists lo, hi. auto.
Qed.

Lemma generated_params_in_range_witness :
  exists lo hi,
    param_range expert "circle" "radius" = Some (lo, hi)
    /\ (lo <= 500 # 100)%Q /\ (500 # 100 <= hi)%Q.
Proof.
  apply (generated_params_in_range "circle" expert quarter_draws pizza_question).
  - intros n; split; [discriminate | reflexivity].
  - reflexivity.
  - apply list_elem_of_here.
Defined.

(** X8. Every parameter of a generated question has at most as many decimal
    places as its level prescribes: none at beginner (a whole number), one
    at intermediate, two at expert. *)
Theorem generated_params_precision
    (shape : string) (level : Level) (g : Rng) (q : Question) (name : string) (v : Q) :
  unit_draws g ->
  fst (generate_question shape level g) = Some q ->
  (name, v) ∈ q_given q ->
  exists z : Z, (v * pow10 (decimal_places_of level) == inject_Z z)%Q.
Proof.
  intros Hg Hq Hin.
  pose proof (generated_params shape level g q Hg Hq) as Hall.
  rewrite Forall_forall in Hall.
  destruct (Hall (name, v) Hin) as (lo & hi & _ & _ & _ & Hgrid).
  eexists. exact Hgrid.
Qed.

Lemma generated_params_precision_witness :
  exists z : Z, ((500 # 100) * pow10 (decimal_places_of expert) == inject_Z z)%Q.
Proof.
  apply (generated_params_precision "circle" expert quarter_draws pizza_question "radius").
  - intros n; split; [discriminate | reflexivity].
  - reflexivity.
  - apply list_elem_of_here.
Defined.

(** ** The narrative of expert questions *)

Lemma choice_elem {A} (l : list A) (g : Rng) :
  l <> [] -> (0 <= g 0%nat)%Q -> (g 0%nat < 1)%Q ->
  exists x, fst (choice l g) = Some x /\ x ∈ l.
Proof.
  intros Hne Hu0 Hu1. unfold choice, rbind, random, rret. cbn [fst].
  set (n := Z.of_nat (length l)).
  assert (Hn : 0 < n) by (subst n; destruct l; [congruence | cbn [length]; lia]).
  assert (Hnq : (0 < inject_Z n)%Q) by (change 0%Q with (inject_Z 0); now rewrite <- Zlt_Qlt).
  assert (H0 : 0 <= Qfloor (g 0%nat * inject_Z n)).
  { rewrite <- (Qfloor_Z 0). apply Qfloor_resp_le.
    apply Qmult_le_0_compat; [exact Hu0 | now apply Qlt_le_weak]. }
  assert (H1 : Qfloor (g 0%nat * inject_Z n) < n).
  { rewrite Zlt_Qlt. apply Qle_lt_trans with (g 0%nat * inject_Z n)%Q; [apply Qfloor_le|].
    rewrite <- (Qmult_1_l (inject_Z n)) at 2.
    now apply Qmult_lt_compat_r. }
  destruct (lookup_lt_is_Some_2 l (Z.to_nat (Qfloor (g 0%nat * inject_Z n)))) as [x Hx];
    [subst n; lia|].
  exists x. split; [exact Hx | exact (list_elem_of_lookup_2 _ _ _ Hx)].
Qed.

Lemma contexts_nonempty (shape : string) : contexts shape <> [].
Proof.
  unfold contexts.
  repeat match goal with |- context [if ?b then _ else _] => destruct b end; discriminate.
Qed.

(** X9. A generated expert question carries one of the narratives listed for
    its shape; a beginner or intermediate question carries none. *)
Theorem generated_context_by_level
    (shape : string) (level : Level) (g : Rng) (q : Question) :
  unit_draws g ->
  fst (generate_question shape level g) = Some q ->
  match level with
  | expert => exists c, q_context q = Some c /\ c ∈ contexts shape
  | _ => q_context q = None
  end.
Proof.
  intros Hg. unfold generate_question.
  destruct level.
  - cbv beta iota delta [rbind rret]. case_shape shape;
      repeat match goal with
             | |- context [let (_, _) := draw_param ?a ?b ?c ?d in _] =>
                 destruct (draw_param a b c d) as [? ?]
             end; cbn [fst]; intros Hq; try discriminate Hq; now injection Hq as <-.
  - cbv beta iota delta [rbind rret]. case_shape shape;
      repeat match goal with
             | |- context [let (_, _) := draw_param ?a ?b ?c ?d in _] =>
                 destruct (draw_param a b c d) as [? ?]
             end; cbn [fst]; intros Hq; try discriminate Hq; now injection Hq as <-.
  - destruct (choice_elem (contexts shape) g (contexts_nonempty shape)
                (proj1 (Hg 0%nat)) (proj2 (Hg 0%nat))) as (c & Hc & Hin).
    unfold get_real_world_context. cbv beta iota delta [rbind rret].
    destruct (choice (contexts shape) g) as [ctx g1]. cbn [fst] in Hc. subst ctx.
    case_shape shape;
      repeat match goal with
             | |- context [let (_, _) := draw_param ?a ?b ?c ?d in _] =>
                 destruct (draw_param a b c d) as [? ?]
             end; cbn [fst]; intros Hq; try discriminate Hq; injection Hq as <-;
      exists c; (split; [reflexivity | exact Hin]).
Qed.

Lemma generated_context_by_level_witness :
  exists c, q_context pizza_question = Some c /\ c ∈ contexts "circle".
Proof.
  apply (generated_context_by_level "circle" expert quarter_draws pizza_question).
  - intros n; split; [discriminate | reflexivity].
  - reflexivity.
Defined.

(** ** The practice page *)

Lemma index_in_level (level : Level) :
  index_in LEVEL_ORDER level = Some (level_index level).
Proof. destruct level; reflexivity. Qed.

Lemma practice_run (shape_name : string) (g : Rng) (s : Session) (i : string)
    (p : Progress) (sp : ShapeProgress) :
  student_id s = Some i -> progress s = Some p -> shapes p !! shape_name = Some sp ->
  practice shape_name g s =
  (Page "practice.html",
   set_current_question (fst (generate_question shape_name (current_level sp) g)) s).
Proof.
  intros Hid Hp Hsp. unfold practice, run_handler, require_session.
  cbv beta iota delta [bind get]. rewrite Hid.
  rewrite (init_progress_present s p Hp).
  cbv beta iota delta [session_progress bind get ret shape_of]. rewrite Hp, Hsp.
  rewrite index_in_level. cbv beta iota delta [modify].
  erewrite check_level_progress_run; [reflexivity | exact Hp | exact Hsp].
Qed.

Lemma practice_missing (shape_name : string) (g : Rng) (s : Session) (i : string)
    (p : Progress) :
  student_id s = Some i -> progress s = Some p -> shapes p !! shape_name = None ->
  practice shape_name g s = (ServerError KeyError, s).
Proof.
  intros Hid Hp Hsp. unfold practice, run_handler, require_session.
  cbv beta iota delta [bind get]. rewrite Hid.
  rewrite (init_progress_present s p Hp).
  cbv beta iota delta [session_progress bind get ret raise shape_of]. rewrite Hp, Hsp.
  reflexivity.
Qed.

Lemma generate_question_some (shape : string) (level : Level) (g : Rng) :
  shape ∈ SHAPES ->
  exists q, fst (generate_question shape level g) = Some q
            /\ q_shape q = shape /\ q_level q = level /\ q_user_answer q = None.
Proof.
  intros Hin. apply shape_in_SHAPES in Hin.
  unfold generate_question, rbind, rret.
  match goal with
  | |- context [let (_, _) := ?setting in _] =>
      destruct setting as [[[ranges decimal_places] context] g']
  end.
  case_shape shape; subst;
    repeat match goal with
           | |- context [let (_, _) := draw_param ?a ?b ?c ?d in _] =>
               destruct (draw_param a b c d) as [? ?]
           end; cbn [fst]; [eexists; repeat split ..|].
  exfalso. destruct Hin as [?|[?|[?|?]]]; congruence.
Qed.

Lemma reachable_dom (f : string -> option Q) (s : Session) (p : Progress) (shape : string) :
  reachable f s -> progress s = Some p ->
  shape ∈ SHAPES <-> is_Some (shapes p !! shape).
Proof.
  intros Hreach Hp.
  destruct (reachable_wf f s p Hreach Hp) as (_ & Hdom & _).
  rewrite <- elem_of_dom, Hdom, elem_of_list_to_set. reflexivity.
Qed.

(** X10. In a reachable session of an identified visitor, the practice page
    of one of the four shapes is rendered and stores a fresh, unanswered
    question for that shape at the shape's current level, leaving the
    progress record as it was. *)
Theorem practice_stores_question_at_current_level
    (f : string -> option Q) (shape_name : string) (g : Rng)
    (s : Session) (i : string) (p : Progress) :
  reachable f s -> student_id s = Some i -> progress s = Some p ->
  shape_name ∈ SHAPES ->
  exists sp q,
    shapes p !! shape_name = Some sp
    /\ practice shape_name g s = (Page "practice.html", set_current_question (Some q) s)
    /\ q_shape q = shape_name
    /\ q_level q = current_level sp
    /\ q_user_answer q = None.
Proof.
  intros Hreach Hid Hp Hin.
  destruct (proj1 (reachable_dom f s p shape_name Hreach Hp) Hin) as [sp Hsp].
  destruct (generate_question_some shape_name (current_level sp) g Hin)
    as (q & Hq & Hshape & Hlevel & Hans).
  exists sp, q. split; [exact Hsp|].
  split; [|auto].
  rewrite (practice_run shape_name g s i p sp Hid Hp Hsp). now rewrite Hq.
Qed.

Lemma practice_stores_question_at_current_level_witness :
  exists sp q,
    shapes fifth_progress !! "square"%string = Some sp
    /\ practice "square" quarter_draws fifth_round
       = (Page "practice.html", set_current_question (Some q) fifth_round)
    /\ q_shape q = "square"%string
    /\ q_level q = current_level sp
    /\ q_user_answer q = None.
Proof.
  destruct fifth_round_facts as (Hid & Hp & _).
  apply (practice_stores_question_at_current_level reject_strings "square" quarter_draws
           fifth_round "visitor" fifth_progress fifth_round_reachable Hid Hp).
  apply list_elem_of_here.
Defined.

(** X11. For a shape name that has no entry in the progress record, the
    reset of that shape changes nothing and still redirects to the practice
    page, and the practice page then fails with a [KeyError], a 500, leaving
    the session as it was. *)
Theorem unknown_shape_reset_then_practice_fails
    (shape_name : string) (g : Rng) (s : Session) (i : string) (p : Progress) :
  student_id s = Some i -> progress s = Some p -> shapes p !! shape_name = None ->
  reset_shape shape_name s = (Redirect "practice", s)
  /\ practice shape_name g s = (ServerError KeyError, s)
  /\ status (fst (practice shape_name g s)) = 500.
Proof.
  intros Hid Hp Hsp.
  pose proof (practice_missing shape_name g s i p Hid Hp Hsp) as Hpr.
  split; [|split; [exact Hpr | now rewrite Hpr]].
  unfold reset_shape, run_handler, require_session. run_m.
  rewrite Hid, Hp, Hp, Hsp. reflexivity.
Qed.

Lemma unknown_shape_reset_then_practice_fails_witness :
  reset_shape "hexagon" fifth_round = (Redirect "practice", fifth_round)
  /\ practice "hexagon" quarter_draws fifth_round = (ServerError KeyError, fifth_round).
Proof.
  destruct fifth_round_facts as (Hid & Hp & _).
  assert (Hsp : shapes fifth_progress !! "hexagon"%string = None)
    by (vm_compute; reflexivity).
  destruct (unknown_shape_reset_then_practice_fails "hexagon" quarter_draws fifth_round
              "visitor" fifth_progress Hid Hp Hsp) as (H1 & H2 & _).
  split; assumption.
Defined.

(** X12. In a reachable session of an identified visitor, the shape detail
    endpoint answers 200 for each of the four shapes and 404 for every other
    name, and leaves the session as it was. *)
Theorem get_shape_progress_404_iff_unknown
    (f : string -> option Q) (shape_name : string)
    (s : Session) (i : string) (p : Progress) :
  reachable f s -> student_id s = Some i -> progress s = Some p ->
  get_shape_progress shape_name s =
  (if bool_decide (shape_name ∈ SHAPES) then JsonData else JsonError 404 ShapeNotFound, s).
Proof.
  intros Hreach Hid Hp.
  pose proof (reachable_dom f s p shape_name Hreach Hp) as Hdom.
  unfold get_shape_progress, run_handler, require_session, get_progress_data.
  cbv beta iota delta [bind get]. rewrite Hid.
  rewrite (init_progress_present s p Hp).
  cbv beta iota delta [session_progress bind get ret]. rewrite Hp.
  destruct (shapes p !! shape_name) as [sp|] eqn:Hsp.
  - rewrite bool_decide_eq_true_2; [reflexivity|]. apply Hdom. eauto.
  - rewrite bool_decide_eq_false_2; [reflexivity|].
    intros Hin. apply Hdom in Hin. destruct Hin as [? [=]].
Qed.

Lemma get_shape_progress_404_iff_unknown_witness :
  get_shape_progress "hexagon" fifth_round = (JsonError 404 ShapeNotFound, fifth_round).
Proof.
  destruct fifth_round_facts as (Hid & Hp & _).
  exact (get_shape_progress_404_iff_unknown reject_strings "hexagon" fifth_round
           "visitor" fifth_progress fifth_round_reachable Hid Hp).
Defined.

(** X13. Whatever the session held, after a full reset and a new visit of
    the index page the visitor has the initial progress record and no
    pending question.  An answer submitted then changes nothing; it is
    answered 400, no active question, exactly when its body is readable as
    a number, as every JSON real is and every JSON integer within the range
    of a double; an integer beyond that range is answered 500. *)
Theorem reset_then_index_starts_over
    (f : string -> option Q) (s : Session) (token : string) (body : option json) :
  let s' := snd (index token (snd (reset s))) in
  s' = {| student_id := Some token; progress := Some initial_progress;
          current_question := None; current_shape := None |}
  /\ snd (submit_answer f body s') = s'
  /\ fst (submit_answer f body s') =
     match fst (read_user_answer f body empty_session) with
     | Ok _ => JsonError 400 NoActiveQuestion
     | Raise ValueError => JsonError 400 InvalidNumber
     | Raise e => JsonError 500 (Unexpected e)
     end
  /\ (forall x : Q,
        submit_answer f (answer_body x) s' = (JsonError 400 NoActiveQuestion, s'))
  /\ (forall n : Z,
        submit_answer f (Some (JObj [("user_answer"%string, JInt n)])) s'
        = (if float_overflows n then JsonError 500 (Unexpected OverflowError)
           else JsonError 400 NoActiveQuestion, s')).
Proof.
  intros s'.
  assert (E : s' = {| student_id := Some token; progress := Some initial_progress;
                      current_question := None; current_shape := None |})
    by reflexivity.
  assert (Hid : student_id s' = Some token) by (rewrite E; reflexivity).
  assert (Hq : current_question s' = None) by (rewrite E; reflexivity).
  clearbody s'.
  assert (Hread : forall b x, fst (read_user_answer f b empty_session) = Ok x ->
                    submit_answer f b s' = (JsonError 400 NoActiveQuestion, s')).
  { intros b x Hx. apply (submit_answer_no_question f b s' token x Hid Hq).
    rewrite read_user_answer_state. now rewrite Hx. }
  split; [exact E|].
  assert (Hrun : submit_answer f body s' =
                 (match fst (read_user_answer f body empty_session) with
                  | Ok _ => JsonError 400 NoActiveQuestion
                  | Raise ValueError => JsonError 400 InvalidNumber
                  | Raise e => JsonError 500 (Unexpected e)
                  end, s')).
  { destruct (fst (read_user_answer f body empty_session)) as [x|e] eqn:Hx.
    - exact (Hread body x Hx).
    - rewrite (submit_answer_unreadable f body s' token e Hid Hx). now destruct e. }
  split; [now rewrite Hrun|]. split; [now rewrite Hrun|]. split.
  - intros x. exact (Hread (answer_body x) x eq_refl).
  - intros n.
    assert (Hx : fst (read_user_answer f (Some (JObj [("user_answer"%string, JInt n)]))
                        empty_session)
                 = if float_overflows n then Raise OverflowError else Ok (inject_Z n)).
    { unfold read_user_answer, get_json, getitem, py_float. run_m.
      cbn [assoc_last]. change ("user_answer" =? "user_answer")%string with true.
      cbv iota beta. destruct (float_overflows n); reflexivity. }
    destruct (float_overflows n).
    + exact (submit_answer_unreadable f _ s' token OverflowError Hid Hx).
    + exact (Hread _ (inject_Z n) Hx).
Qed.

(** ** Re-submitting an answered question *)

Lemma accuracy_mono (c a : Z) :
  0 < a -> c <= a ->
  (inject_Z c / inject_Z a <= inject_Z (c + 1) / inject_Z (a + 1))%Q.
Proof.
  intros Ha Hca.
  assert (Hqa : (0 < inject_Z a)%Q) by (change 0%Q with (inject_Z 0); now rewrite <- Zlt_Qlt).
  assert (Hqa1 : (0 < inject_Z (a + 1))%Q)
    by (change 0%Q with (inject_Z 0); rewrite <- Zlt_Qlt; lia).
  apply Qle_shift_div_l; [exact Hqa1|].
  unfold Qdiv. rewrite <- Qmult_assoc, (Qmult_comm (/ inject_Z a)), Qmult_assoc.
  apply Qle_shift_div_r; [exact Hqa|].
  rewrite <- !inject_Z_mult, <- Zle_Qle. nia.
Qed.

Lemma record_in_shape_correct (level : Level) (question_data : Question)
    (sp : ShapeProgress) :
  correct (get_level (levels (record_in_shape level true question_data sp)) level)
  = correct (get_level (levels sp) level) + 1.
Proof.
  unfold record_in_shape. cbn [levels]. rewrite get_set_level_eq. reflexivity.
Qed.

Lemma advance_shape_current (sp : ShapeProgress) :
  current_level (fst (advance_shape sp))
  = default (current_level sp) (next_level (current_level sp)).
Proof. unfold advance_shape. destruct (current_level sp); reflexivity. Qed.

(** X14. If a correct answer advances the level and the same question, still
    pending, is answered correctly once more, the level advances a second
    time: the level entered by the first advancement is marked completed
    although the question belongs to the earlier level. *)
Theorem resubmission_advances_again
    (f : string -> option Q) (body body2 : option json) (s : Session) (i : string)
    (p : Progress) (q : Question) (sp : ShapeProgress) (x x2 : Q) :
  student_id s = Some i ->
  progress s = Some p ->
  current_question s = Some q ->
  shapes p !! q_shape q = Some sp ->
  read_user_answer f body s = (Ok x, s) ->
  read_user_answer f body2 s = (Ok x2, s) ->
  correct (get_level (levels sp) (q_level q)) <= attempts (get_level (levels sp) (q_level q)) ->
  is_correct_of (answer_error x2 (q_correct_answer q)) = true ->
  let first := submit_answer f body s in
  let second := submit_answer f body2 (snd first) in
  level_advances (fst first) ->
  level_advances (fst second)
  /\ exists p'' sp'',
       progress (snd second) = Some p''
       /\ shapes p'' !! q_shape q = Some sp''
       /\ completed (get_level (levels sp'')
                       (default (current_level sp) (next_level (current_level sp)))) = true.
Proof.
  intros Hid Hp Hq Hsp Hx Hx2 Hle Hc2 first second Hadv.
  destruct (submit_answer_ok f body s i p q sp x Hid Hp Hq Hsp Hx)
    as (resp & Hrun & _ & _ & _ & Hup & _).
  subst second first. rewrite Hrun in Hadv |- *. cbn [fst snd] in Hadv |- *.
  unfold level_advances in Hadv. cbn [level_up_of] in Hadv. rewrite Hup in Hadv.
  set (ic := is_correct_of (answer_error x (q_correct_answer q))) in *.
  set (q' := with_user_answer q x) in *.
  set (sp2 := record_in_shape (q_level q) ic q' sp) in *.
  set (p2 := record_answer (q_shape q) (q_level q) ic q' p sp) in *.
  destruct ic eqn:Eic; [|now contradiction Hadv].
  destruct (can_advance (level_status (get_level (levels sp2) (q_level q))
                           (LEVELS (q_level q)))) eqn:Eadv;
    [|now contradiction Hadv].
  cbn [andb] in *. clear Hadv.
  apply can_advance_iff in Eadv as [Hn Hacc].
  set (sp' := fst (advance_shape sp2)) in *.
  set (s1 := set_progress (set_shape (q_shape q) sp' p2)
               (set_current_question (Some q') s)).
  assert (Hsp' : shapes (set_shape (q_shape q) sp' p2) !! q_shape q' = Some sp')
    by (cbn [set_shape shapes q' with_user_answer q_shape]; apply lookup_insert_eq).
  assert (Hx2' : read_user_answer f body2 s1 = (Ok x2, s1)).
  { rewrite read_user_answer_state in Hx2. injection Hx2 as Hx2.
    rewrite read_user_answer_state. now rewrite Hx2. }
  destruct (submit_answer_ok f body2 s1 i (set_shape (q_shape q) sp' p2) q' sp' x2
              Hid eq_refl eq_refl Hsp' Hx2')
    as (resp2 & Hrun2 & _ & _ & _ & Hup2 & _).
  unfold q' in Hrun2, Hup2.
  cbn [with_user_answer q_correct_answer q_level q_shape] in Hrun2, Hup2.
  rewrite Hc2 in Hrun2, Hup2. cbn [andb] in Hrun2, Hup2.
  set (q2 := with_user_answer (with_user_answer q x) x2) in *.
  set (sp3 := record_in_shape (q_level q) true q2 sp') in *.
  assert (Eadv2 : can_advance (level_status (get_level (levels sp3) (q_level q))
                                 (LEVELS (q_level q))) = true).
  { apply can_advance_iff.
    destruct (advance_shape_counts sp2 (q_level q)) as [Ha Hc].
    fold sp' in Ha, Hc.
    pose proof (record_in_shape_counts (q_level q) true q2 sp') as Ha3.
    pose proof (record_in_shape_correct (q_level q) q2 sp') as Hc3.
    pose proof (record_in_shape_counts (q_level q) true q' sp) as Ha2.
    pose proof (record_in_shape_correct (q_level q) q' sp) as Hc2'.
    fold sp3 in Ha3, Hc3. fold sp2 in Ha2, Hc2'.
    rewrite Ha3, Hc3, Ha, Hc, Ha2, Hc2'.
    rewrite Ha2 in Hn, Hacc. rewrite Hc2' in Hacc.
    split; [lia|].
    eapply Qle_trans; [exact Hacc|].
    assert (Hreq : forall l, questions_required (LEVELS l) = 5)
      by (intros l; destruct l; reflexivity).
    rewrite Hreq in Hn.
    apply accuracy_mono; lia. }
  rewrite Eadv2 in Hrun2, Hup2.
  rewrite Hrun2. cbn [fst snd]. split.
  - unfold level_advances. cbn [level_up_of]. rewrite Hup2. discriminate.
  - eexists _, _. split; [reflexivity|].
    split; [cbn [set_shape shapes]; apply lookup_insert_eq|].
    change (default (current_level sp) (next_level (current_level sp)))
      with (default (current_level sp2) (next_level (current_level sp2))).
    rewrite <- (advance_shape_current sp2).
    fold sp'. replace (current_level sp') with (current_level sp3) by reflexivity.
    apply advance_shape_completed.
Qed.

Lemma resubmission_advances_again_witness :
  let first := submit_answer reject_strings (answer_body 16) fifth_round in
  let second := submit_answer reject_strings (answer_body 16) (snd first) in
  level_advances (fst second).
Proof.
  intros first second.
  destruct fifth_round_facts as (Hid & Hp & Hq & Hsp).
  refine (proj1 (resubmission_advances_again reject_strings (answer_body 16) (answer_body 16)
                   fifth_round "visitor" fifth_progress square_question fifth_square 16 16
                   Hid Hp Hq Hsp _ _ _ _ _)).
  - vm_compute; reflexivity.
  - vm_compute; reflexivity.
  - vm_compute; discriminate.
  - vm_compute; reflexivity.
  - unfold level_advances. vm_compute. discriminate.
Defined.

(** ** The tutor's responses *)

Lemma tutor_pool_nonempty (category : string) :
  default tutor_correct (AI_TUTOR category) <> [].
Proof.
  unfold AI_TUTOR.
  repeat match goal with |- context [if ?b then _ else _] => destruct b end; discriminate.
Qed.

(** X15. With a draw in [0, 1), [get_ai_response] always returns a message,
    taken from the pool of the requested category, or from the pool of
    [correct] when the category is unknown; every category the handlers ask
    for has a pool of its own, and the greeting of a level is the entry of
    [start_level] at the level's position, chosen without a random draw. *)
Theorem get_ai_response_from_pool (category : string) (level_index0 : nat) (g : Rng) :
  (0 <= g 0%nat)%Q -> (g 0%nat < 1)%Q ->
  (exists m,
     fst (get_ai_response category level_index0 g) = Some m
     /\ m ∈ default tutor_correct (AI_TUTOR category))
  /\ (forall c, is_Some (AI_TUTOR (category_name c)))
  /\ (forall level,
        get_ai_response "start_level" (level_index level) g
        = (tutor_start_level !! level_index level, g)
        /\ is_Some (tutor_start_level !! level_index level)).
Proof.
  intros Hu0 Hu1. split; [|split].
  - unfold get_ai_response.
    destruct ((category =? "start_level")%string
              && (level_index0 <? length (default tutor_correct (AI_TUTOR category)))%nat)
      eqn:E.
    + apply andb_true_iff in E as [_ Hlt]. apply Nat.ltb_lt in Hlt.
      destruct (lookup_lt_is_Some_2 _ _ Hlt) as [m Hm].
      exists m. unfold rret. cbn [fst]. split; [exact Hm|].
      exact (list_elem_of_lookup_2 _ _ _ Hm).
    + exact (choice_elem _ g (tutor_pool_nonempty category) Hu0 Hu1).
  - intros c. destruct c; cbn; eauto.
  - intros level. destruct level; split; cbn; eauto.
Qed.

Lemma get_ai_response_from_pool_witness :
  exists m,
    fst (get_ai_response "no such category" 0 quarter_draws) = Some m
    /\ m ∈ tutor_correct.
Proof.
  refine (proj1 (get_ai_response_from_pool "no such category" 0 quarter_draws _ _)).
  - discriminate.
  - reflexivity.
Defined.

(** ** The progress summary *)

Lemma percent_between (c a : Z) :
  0 <= c -> c <= a -> 0 < a ->
  (inject_Z 0 <= inject_Z c / inject_Z a * 100)%Q
  /\ (inject_Z c / inject_Z a * 100 <= inject_Z 100)%Q.
Proof.
  intros Hc Hca Ha.
  assert (Hqa : (0 < inject_Z a)%Q) by (change 0%Q with (inject_Z 0); now rewrite <- Zlt_Qlt).
  assert (H0 : (0 <= inject_Z c / inject_Z a)%Q).
  { apply Qle_shift_div_l; [exact Hqa|]. rewrite Qmult_0_l.
    change 0%Q with (inject_Z 0). now rewrite <- Zle_Qle. }
  assert (H1 : (inject_Z c / inject_Z a <= 1)%Q).
  { apply Qle_shift_div_r; [exact Hqa|]. rewrite Qmult_1_l. now rewrite <- Zle_Qle. }
  split.
  - change (inject_Z 0) with 0%Q. apply Qmult_le_0_compat; [exact H0 | discriminate].
  - change (inject_Z 100) with (1 * 100)%Q.
    apply Qmult_le_compat_r; [exact H1 | discriminate].
Qed.

Lemma level_accuracy_between (d : LevelData) :
  level_data_ok d -> 0 <= level_accuracy d <= 100.
Proof.
  intros (H0 & Hle & _). unfold level_accuracy.
  destruct (0 <? attempts d) eqn:E; [|lia].
  apply Z.ltb_lt in E.
  destruct (percent_between (correct d) (attempts d) H0 Hle E) as [Hlo Hhi].
  now apply round_half_even_between.
Qed.

Lemma overall_accuracy_between (p : Progress) :
  counters_ok p -> (0 <= overall_accuracy p)%Q /\ (overall_accuracy p <= 100)%Q.
Proof.
  intros (Hsum & Hc & Hw & _). unfold overall_accuracy.
  destruct (0 <? total_attempts p) eqn:E; [|split; discriminate].
  apply Z.ltb_lt in E.
  destruct (percent_between (correct_answers p) (total_attempts p)) as [Hlo Hhi];
    [lia | lia | lia |].
  apply py_round_between; try assumption; vm_compute; reflexivity.
Qed.

Lemma NoDup_SHAPES : NoDup SHAPES.
Proof.
  unfold SHAPES.
  repeat (apply NoDup_cons; split;
          [intros H; repeat (apply elem_of_cons in H as [H|H]; [discriminate H|]);
           now apply elem_of_nil in H|]).
  apply NoDup_nil_2.
Qed.

(** X16. For the record of a reachable session, the summary built by
    [get_progress_data] reports an overall accuracy and per-level accuracies
    between 0 and 100, lists exactly the four shapes, counts at most four
    mastered shapes and shows at most the last ten history entries. *)
Theorem progress_data_bounds (f : string -> option Q) (s : Session) (p : Progress) :
  reachable f s -> progress s = Some p ->
  let d := progress_data p in
  (0 <= pd_accuracy d)%Q /\ (pd_accuracy d <= 100)%Q
  /\ (forall shape v level,
        pd_shapes d !! shape = Some v ->
        0 <= v_accuracy (sv_levels v level) <= 100)
  /\ dom (pd_shapes d) = list_to_set SHAPES
  /\ (pd_shapes_mastered d <= 4)%nat
  /\ (length (pd_history d) <= 10)%nat.
Proof.
  intros Hreach Hp d.
  destruct (reachable_wf f s p Hreach Hp) as (Hcnt & Hdom & Hshapes).
  destruct (overall_accuracy_between p Hcnt) as [Ha0 Ha1].
  split; [exact Ha0|]. split; [exact Ha1|]. split; [|split; [|split]].
  - intros shape v level. subst d. cbn [progress_data pd_shapes].
    rewrite lookup_fmap. destruct (shapes p !! shape) as [sp|] eqn:Hsp; [|discriminate].
    intros [= <-]. cbn [shape_view sv_levels level_view v_accuracy].
    apply level_accuracy_between. destruct (Hshapes shape sp Hsp) as [Hdata _].
    apply Hdata.
  - subst d. cbn [progress_data pd_shapes]. rewrite dom_fmap_L. exact Hdom.
  - subst d. cbn [progress_data pd_shapes_mastered].
    etransitivity; [apply length_filter|].
    rewrite length_map_to_list, <- size_dom, Hdom.
    rewrite size_list_to_set by apply NoDup_SHAPES. reflexivity.
  - subst d. cbn [progress_data pd_history]. rewrite length_drop. lia.
Qed.

Lemma progress_data_bounds_witness :
  (0 <= pd_accuracy (progress_data fifth_progress))%Q
  /\ (pd_accuracy (progress_data fifth_progress) <= 100)%Q.
Proof.
  destruct fifth_round_facts as (_ & Hp & _).
  destruct (progress_data_bounds reject_strings fifth_round fifth_progress
              fifth_round_reachable Hp) as (H0 & H1 & _).
  split; assumption.
Defined.

(** ** The session guard *)

Lemma redirect_without_identity
    (f : string -> option Q) (r : Request) (s : Session) :
  student_id s = None -> needs_session r = true ->
  handle f r s = (Redirect "index", s).
Proof.
  intros Hid Hr. destruct r; try discriminate Hr; cbn [handle];
    unfold start, learn, practice, submit_answer, submit_answer_m, get_progress,
      get_shape_progress, results, reset_shape, run_handler, require_session;
    cbv beta iota delta [bind get]; rewrite Hid; reflexivity.
Qed.

(** X17. Without a visitor identity in the session, every handler except
    the index page and the full reset answers with a redirect to the index
    page and leaves the session untouched. *)
Theorem unidentified_visitor_is_redirected
    (f : string -> option Q) (r : Request) (s : Session) :
  student_id s = None -> needs_session r = true ->
  handle f r s = (Redirect "index", s) /\ status (fst (handle f r s)) = 302.
Proof.
  intros Hid Hr. rewrite (redirect_without_identity f r s Hid Hr). now split.
Qed.

Lemma unidentified_visitor_is_redirected_witness :
  handle reject_strings (ReqSubmit (answer_body 16)) empty_session
  = (Redirect "index", empty_session).
Proof.
  exact (proj1 (unidentified_visitor_is_redirected reject_strings
                  (ReqSubmit (answer_body 16)) empty_session eq_refl eq_refl)).
Defined.

(** ** Coherence of reachable sessions *)

Lemma generate_question_shape (shape : string) (level : Level) (g : Rng) (q : Question) :
  fst (generate_question shape level g) = Some q -> q_shape q ∈ SHAPES.
Proof.
  unfold generate_question, rbind, rret.
  match goal with
  | |- context [let (_, _) := ?setting in _] =>
      destruct setting as [[[ranges decimal_places] context] g']
  end.
  case_shape shape; subst;
    repeat match goal with
           | |- context [let (_, _) := draw_param ?a ?b ?c ?d in _] =>
               destruct (draw_param a b c d) as [? ?]
           end; cbn [fst]; intros Hq; try discriminate Hq; injection Hq as <-;
    cbn [q_shape]; apply shape_in_SHAPES; tauto.
Qed.

Lemma coherent_same (s s' : Session) :
  student_id s' = student_id s -> current_question s' = current_question s ->
  (is_Some (progress s) -> is_Some (progress s')) ->
  (student_id s = None -> progress s' = None) ->
  session_coherent s -> session_coherent s'.
Proof.
  intros Eid Eq Hp Hn (Hq & Hsome & Hnone). unfold session_coherent.
  rewrite Eid, Eq. split; [exact Hq|]. split.
  - intros Hi. apply Hp, Hsome, Hi.
  - intros Hi. split; [apply (Hnone Hi) | apply Hn, Hi].
Qed.

Lemma handle_coherent (f : string -> option Q) (r : Request) (s : Session) :
  reachable f s -> session_coherent s -> session_coherent (snd (handle f r s)).
Proof.
  intros Hreach Hco.
  destruct (student_id s) as [i|] eqn:Hid.
  2: { destruct (needs_session r) eqn:Hr.
       - now rewrite (redirect_without_identity f r s Hid Hr).
       - destruct Hco as (_ & _ & Hnone). destruct (Hnone Hid) as [Hq Hp].
         destruct r; try discriminate Hr; cbn [handle].
         + unfold index, run_handler. cbv beta iota delta [bind get]. rewrite Hid.
           cbv beta iota delta [bind modify].
           rewrite (init_progress_absent (set_student_id token s)) by exact Hp.
           cbn. unfold session_coherent. cbn. rewrite Hq.
           repeat split; try discriminate; eauto.
         + unfold reset, run_handler. cbn.
           repeat split; try discriminate. intros [? [=]]. }
  pose proof Hco as (Hq & Hsome & Hnone).
  destruct (Hsome (ex_intro _ i Hid)) as [p Hp].
  assert (Hkeep : forall s', student_id s' = student_id s ->
                    current_question s' = current_question s ->
                    is_Some (progress s') -> session_coherent s').
  { intros s' E1 E2 E3. apply (coherent_same s s'); auto.
    rewrite Hid. discriminate. }
  destruct r; cbn [handle].
  - unfold index, run_handler. cbv beta iota delta [bind get ret]. rewrite Hid. exact Hco.
  - unfold start, run_handler. cbv beta iota delta [bind get ret]. rewrite Hid.
    rewrite (init_progress_present s p Hp). exact Hco.
  - unfold learn. rewrite (handler_with_session _ s i Hid). unfold run_handler.
    cbv beta iota delta [bind modify get_progress_data].
    rewrite (init_progress_present (set_current_shape shape_name s) p Hp).
    cbv beta iota delta [session_progress bind get ret].
    cbn [set_current_shape progress]. rewrite Hp. cbn [snd].
    apply Hkeep; cbn; eauto.
  - destruct (shapes p !! shape_name) as [sp|] eqn:Hsp.
    + rewrite (practice_run shape_name g s i p sp Hid Hp Hsp). cbn [snd].
      unfold session_coherent. cbn [set_current_question current_question student_id progress].
      rewrite Hid, Hp. repeat split; try discriminate; eauto.
      intros q0 Hq0. exact (generate_question_shape _ _ _ _ Hq0).
    + now rewrite (practice_missing shape_name g s i p Hid Hp Hsp).
  - destruct (fst (read_user_answer f body empty_session)) as [x|e] eqn:Hx.
    2: { now rewrite (submit_answer_unreadable f body s i e Hid Hx). }
    assert (Hx' : read_user_answer f body s = (Ok x, s))
      by (rewrite read_user_answer_state; now rewrite Hx).
    destruct (current_question s) as [q|] eqn:Hq0.
    2: { now rewrite (submit_answer_no_question f body s i x Hid Hq0 Hx'). }
    destruct (proj1 (reachable_dom f s p (q_shape q) Hreach Hp) (Hq q eq_refl)) as [sp Hsp].
    destruct (submit_answer_ok f body s i p q sp x Hid Hp Hq0 Hsp Hx') as (resp & Hrun & _).
    rewrite Hrun. cbn [snd]. unfold session_coherent.
    cbn [set_progress set_current_question current_question student_id progress].
    rewrite Hid. repeat split; try discriminate; eauto.
    intros q0 [= <-]. cbn [with_user_answer q_shape]. exact (Hq q eq_refl).
  - unfold get_progress. rewrite (handler_with_session _ s i Hid). unfold run_handler.
    unfold get_progress_data. cbv beta iota delta [bind].
    rewrite (init_progress_present s p Hp).
    cbv beta iota delta [session_progress bind get ret]. rewrite Hp. exact Hco.
  - unfold get_shape_progress. rewrite (handler_with_session _ s i Hid). unfold run_handler.
    unfold get_progress_data. cbv beta iota delta [bind].
    rewrite (init_progress_present s p Hp).
    cbv beta iota delta [session_progress bind get ret]. rewrite Hp.
    destruct (shapes p !! shape_name); exact Hco.
  - unfold results. rewrite (handler_with_session _ s i Hid). unfold run_handler.
    unfold get_progress_data. cbv beta iota delta [bind].
    rewrite (init_progress_present s p Hp).
    cbv beta iota delta [session_progress bind get ret]. rewrite Hp. exact Hco.
  - unfold reset, run_handler. cbn.
    repeat split; try discriminate. intros [? [=]].
  - unfold reset_shape. rewrite (handler_with_session _ s i Hid). unfold run_handler.
    cbv beta iota delta [bind]. rewrite (init_progress_present s p Hp).
    cbv beta iota delta [session_progress bind get ret modify]. rewrite Hp.
    destruct (shapes p !! shape_name); cbn [snd]; [|exact Hco].
    apply Hkeep; cbn; eauto.
Qed.

Lemma reachable_coherent (f : string -> option Q) (s : Session) :
  reachable f s -> session_coherent s.
Proof.
  induction 1 as [|s r Hreach IH].
  - repeat split; try discriminate. intros [? [=]].
  - now apply handle_coherent.
Qed.

(** X18. In a reachable session of an identified visitor the status of an
    answer submission is decided by the request body and the presence of a
    question alone: 200 for a readable number with a question pending, 400
    for a readable number without one and for a string that is no number,
    500 for every other unreadable body, among them an integer too large
    for a float.  In particular recording the answer never fails. *)
Theorem reachable_submit_status
    (f : string -> option Q) (body : option json) (s : Session) (i : string) :
  reachable f s -> student_id s = Some i ->
  status (fst (submit_answer f body s)) =
  match fst (read_user_answer f body empty_session) with
  | Ok _ => match current_question s with Some _ => 200 | None => 400 end
  | Raise ValueError => 400
  | Raise _ => 500
  end.
Proof.
  intros Hreach Hid.
  destruct (reachable_coherent f s Hreach) as (Hq & Hsome & _).
  destruct (Hsome (ex_intro _ i Hid)) as [p Hp].
  destruct (fst (read_user_answer f body empty_session)) as [x|e] eqn:Hx.
  2: { rewrite (submit_answer_unreadable f body s i e Hid Hx). now destruct e. }
  assert (Hx' : read_user_answer f body s = (Ok x, s))
    by (rewrite read_user_answer_state; now rewrite Hx).
  destruct (current_question s) as [q|] eqn:Hq0.
  2: { now rewrite (submit_answer_no_question f body s i x Hid Hq0 Hx'). }
  destruct (proj1 (reachable_dom f s p (q_shape q) Hreach Hp) (Hq q eq_refl)) as [sp Hsp].
  destruct (submit_answer_ok f body s i p q sp x Hid Hp Hq0 Hsp Hx') as (resp & Hrun & _).
  now rewrite Hrun.
Qed.

Lemma reachable_submit_status_witness :
  status (fst (submit_answer reject_strings (answer_body 16) fifth_round)) = 200
  /\ status (fst (submit_answer reject_strings
                    (Some (JObj [("user_answer"%string, JInt (10 ^ 400))])) fifth_round))
     = 500.
Proof.
  destruct fifth_round_facts as (Hid & _ & Hq & _).
  split.
  - pose proof (reachable_submit_status reject_strings (answer_body 16) fifth_round
                  "visitor" fifth_round_reachable Hid) as H.
    rewrite Hq in H. exact H.
  - assert (Hx : fst (read_user_answer reject_strings
                        (Some (JObj [("user_answer"%string, JInt (10 ^ 400))]))
                        empty_session)
                 = Raise OverflowError) by (vm_compute; reflexivity).
    pose proof (reachable_submit_status reject_strings
                  (Some (JObj [("user_answer"%string, JInt (10 ^ 400))])) fifth_round
                  "visitor" fifth_round_reachable Hid) as H.
    rewrite Hx in H. exact H.
Defined.

(** X19. In every reachable session an unidentified visitor has an empty
    progress entry and no pending question, an identified one has a
    progress record, and a pending question is about one of the four
    shapes. *)
Theorem reachable_session_coherent (f : string -> option Q) (s : Session) :
  reachable f s ->
  (forall q, current_question s = Some q -> q_shape q ∈ SHAPES)
  /\ (is_Some (student_id s) -> is_Some (progress s))
  /\ (student_id s = None -> current_question s = None /\ progress s = None).
Proof. apply reachable_coherent. Qed.

Lemma reachable_session_coherent_witness : q_shape square_question ∈ SHAPES.
Proof.
  destruct fifth_round_facts as (_ & _ & Hq & _).
  exact (proj1 (reachable_session_coherent reject_strings fifth_round fifth_round_reachable)
           square_question Hq).
Defined.

(** ** Three incorrect answers in a row *)

Lemma keep_last_ends {A} (n : nat) (l k : list A) :
  (length k <= n)%nat -> (exists pre, l = pre ++ k) ->
  exists pre, keep_last n l = pre ++ k.
Proof.
  intros Hn [pre ->]. unfold keep_last.
  destruct (n <? length (pre ++ k))%nat; [|eauto].
  rewrite length_app. exists (drop (length pre + length k - n) pre).
  rewrite drop_app_le by lia. reflexivity.
Qed.

Lemma record_in_level_ends (is_correct : bool) (question_data : Question)
    (d : LevelData) (k : list QuestionResult) :
  (length k < 20)%nat -> (exists pre, questions d = pre ++ k) ->
  exists pre,
    questions (record_in_level is_correct question_data d) =
    pre ++ k ++ [{| qr_correct := is_correct;
                    qr_user_answer := default 0%Q (q_user_answer question_data);
                    qr_correct_answer := q_correct_answer question_data |}].
Proof.
  intros Hlen [pre Hpre]. cbn [record_in_level questions].
  apply keep_last_ends; [rewrite length_app; cbn [length]; lia|].
  exists pre. now rewrite Hpre, app_assoc.
Qed.

(** X20. After [update_progress] has recorded three incorrect answers in a
    row for a (shape, level), [check_level_progress] reports [needs_help],
    whatever the counts and the log were before. *)
Theorem three_incorrect_answers_need_help
    (shape : string) (level : Level) (q1 q2 q3 : Question)
    (s : Session) (p : Progress) (sp : ShapeProgress) :
  progress s = Some p -> shapes p !! shape = Some sp ->
  let s1 := snd (update_progress shape level false q1 s) in
  let s2 := snd (update_progress shape level false q2 s1) in
  let s3 := snd (update_progress shape level false q3 s2) in
  exists st, check_level_progress shape level s3 = (Ok st, s3) /\ needs_help st = true.
Proof.
  intros Hp Hsp s1 s2 s3.
  assert (Hstep : forall (q0 : Question) (s0 : Session) (p0 : Progress) (sp0 : ShapeProgress),
             progress s0 = Some p0 -> shapes p0 !! shape = Some sp0 ->
             exists p1,
               snd (update_progress shape level false q0 s0) = set_progress p1 s0
               /\ shapes p1 !! shape = Some (record_in_shape level false q0 sp0)).
  { intros q0 s0 p0 sp0 Hp0 Hsp0.
    rewrite (update_progress_run shape level false q0 s0 p0 sp0 Hp0 Hsp0).
    eexists. split; [reflexivity|]. unfold record_answer. cbn [shapes].
    apply lookup_insert_eq. }
  destruct (Hstep q1 s p sp Hp Hsp) as (p1 & E1 & Hsp1).
  destruct (Hstep q2 s1 p1 _ ltac:(subst s1; now rewrite E1) Hsp1) as (p2 & E2 & Hsp2).
  destruct (Hstep q3 s2 p2 _ ltac:(subst s2; now rewrite E2) Hsp2) as (p3 & E3 & Hsp3).
  assert (Hp3 : progress s3 = Some p3) by (subst s3; now rewrite E3).
  eexists. split; [exact (check_level_progress_run shape level s3 p3 _ Hp3 Hsp3)|].
  apply needs_help_iff. right.
  set (d0 := get_level (levels sp) level).
  assert (Hq : forall q0 sp0,
             get_level (levels (record_in_shape level false q0 sp0)) level
             = record_in_level false q0 (get_level (levels sp0) level)).
  { intros q0 sp0. unfold record_in_shape. cbn [levels]. apply get_set_level_eq. }
  rewrite !Hq. fold d0.
  destruct (record_in_level_ends false q1 d0 []) as [pre1 H1];
    [cbn; lia | exists (questions d0); now rewrite app_nil_r|].
  edestruct (record_in_level_ends false q2) as [pre2 H2];
    [|exact (ex_intro _ pre1 H1)|]; [cbn; lia|].
  edestruct (record_in_level_ends false q3) as [pre3 H3];
    [|exact (ex_intro _ pre2 H2)|]; [cbn; lia|].
  eexists pre3, _, _, _. split; [exact H3|]. repeat split.
Qed.

Lemma three_incorrect_answers_need_help_witness :
  let s1 := snd (update_progress "square" beginner false square_question fifth_round) in
  let s2 := snd (update_progress "square" beginner false square_question s1) in
  let s3 := snd (update_progress "square" beginner false square_question s2) in
  exists st,
    check_level_progress "square" beginner s3 = (Ok st, s3) /\ needs_help st = true.
Proof.
  destruct fifth_round_facts as (_ & Hp & _ & Hsp).
  exact (three_incorrect_answers_need_help "square" beginner square_question
           square_question square_question fifth_round fifth_progress fifth_square Hp Hsp).
Defined.

(** ** The tutor's category for a submission *)

(** X21. For a processed submission the tutor answers with [level_complete]
    when a correct answer advances an expert shape, [level_up] when it
    advances a lower level, [correct] for a correct answer that does not
    advance, [close] for a close answer even when help is needed,
    [struggling] for a wrong answer when [needs_help] holds, and [wrong]
    otherwise. *)
Theorem submit_answer_tutor_category
    (f : string -> option Q) (body : option json) (s : Session) (i : string)
    (p : Progress) (q : Question) (sp : ShapeProgress) (x : Q) :
  student_id s = Some i ->
  progress s = Some p ->
  current_question s = Some q ->
  shapes p !! q_shape q = Some sp ->
  read_user_answer f body s = (Ok x, s) ->
  let error := answer_error x (q_correct_answer q) in
  let sp2 := record_in_shape (q_level q) (is_correct_of error) (with_user_answer q x) sp in
  let st := level_status (get_level (levels sp2) (q_level q)) (LEVELS (q_level q)) in
  exists resp,
    fst (submit_answer f body s) = JsonSubmit resp
    /\ r_level_status resp = st
    /\ r_ai_tutor resp =
       if is_correct_of error then
         if can_advance st then
           match next_level (current_level sp) with
           | None => cat_level_complete
           | Some _ => cat_level_up
           end
         else cat_correct
       else if is_close_of error then cat_close
       else if needs_help st then cat_struggling
       else cat_wrong.
Proof.
  intros Hid Hp Hq Hsp Hx error sp2 st.
  set (ic := is_correct_of error) in *.
  set (q' := with_user_answer q x) in *.
  set (p2 := record_answer (q_shape q) (q_level q) ic q' p sp).
  assert (Hp2 : shapes p2 !! q_shape q = Some sp2).
  { subst p2. unfold record_answer. cbn [shapes]. apply lookup_insert_eq. }
  unfold submit_answer, run_handler, submit_answer_m, require_session, try_except.
  cbv beta iota delta [bind get]. rewrite Hid.
  cbv beta iota delta [bind get]. rewrite Hx, Hq.
  cbv beta iota delta [bind modify].
  erewrite update_progress_run; [|cbn [set_current_question progress]; exact Hp|exact Hsp].
  erewrite check_level_progress_run; [|reflexivity|exact Hp2].
  fold error ic q' sp2 p2 st.
  destruct ic.
  - destruct (can_advance st) eqn:Eadv.
    + cbv beta iota delta [bind].
      erewrite advance_level_run; [|reflexivity|exact Hp2].
      cbv beta iota delta [ret]. eexists. split; [reflexivity|].
      cbn [r_level_status r_ai_tutor]. split; [reflexivity|].
      unfold advance_shape.
      replace (current_level sp2) with (current_level sp) by reflexivity.
      now destruct (current_level sp).
    + cbv beta iota delta [bind ret]. eexists. split; [reflexivity|].
      split; reflexivity.
  - destruct (is_close_of error); [|destruct (needs_help st)];
      cbv beta iota delta [bind ret]; (eexists; split; [reflexivity|]);
      split; reflexivity.
Qed.

Lemma submit_answer_tutor_category_witness :
  exists resp,
    fst (submit_answer reject_strings (answer_body 16) fifth_round) = JsonSubmit resp
    /\ r_ai_tutor resp = cat_level_up.
Proof.
  destruct fifth_round_facts as (Hid & Hp & Hq & Hsp).
  destruct (submit_answer_tutor_category reject_strings (answer_body 16) fifth_round
              "visitor" fifth_progress square_question fifth_square 16 Hid Hp Hq Hsp)
    as (resp & Hrun & _ & Hcat).
  - vm_compute; reflexivity.
  - exists resp. split; [exact Hrun|]. rewrite Hcat. vm_compute. reflexivity.
Defined.

(** ** The frame of [update_progress] *)

Lemma last_keep_last {A} (n : nat) (l : list A) (x : A) :
  (1 <= n)%nat -> last (keep_last n (l ++ [x])) = Some x.
Proof.
  intros Hn.
  destruct (keep_last_ends n (l ++ [x]) [x]) as [pre ->]; [cbn; lia | eauto|].
  apply last_snoc.
Qed.

(** X22. [update_progress] adds one to the global attempt count and to
    exactly one of the global correct and wrong counts, by the answer; in
    the addressed level it adds one to the attempts, and one to the correct
    count exactly for a correct answer, and appends the answer (its
    correctness, the user's answer and the correct answer) to the log, of
    which the last 20 entries are kept; it appends the shape, the level and
    the correctness to the history, of which the last 50 entries are kept.
    Nothing else changes: the other shapes, the other levels of the shape,
    and the shape's current level, mastery, unlock and completion flags
    stay as they were. *)
Theorem update_progress_frame
    (shape : string) (level : Level) (is_correct : bool) (question_data : Question)
    (s : Session) (p : Progress) (sp : ShapeProgress) :
  progress s = Some p -> shapes p !! shape = Some sp ->
  let entry :=
    {| qr_correct := is_correct;
       qr_user_answer := default 0%Q (q_user_answer question_data);
       qr_correct_answer := q_correct_answer question_data |} in
  let event := {| h_shape := shape; h_level := level; h_correct := is_correct |} in
  exists p' sp',
    update_progress shape level is_correct question_data s = (Ok p', set_progress p' s)
    /\ shapes p' !! shape = Some sp'
    /\ (forall other, other <> shape -> shapes p' !! other = shapes p !! other)
    /\ (forall l, l <> level -> get_level (levels sp') l = get_level (levels sp) l)
    /\ progression_state sp' = progression_state sp
    /\ total_attempts p' = total_attempts p + 1
    /\ correct_answers p' = correct_answers p + (if is_correct then 1 else 0)
    /\ wrong_answers p' = wrong_answers p + (if is_correct then 0 else 1)
    /\ attempts (get_level (levels sp') level) = attempts (get_level (levels sp) level) + 1
    /\ correct (get_level (levels sp') level)
       = correct (get_level (levels sp) level) + (if is_correct then 1 else 0)
    /\ questions (get_level (levels sp') level)
       = keep_last 20 (questions (get_level (levels sp) level) ++ [entry])
    /\ last (questions (get_level (levels sp') level)) = Some entry
    /\ history p' = keep_last 50 (history p ++ [event])
    /\ last (history p') = Some event.
Proof.
  intros Hp Hsp entry event.
  exists (record_answer shape level is_correct question_data p sp),
    (record_in_shape level is_correct question_data sp).
  split; [now apply update_progress_run|].
  unfold record_answer. cbn [shapes total_attempts correct_answers wrong_answers
                             history count_attempt].
  split; [apply lookup_insert_eq|].
  split; [intros other Hne; now apply lookup_insert_ne|].
  split; [intros l Hne; unfold record_in_shape; cbn [levels];
          now apply get_set_level_ne|].
  split; [apply record_in_shape_progression|].
  split; [reflexivity|].
  split; [destruct is_correct; lia|].
  split; [destruct is_correct; lia|].
  unfold record_in_shape. cbn [levels]. rewrite get_set_level_eq.
  cbn [record_in_level attempts correct questions].
  split; [reflexivity|].
  split; [destruct is_correct; lia|].
  split; [reflexivity|].
  split; [apply last_keep_last; lia|].
  split; [reflexivity|].
  apply last_keep_last. lia.
Qed.

Lemma update_progress_frame_witness :
  exists p' sp',
    update_progress "square" beginner false (with_user_answer square_question 100) fifth_round
    = (Ok p', set_progress p' fifth_round)
    /\ shapes p' !! "square"%string = Some sp'
    /\ total_attempts p' = 5 /\ correct_answers p' = 4 /\ wrong_answers p' = 1
    /\ attempts (get_level (levels sp') beginner) = 5
    /\ correct (get_level (levels sp') beginner) = 4
    /\ last (questions (get_level (levels sp') beginner))
       = Some {| qr_correct := false; qr_user_answer := 100; qr_correct_answer := 16 |}.
Proof.
  destruct fifth_round_facts as (_ & Hp & _ & Hsp).
  destruct (update_progress_frame "square" beginner false
              (with_user_answer square_question 100) fifth_round
              fifth_progress fifth_square Hp Hsp)
    as (p' & sp' & Hrun & Hl & _ & _ & _ & Htot & Hco & Hwr & Hat & Hcl & _ & Hlast & _).
  exists p', sp'. split; [exact Hrun|]. split; [exact Hl|].
  split; [rewrite Htot; vm_compute; reflexivity|].
  split; [rewrite Hco; vm_compute; reflexivity|].
  split; [rewrite Hwr; vm_compute; reflexivity|].
  split; [rewrite Hat; vm_compute; reflexivity|].
  split; [rewrite Hcl; vm_compute; reflexivity|].
  exact Hlast.
Defined.
